(** * NeoGPT: the conversational tool-orchestration loop

    A shallow embedding of the server side of NeoGPT (Node.js, SQLite):

    - [Js], [Sql]: the string primitives the code relies on;
    - [Db]: the tables of [db/database.js] and the statements run on them;
    - [Tools]: the built-in tools of [services/tools.js];
    - [Ai]: the provider adapter of [services/ai.js];
    - [Mcp]: the remote tool gateway of [services/mcp.js];
    - [MemoryRoute], [ChatsRoute], [McpRoute], [SettingsRoute], [AiRoute]:
      the handlers of [routes/memory.js], [routes/chats.js], [routes/mcp.js],
      [routes/settings.js] and [routes/ai.js].

    [Demo] and [Samples] hold concrete inputs, the modules between them the
    vocabulary of the statements; the properties follow.

    Strings are byte strings, the UTF-8 bytes of the JavaScript string (a
    surrogate without its partner as the three bytes of that code unit):
    [String.length] counts bytes, [Js.length] the UTF-16 code units that the
    [length] of JavaScript counts.  Everything outside the process (the
    model provider, remote tool servers, the URL and JSON parsers of the
    platform, the clock) is an explicit argument of the function that uses
    it. *)

From stdpp Require Import gmap strings list fin_maps pretty sorting.
From Stdlib Require Import Ascii.

#[local] Open Scope string_scope.
#[local] Open Scope list_scope.
#[local] Open Scope nat_scope.

(** ** JavaScript string primitives *)

Module Js.

(** White space as [String.prototype.trim] and the regex class [\s] see it,
    on the ASCII range: TAB, LF, VT, FF, CR and SPACE. *)
Definition is_space (c : ascii) : bool :=
  let n := nat_of_ascii c in
  (n =? 9)%nat || (n =? 10)%nat || (n =? 11)%nat || (n =? 12)%nat
  || (n =? 13)%nat || (n =? 32)%nat.

Fixpoint trimStart (s : string) : string :=
  match s with
  | EmptyString => EmptyString
  | String c s' => if is_space c then trimStart s' else s
  end.

Fixpoint trimEnd (s : string) : string :=
  match s with
  | EmptyString => EmptyString
  | String c s' =>
      match trimEnd s' with
      | EmptyString => if is_space c then EmptyString else String c EmptyString
      | t => String c t
      end
  end.

Definition trim (s : string) : string := trimEnd (trimStart s).

(** Truthiness of a string: every string but the empty one. *)
Definition truthy (s : string) : bool :=
  match s with EmptyString => false | _ => true end.

(** [x || ''] for a field that may be missing. *)
Definition or_empty (o : option string) : string := default EmptyString o.

(** [x || y] on strings. *)
Definition or_else (x y : string) : string := if truthy x then x else y.

Definition upper_case (c : ascii) : bool :=
  let n := nat_of_ascii c in (65 <=? n)%nat && (n <=? 90)%nat.

Definition lower_ascii (c : ascii) : ascii :=
  if upper_case c then ascii_of_nat (nat_of_ascii c + 32) else c.

(** [toLowerCase], on the ASCII range. *)
Fixpoint toLowerCase (s : string) : string :=
  match s with
  | EmptyString => EmptyString
  | String c s' => String (lower_ascii c) (toLowerCase s')
  end.

Definition startsWith (s p : string) : bool := String.prefix p s.

Fixpoint includes (s t : string) : bool :=
  String.prefix t s
  || match s with
     | EmptyString => false
     | String _ s' => includes s' t
     end.

(** [s.split(/\s+/).filter(Boolean)]: the maximal runs of non-space
    characters.  [cur] is the run being read, reversed. *)
Fixpoint words_aux (cur : list ascii) (s : string) : list string :=
  let flush := match cur with
               | [] => []
               | _ => [String.string_of_list_ascii (rev cur)]
               end in
  match s with
  | EmptyString => flush
  | String c s' =>
      if is_space c then flush ++ words_aux [] s' else words_aux (c :: cur) s'
  end.

Definition words (s : string) : list string := words_aux [] s.

Definition quote : string := String (ascii_of_nat 34) EmptyString.

Fixpoint join (sep : string) (l : list string) : string :=
  match l with
  | [] => EmptyString
  | [x] => x
  | x :: rest => x +:+ sep +:+ join sep rest
  end.

Definition newline : string := String (ascii_of_nat 10) EmptyString.

(** [buf.split('\n')], as the complete lines and the rest after the last
    newline (what [lines.pop()] leaves in [buf]). *)
Fixpoint split_lines (s : string) : list string * string :=
  match s with
  | EmptyString => ([], EmptyString)
  | String c s' =>
      let '(ls, rest) := split_lines s' in
      if bool_decide (c = ascii_of_nat 10) then (EmptyString :: ls, rest)
      else match ls with
           | [] => ([], String c rest)
           | l :: ls' => (String c l :: ls', rest)
           end
  end.

(** [s.split('\n')] *)
Definition split_newline (s : string) : list string :=
  let '(ls, rest) := split_lines s in ls ++ [rest].

(** [s.replace(pat, rep)] with a string pattern: the first occurrence. *)
Fixpoint replace_first (pat rep s : string) : string :=
  if String.prefix pat s
  then rep +:+ String.substring (String.length pat) (String.length s - String.length pat) s
  else match s with
       | EmptyString => EmptyString
       | String c s' => String c (replace_first pat rep s')
       end.

(** [s.slice(k)], where the first [k] characters are ASCII. *)
Definition slice_from (k : nat) (s : string) : string :=
  String.substring k (String.length s - k) s.

(** The number of bytes of the UTF-8 sequence that starts with the byte
    [c]. *)
Definition seq_bytes (c : ascii) : nat :=
  let n := nat_of_ascii c in
  if n <? 192 then 1 else if n <? 224 then 2 else if n <? 240 then 3 else 4.

(** The UTF-16 code units of a text: one for each character, two for a
    character of four bytes (a surrogate pair), of which the second is
    counted at the second byte.  [pending] is the number of bytes that
    remain of the sequence being read. *)
Fixpoint units (pending : nat) (s : string) : nat :=
  match s with
  | EmptyString => 0
  | String c s' =>
      match pending with
      | S p => (if p =? 2 then 1 else 0) + units p s'
      | 0 => 1 + units (seq_bytes c - 1) s'
      end
  end.

(** [s.length] *)
Definition length (s : string) : nat := units 0 s.

(** The first code unit of the surrogate pair of a four-byte sequence, of
    which [b1], [b2] and [b3] are the first bytes: [0xD800 + t], where
    [t + 0x40] is the code point without its last ten bits.  It is given by
    its own three bytes. *)
Definition high_surrogate (b1 b2 b3 : ascii) : string :=
  let t := (nat_of_ascii b1 mod 8) * 256 + (nat_of_ascii b2 mod 64) * 4
           + (nat_of_ascii b3 mod 64) / 16 - 64 in
  String (ascii_of_nat 237)
    (String (ascii_of_nat (160 + (t / 64) mod 16))
       (String (ascii_of_nat (128 + t mod 64)) EmptyString)).

(** The first [k] code units of a text.  A cut between the two units of a
    surrogate pair keeps the first one. *)
Fixpoint take_units (k pending : nat) (s : string) : string :=
  match s with
  | EmptyString => EmptyString
  | String c s' =>
      match pending with
      | S p => String c (take_units (if p =? 2 then k - 1 else k) p s')
      | 0 =>
          match k with
          | 0 => EmptyString
          | S k' =>
              if (seq_bytes c =? 4) && (k' =? 0)
              then match s' with
                   | String b2 (String b3 _) => high_surrogate c b2 b3
                   | _ => EmptyString
                   end
              else String c (take_units k' (seq_bytes c - 1) s')
          end
      end
  end.

(** [s.slice(0, k)] *)
Definition slice_to (k : nat) (s : string) : string := take_units k 0 s.

End Js.

(** ** SQLite scalar functions *)

Module Sql.

(** [lower(X)]: the built-in folds the 26 ASCII letters only; every other
    byte, in particular every byte of a multi-byte UTF-8 sequence, is kept. *)
Definition lower (s : string) : string := Js.toLowerCase s.

End Sql.

(** ** The database ([db/database.js]) *)

Module Db.

Inductive role := system | user | assistant | tool.

#[global] Instance role_eq_dec : EqDecision role.
Proof. solve_decision. Defined.

Record conversation_row := {
  conv_id : nat;
  conv_user_id : nat;
  conv_title : string;
  conv_created_at : nat;
  conv_updated_at : nat;
}.

Record message_row := {
  msg_id : nat;
  msg_conversation_id : nat;
  msg_role : role;
  msg_content : string;
  msg_created_at : nat;
}.

Record memory_row := {
  mem_id : nat;
  mem_user_id : nat;
  mem_content : string;
  mem_created_at : nat;
  mem_updated_at : nat;
}.

Record mcp_server_row := {
  srv_id : nat;
  srv_user_id : nat;
  srv_name : string;
  srv_url : string;
  srv_enabled : bool;
  srv_created_at : nat;
  srv_auth_type : option string;
  srv_auth_data : option string;
}.

(** Tables are lists in rowid order; the [seq_] fields are the
    AUTOINCREMENT counters of [sqlite_sequence].  [settings] is the
    key/value table with its UNIQUE(user_id, key) constraint. *)
Record t := {
  conversations : list conversation_row;
  messages : list message_row;
  memory : list memory_row;
  mcp_servers : list mcp_server_row;
  settings : gmap nat (gmap string string);
  seq_conversations : nat;
  seq_messages : nat;
  seq_memory : nat;
}.

Definition empty : t :=
  {| conversations := []; messages := []; memory := []; mcp_servers := [];
     settings := ∅;
     seq_conversations := 0; seq_messages := 0; seq_memory := 0 |}.

Definition with_memory (d : t) (m : list memory_row) (s : nat) : t :=
  {| conversations := conversations d; messages := messages d;
     memory := m; mcp_servers := mcp_servers d; settings := settings d;
     seq_conversations := seq_conversations d;
     seq_messages := seq_messages d; seq_memory := s |}.

Definition with_messages (d : t) (m : list message_row) (s : nat) : t :=
  {| conversations := conversations d; messages := m;
     memory := memory d; mcp_servers := mcp_servers d; settings := settings d;
     seq_conversations := seq_conversations d;
     seq_messages := s; seq_memory := seq_memory d |}.

Definition with_conversations (d : t) (c : list conversation_row) : t :=
  {| conversations := c; messages := messages d;
     memory := memory d; mcp_servers := mcp_servers d; settings := settings d;
     seq_conversations := seq_conversations d;
     seq_messages := seq_messages d; seq_memory := seq_memory d |}.

Definition with_settings (d : t) (s : gmap nat (gmap string string)) : t :=
  {| conversations := conversations d; messages := messages d;
     memory := memory d; mcp_servers := mcp_servers d; settings := s;
     seq_conversations := seq_conversations d;
     seq_messages := seq_messages d; seq_memory := seq_memory d |}.

(** *** memory *)

(** [INSERT INTO memory(user_id, content) VALUES (?, ?)] at time [now]. *)
Definition insert_memory (now userId : nat) (content : string) (d : t) : t :=
  let id := S (seq_memory d) in
  with_memory d
    (memory d ++ [{| mem_id := id; mem_user_id := userId; mem_content := content;
                     mem_created_at := now; mem_updated_at := now |}])
    id.

(** [SELECT COUNT( * ) AS n FROM memory WHERE user_id = ?] *)
Definition count_memory (userId : nat) (d : t) : nat :=
  length (filter (λ r, mem_user_id r = userId) (memory d)).

(** [SELECT id FROM memory WHERE user_id = ? AND lower(content) = lower(?)] *)
Definition find_memory_nocase (userId : nat) (fact : string) (d : t)
  : option memory_row :=
  head (filter (λ r, mem_user_id r = userId
                     ∧ Sql.lower (mem_content r) = Sql.lower fact) (memory d)).

(** The rows of [userId] whose content is [content] up to [lower]. *)
Definition memory_rows_nocase (userId : nat) (content : string) (d : t)
  : list memory_row :=
  filter (λ r, mem_user_id r = userId
               ∧ Sql.lower (mem_content r) = Sql.lower content) (memory d).

(** Stable insertion sort by descending [updated_at], for ORDER BY
    updated_at DESC. *)
Fixpoint insert_by_updated (r : memory_row) (l : list memory_row) : list memory_row :=
  match l with
  | [] => [r]
  | x :: l' =>
      if (mem_updated_at x <? mem_updated_at r)%nat then r :: l
      else x :: insert_by_updated r l'
  end.

(** [getUserMemory]: SELECT * FROM memory WHERE user_id = ? ORDER BY updated_at DESC *)
Definition getUserMemory (userId : nat) (d : t) : list memory_row :=
  foldr insert_by_updated [] (filter (λ r, mem_user_id r = userId) (memory d)).

(** *** messages and conversations *)

(** [INSERT INTO messages(conversation_id, role, content) VALUES (?, ?, ?)] *)
Definition insert_message (now convId : nat) (r : role) (content : string) (d : t) : t :=
  let id := S (seq_messages d) in
  with_messages d
    (messages d ++ [{| msg_id := id; msg_conversation_id := convId; msg_role := r;
                       msg_content := content; msg_created_at := now |}])
    id.

(** [UPDATE conversations SET updated_at = unixepoch() WHERE id = ?] *)
Definition touch_conversation (now convId : nat) (d : t) : t :=
  with_conversations d
    (map (λ c, if decide (conv_id c = convId)
               then {| conv_id := conv_id c; conv_user_id := conv_user_id c;
                       conv_title := conv_title c;
                       conv_created_at := conv_created_at c;
                       conv_updated_at := now |}
               else c) (conversations d)).

(** [SELECT ... FROM conversations WHERE id = ? AND user_id = ?] *)
Definition get_conversation (convId userId : nat) (d : t) : option conversation_row :=
  head (filter (λ c, conv_id c = convId ∧ conv_user_id c = userId) (conversations d)).

(** [SELECT id, role, created_at FROM messages WHERE id = ? AND conversation_id = ?] *)
Definition get_message (msgId convId : nat) (d : t) : option message_row :=
  head (filter (λ m, msg_id m = msgId ∧ msg_conversation_id m = convId) (messages d)).

(** [DELETE FROM messages WHERE conversation_id = ? AND created_at >= ?] *)
Definition delete_messages_from (convId created_at : nat) (d : t) : t :=
  with_messages d
    (filter (λ m, ¬ (msg_conversation_id m = convId ∧ created_at ≤ msg_created_at m))
            (messages d))
    (seq_messages d).

(** *** settings *)

(** [getUserSettings]: all settings of a user as one object. *)
Definition getUserSettings (userId : nat) (d : t) : gmap string string :=
  default ∅ (settings d !! userId).

(** [setSetting]: upsert of one key. *)
Definition setSetting (userId : nat) (key value : string) (d : t) : t :=
  with_settings d (<[userId := <[key := value]> (getUserSettings userId d)]> (settings d)).

(** [getUserMCPServers]: the enabled servers of a user, by creation time
    (rowid order among equal times). *)
Fixpoint insert_by_created (r : mcp_server_row) (l : list mcp_server_row) : list mcp_server_row :=
  match l with
  | [] => [r]
  | x :: l' =>
      if (srv_created_at r <? srv_created_at x)%nat then r :: l
      else x :: insert_by_created r l'
  end.

Definition getUserMCPServers (userId : nat) (d : t) : list mcp_server_row :=
  foldl (λ acc r, insert_by_created r acc) []
    (filter (λ r, srv_user_id r = userId ∧ srv_enabled r = true) (mcp_servers d)).

(** [INSERT INTO conversations(user_id, title) VALUES (?, ?)] *)
Definition insert_conversation (now userId : nat) (title : string) (d : t)
  : conversation_row * t :=
  let id := S (seq_conversations d) in
  let row := {| conv_id := id; conv_user_id := userId; conv_title := title;
                conv_created_at := now; conv_updated_at := now |} in
  (row, {| conversations := conversations d ++ [row]; messages := messages d;
           memory := memory d; mcp_servers := mcp_servers d; settings := settings d;
           seq_conversations := id; seq_messages := seq_messages d;
           seq_memory := seq_memory d |}).

Fixpoint insert_by_time (m : message_row) (l : list message_row) : list message_row :=
  match l with
  | [] => [m]
  | x :: l' =>
      if msg_created_at m <? msg_created_at x then m :: l
      else x :: insert_by_time m l'
  end.

(** [SELECT ... FROM messages WHERE conversation_id = ? ORDER BY created_at]
    (rowid order among equal times). *)
Definition messages_of (convId : nat) (d : t) : list message_row :=
  foldl (λ acc m, insert_by_time m acc) []
    (filter (λ m, msg_conversation_id m = convId) (messages d)).

(** [... ORDER BY created_at DESC LIMIT 60], reversed by the caller. *)
Definition recent_messages (convId : nat) (d : t) : list message_row :=
  let all := messages_of convId d in
  drop (length all - 60) all.

(** *** statements of the maintenance routes

    Each UPDATE and DELETE comes with [changes], the number of rows it
    touched. *)

(** [UPDATE memory SET content = ?, updated_at = unixepoch()
     WHERE id = ? AND user_id = ?] *)
Definition update_memory (now id userId : nat) (content : string) (d : t) : nat * t :=
  (length (filter (λ r, mem_id r = id ∧ mem_user_id r = userId) (memory d)),
   with_memory d
     (map (λ r, if decide (mem_id r = id ∧ mem_user_id r = userId)
                then {| mem_id := mem_id r; mem_user_id := mem_user_id r;
                        mem_content := content; mem_created_at := mem_created_at r;
                        mem_updated_at := now |}
                else r) (memory d))
     (seq_memory d)).

(** [DELETE FROM memory WHERE id = ? AND user_id = ?] *)
Definition delete_memory (id userId : nat) (d : t) : nat * t :=
  (length (filter (λ r, mem_id r = id ∧ mem_user_id r = userId) (memory d)),
   with_memory d
     (filter (λ r, ¬ (mem_id r = id ∧ mem_user_id r = userId)) (memory d))
     (seq_memory d)).

(** [DELETE FROM memory WHERE user_id = ?] *)
Definition clear_memory (userId : nat) (d : t) : t :=
  with_memory d (filter (λ r, mem_user_id r ≠ userId) (memory d)) (seq_memory d).

(** [UPDATE conversations SET title = ?, updated_at = unixepoch()
     WHERE id = ? AND user_id = ?] *)
Definition rename_conversation (now id userId : nat) (title : string) (d : t) : nat * t :=
  (length (filter (λ c, conv_id c = id ∧ conv_user_id c = userId) (conversations d)),
   with_conversations d
     (map (λ c, if decide (conv_id c = id ∧ conv_user_id c = userId)
                then {| conv_id := conv_id c; conv_user_id := conv_user_id c;
                        conv_title := title; conv_created_at := conv_created_at c;
                        conv_updated_at := now |}
                else c) (conversations d))).

(** [DELETE FROM conversations WHERE id = ? AND user_id = ?].  Foreign keys
    are enforced and [messages.conversation_id] is declared ON DELETE
    CASCADE: the messages of a deleted conversation go with it. *)
Definition delete_conversation (id userId : nat) (d : t) : nat * t :=
  let gone := filter (λ c, conv_id c = id ∧ conv_user_id c = userId) (conversations d) in
  (length gone,
   with_conversations
     (match gone with
      | [] => d
      | _ => with_messages d (filter (λ m, msg_conversation_id m ≠ id) (messages d))
               (seq_messages d)
      end)
     (filter (λ c, ¬ (conv_id c = id ∧ conv_user_id c = userId)) (conversations d))).

(** [SELECT * FROM mcp_servers WHERE id = ? AND user_id = ?] *)
Definition get_server (id userId : nat) (d : t) : option mcp_server_row :=
  head (filter (λ r, srv_id r = id ∧ srv_user_id r = userId) (mcp_servers d)).

End Db.

(** ** Built-in tools ([services/tools.js]) *)

Module Tools.

(** A tool definition in the provider's function-calling format.  The
    description and the parameter schema, which the server only passes
    through, are left out; [mcpServer] is the [_mcpServer] field that
    [mcpToolsToOpenAI] adds. *)
Record tool_def := {
  tool_type : string;
  tool_name : string;
  mcpServer : option string;
}.

Definition builtin (name : string) : tool_def :=
  {| tool_type := "function"; tool_name := name; mcpServer := None |}.

Definition BUILTIN_TOOLS : list tool_def :=
  [builtin "memory_save"; builtin "memory_get"; builtin "web_search";
   builtin "generate_image"].

Record context := {
  userId : nat;
  tavilyKey : option string;
  apiKey : option string;
}.

Section Handle.

(** The two outside services: the Tavily request of [web_search] with
    the rendering of its answer (or of its failure), and the image
    request of [generate_image] with its rendering.  The arguments of a
    tool call are an object with string fields: a call with arguments of
    another shape ([null], a number for [fact]) is outside the model. *)
Variable tavily_search : string → string → gmap string string → string.
Variable image_generate : string → string → gmap string string → string.

(** The clock read by [unixepoch()]. *)
Variable now : nat.

Definition handleBuiltinTool (name : string) (args : gmap string string)
    (ctx : context) (d : Db.t) : string * Db.t :=
  if decide (name = "memory_save") then
    let fact := Js.trim (Js.or_empty (args !! "fact")) in
    if negb (Js.truthy fact) then ("Error: No fact provided.", d)
    else
      (* Dedup: skip if exact content already exists *)
      match Db.find_memory_nocase (userId ctx) fact d with
      | Some _ => ("✓ Already remembered: " +:+ Js.quote +:+ fact +:+ Js.quote, d)
      | None =>
          ("✓ Saved to memory: " +:+ Js.quote +:+ fact +:+ Js.quote,
           Db.insert_memory now (userId ctx) fact d)
      end
  else if decide (name = "memory_get") then
    let query := Js.toLowerCase (Js.trim (Js.or_empty (args !! "query"))) in
    let allFacts := Db.getUserMemory (userId ctx) d in
    let terms := Js.words query in
    let matched :=
      match terms with
      | [] => allFacts
      | _ => filter (λ f, existsb (λ t, Js.includes (Js.toLowerCase (Db.mem_content f)) t)
                                  terms = true) allFacts
      end in
    match matched with
    | [] =>
        (if Js.truthy query
         then "No memories found matching " +:+ Js.quote
              +:+ Js.or_empty (args !! "query") +:+ Js.quote +:+ "."
         else "No memories stored yet.", d)
    | _ => (Js.join Js.newline (map (λ f, "- " +:+ Db.mem_content f) matched), d)
    end
  else if decide (name = "web_search") then
    match tavilyKey ctx with
    | None =>
        ("Web search is not configured. The user needs to add a Tavily API key in Settings → Model.", d)
    | Some key =>
        let query := Js.trim (Js.or_empty (args !! "query")) in
        if negb (Js.truthy query) then ("Error: No query provided.", d)
        else (tavily_search key query args, d)
    end
  else if decide (name = "generate_image") then
    let prompt := Js.trim (Js.or_empty (args !! "prompt")) in
    if negb (Js.truthy prompt) then ("Error: No prompt provided.", d)
    else match apiKey ctx with
         | None => ("Image generation requires an OpenAI API key set in Settings.", d)
         | Some key => (image_generate key prompt args, d)
         end
  else ("Unknown built-in tool: " +:+ name, d).

End Handle.

(** What a Tavily search answers, as far as [runDeepResearch] reads it. *)
Record search_hit := {
  hit_title : string;
  hit_url : string;
  hit_content : option string;
}.

Record search_data := {
  answer : option string;
  results : option (list search_hit);
}.

(** How the request for one query ends: the promise is rejected; or it is
    fulfilled with the decoded body, an object with these fields, or with a
    value that the rendering loop cannot read and throws on ([null], a
    [results] that is no array, a result that is [null]). *)
Inductive search_answer :=
| search_rejected
| search_body (data : search_data)
| search_unreadable.

Section Research.

(** The Tavily request for one query under a key, with the decoding of
    its answer. *)
Variable tavily : string → string → search_answer.

Definition render_hit (r : search_hit) : string :=
  "• **" +:+ hit_title r +:+ "** (" +:+ hit_url r +:+ ")" +:+ Js.newline +:+ "  "
  +:+ Js.slice_to 350 (Js.or_empty (hit_content r)) +:+ "…".

(** One iteration of the loop over the settled requests: the section it
    pushes, or [None] when it throws. *)
Definition render_section (i : nat) (q : string) (res : search_answer) : option string :=
  match res with
  | search_rejected => Some ("[Search " +:+ pretty (i + 1) +:+ ": failed]")
  | search_unreadable => None
  | search_body data =>
      Some (Js.join Js.newline
              (["### Search: " +:+ Js.quote +:+ q +:+ Js.quote]
               ++ match answer data with
                  | Some a => if Js.truthy a then ["Summary: " +:+ a] else []
                  | None => []
                  end
               ++ map render_hit (take 4 (default [] (results data)))))
  end.

(** Run multiple Tavily searches in parallel (used by deep research mode).
    [None] is a rejected promise: the loop over the results is in no [try],
    so the first body that it cannot read ends the function. *)
Definition runDeepResearch (queries : list string) (tavilyKey : option string)
  : option string :=
  match tavilyKey with
  | Some key =>
      if Js.truthy key then
        sections ← mapM (λ section, section)
                     (imap (λ i q, render_section i q (tavily key q)) queries);
        Some (Js.join (Js.newline +:+ Js.newline +:+ "---" +:+ Js.newline +:+ Js.newline)
                sections)
      else Some "Web search not configured. Add a Tavily API key in Settings."
  | None => Some "Web search not configured. Add a Tavily API key in Settings."
  end.

End Research.

End Tools.

(** ** Memory routes ([routes/memory.js]) *)

Module MemoryRoute.

Inductive reply :=
| error (status : nat) (message : string)
| json_row (row : option Db.memory_row).

Definition MAX_FACTS : nat := 500.
Definition MAX_FACT_LENGTH : nat := 1000.

(** POST /api/memory: add a memory fact.  [content] is [req.body.content]. *)
Definition post (now userId : nat) (content : option string) (d : Db.t)
  : reply * Db.t :=
  match content with
  | None => (error 400 "Content required", d)
  | Some c =>
      if negb (Js.truthy (Js.trim c)) then (error 400 "Content required", d)
      else if MAX_FACT_LENGTH <? Js.length c
      then (error 400 "Memory fact too long (max 1000 chars)", d)
      else
        let count := Db.count_memory userId d in
        if MAX_FACTS <=? count
        then (error 400 "Memory limit reached (500 facts max). Delete some facts first.", d)
        else
          let d' := Db.insert_memory now userId (Js.trim c) d in
          (json_row (last (Db.memory d')), d')
  end.

(** The answers of the other handlers: an error, or [{ ok: true }]. *)
Inductive ack := failed (status : nat) (message : string) | ok.

(** GET /api/memory *)
Definition get (userId : nat) (d : Db.t) : list Db.memory_row :=
  Db.getUserMemory userId d.

(** PATCH /api/memory/:id: update a memory fact. *)
Definition patch (now userId id : nat) (content : option string) (d : Db.t)
  : ack * Db.t :=
  match content with
  | None => (failed 400 "Content required", d)
  | Some c =>
      if negb (Js.truthy (Js.trim c)) then (failed 400 "Content required", d)
      else if MAX_FACT_LENGTH <? Js.length c
      then (failed 400 "Memory fact too long (max 1000 chars)", d)
      else
        let '(changes, d') := Db.update_memory now id userId (Js.trim c) d in
        if changes =? 0 then (failed 404 "Not found", d') else (ok, d')
  end.

(** DELETE /api/memory/:id *)
Definition remove (userId id : nat) (d : Db.t) : ack * Db.t :=
  let '(changes, d') := Db.delete_memory id userId d in
  if changes =? 0 then (failed 404 "Not found", d') else (ok, d').

(** DELETE /api/memory: clear all memory. *)
Definition clear (userId : nat) (d : Db.t) : ack * Db.t :=
  (ok, Db.clear_memory userId d).

End MemoryRoute.

(** ** The provider adapter ([services/ai.js]) *)

Module Ai.

(** A JavaScript [Error]: its [name] and its [message]. *)
Record exn := { name : string; message : string }.

Definition Error (msg : string) : exn := {| name := "Error"; message := msg |}.
Definition TypeError (msg : string) : exn := {| name := "TypeError"; message := msg |}.
Definition AbortError (msg : string) : exn := {| name := "AbortError"; message := msg |}.

(** One entry of [toolCallsAcc]: [{ id, name, args }]. *)
Record tool_call := { tc_id : string; tc_name : string; tc_args : string }.

(** Messages in the provider's format: [{role, content}], the assistant
    turn that carries tool calls, and the tool turn that answers one. *)
Inductive api_message :=
| plain (r : Db.role) (content : string)
| assistant_calls (content : option string) (tool_calls : list tool_call)
| tool_result (tool_call_id : string) (content : string).

Definition role_of (m : api_message) : Db.role :=
  match m with
  | plain r _ => r
  | assistant_calls _ _ => Db.assistant
  | tool_result _ _ => Db.tool
  end.

Definition content_of (m : api_message) : string :=
  match m with
  | plain _ c => c
  | assistant_calls c _ => default "null" c
  | tool_result _ c => c
  end.

(** What the provider streams: the first choice of a chunk, if any. *)
Record tool_call_delta := {
  index : nat;
  id : option string;
  function_name : option string;
  function_arguments : option string;
}.

Record choice := {
  delta_content : option string;
  delta_tool_calls : option (list tool_call_delta);
  finish_reason : option string;
}.

Inductive stream_end := closed | thrown (e : exn).

(** The answer to one [client.chat.completions.create]: the call rejects,
    or it yields a stream of chunks that is closed or fails while it is
    read.  A stream is a finite list: a provider that never stops sending
    is outside the model.  The [signal] of the caller goes to the client
    with the request; a cancellation shows in the answer, as a request that
    is rejected or as a stream that ends or fails where it was cut. *)
Inductive completion :=
| rejected (e : exn)
| stream (chunks : list (option choice)) (fin : stream_end).

(** The request parameters built at the head of each round.  The
    temperature is kept as the caller gave it ([parseFloat(temperature) ||
    0.7] is applied when it is included). *)
Record params := {
  p_model : string;
  p_messages : list api_message;
  p_temperature : option string;
  p_reasoning_effort : option string;
  p_tools : option (list Tools.tool_def);
}.

(** The callbacks of the adapter, as they are invoked. *)
Inductive event :=
| Chunk (delta : string)
| ToolCall (name : string) (args : gmap string string)
| ToolResult (name : string) (result : string)
| Done (fullText : string)
| Failed (err : exn).

Definition is_digit (c : ascii) : bool :=
  let n := nat_of_ascii c in (48 <=? n) && (n <=? 57).

(** [/^o[0-9]/.test(model)] *)
Definition o_series (model : string) : bool :=
  match model with
  | String o (String d _) => bool_decide (o = "o"%char) && is_digit d
  | _ => false
  end.

(** [/^gpt-5/.test(model)] *)
Definition gpt5 (model : string) : bool := String.prefix "gpt-5" model.

Definition empty_call : tool_call :=
  {| tc_id := EmptyString; tc_name := EmptyString; tc_args := EmptyString |}.

Definition append_opt (s : string) (o : option string) : string :=
  match o with
  | Some x => if Js.truthy x then s +:+ x else s
  | None => s
  end.

(** The three [+=] of the fragment loop on the entry of one index. *)
Definition add_fragment (tc : tool_call_delta) (c : tool_call) : tool_call :=
  {| tc_id := append_opt (tc_id c) (id tc);
     tc_name := append_opt (tc_name c) (function_name tc);
     tc_args := append_opt (tc_args c) (function_arguments tc) |}.

(** [toolCallsAcc] is an object with integer keys: [Object.values] lists
    it by ascending key, so it is kept sorted by key. *)
Fixpoint acc_update (tc : tool_call_delta) (acc : list (nat * tool_call))
  : list (nat * tool_call) :=
  match acc with
  | [] => [(index tc, add_fragment tc empty_call)]
  | (i, c) :: rest =>
      if index tc =? i then (i, add_fragment tc c) :: rest
      else if index tc <? i then (index tc, add_fragment tc empty_call) :: acc
      else (i, c) :: acc_update tc rest
  end.

Definition Object_values (acc : list (nat * tool_call)) : list tool_call :=
  map snd acc.

(** Arrays live in a store and are passed by reference. *)
Definition alloc (h : gmap nat (list api_message)) (v : list api_message)
  : nat * gmap nat (list api_message) :=
  let l := fresh (dom h) in (l, <[l := v]> h).

Definition push (l : nat) (x : api_message) (h : gmap nat (list api_message))
  : gmap nat (list api_message) :=
  alter (λ v, v ++ [x]) l h.

Definition read (l : nat) (h : gmap nat (list api_message)) : list api_message :=
  default [] (h !! l).

Section Adapter.

(** The state of the caller, which the callbacks and the tool executor
    act on.  The callbacks are closures of the caller: they may also read
    the arrays of the store.  Callbacks return; a tool executor returns a
    text or throws ([inl]). *)
Context {Σ : Type}.

(** [JSON.parse] on an argument string: [None] when it throws.  What it
    returns is taken to be an object with string fields. *)
Variable JSON_parse : string → option (gmap string string).

(** The provider behind the OpenAI client, by round and request. *)
Variable provider : nat → params → completion.

Record options := {
  provider_id : option string;
  messages : nat;
  model : string;
  temperature : option string;
  tools : option (list Tools.tool_def);
  toolExecutor : option (string → gmap string string → Σ → (exn + string) * Σ);
  apiKey : option string;
  reasoningEffort : option string;
  onChunk : string → gmap nat (list api_message) → Σ → Σ;
  onToolCall : option (string → gmap string string → gmap nat (list api_message) → Σ → Σ);
  onToolResult : option (string → string → gmap nat (list api_message) → Σ → Σ);
  onDone : string → gmap nat (list api_message) → Σ → Σ;
  onError : exn → gmap nat (list api_message) → Σ → Σ;
}.

(** What a call works on: the array store, the caller's state, the
    whole-response buffer, and two logs kept for the statements below,
    the requests sent to the provider and the callbacks invoked. *)
Record state := {
  heap : gmap nat (list api_message);
  caller : Σ;
  fullResponse : string;
  requests : list params;
  emitted : list event;
}.

Definition set_heap (s : state) (h : gmap nat (list api_message)) : state :=
  {| heap := h; caller := caller s; fullResponse := fullResponse s;
     requests := requests s; emitted := emitted s |}.

(** Invoke a callback: act on the caller's state and log the call. *)
Definition call (ev : event) (f : gmap nat (list api_message) → Σ → Σ) (s : state) : state :=
  {| heap := heap s; caller := f (heap s) (caller s); fullResponse := fullResponse s;
     requests := requests s; emitted := emitted s ++ [ev] |}.

Definition call_opt (ev : event) (f : option (gmap nat (list api_message) → Σ → Σ))
    (s : state) : state :=
  match f with
  | Some g => call ev g s
  | None => s
  end.

Definition emit_done (o : options) (s : state) : state :=
  call (Done (fullResponse s)) (onDone o (fullResponse s)) s.

Definition emit_error (o : options) (e : exn) (s : state) : state :=
  call (Failed e) (onError o e) s.

Definition hasTools (o : options) : bool :=
  match tools o with
  | Some (_ :: _) => true
  | _ => false
  end.

Definition make_params (o : options) (msgs : list api_message) : params :=
  {| p_model := model o;
     p_messages := msgs;
     p_temperature :=
       if negb (o_series (model o)) && negb (gpt5 (model o))
       then Some (Js.or_empty (temperature o)) else None;
     p_reasoning_effort :=
       if o_series (model o) || gpt5 (model o)
       then match reasoningEffort o with
            | Some e => if Js.truthy e then Some e else None
            | None => None
            end
       else None;
     p_tools :=
       if hasTools o
       then map (λ t, {| Tools.tool_type := Tools.tool_type t;
                         Tools.tool_name := Tools.tool_name t;
                         Tools.mcpServer := None |}) <$> tools o
       else None |}.

(** The variables of one round. *)
Record round_state := {
  st : state;
  chunkText : string;
  finishReason : option string;
  toolCallsAcc : list (nat * tool_call);
}.

(** The body of [for await (const chunk of stream)]. *)
Definition consume (o : options) (rs : round_state) (ch : option choice)
  : round_state :=
  match ch with
  | None => rs
  | Some c =>
      let textDelta := Js.or_empty (delta_content c) in
      let rs1 :=
        if Js.truthy textDelta then
          let s := st rs in
          let s' := call (Chunk textDelta) (onChunk o textDelta)
                      {| heap := heap s; caller := caller s;
                         fullResponse := fullResponse s +:+ textDelta;
                         requests := requests s; emitted := emitted s |} in
          {| st := s'; chunkText := chunkText rs +:+ textDelta;
             finishReason := finishReason rs; toolCallsAcc := toolCallsAcc rs |}
        else rs in
      let acc :=
        match delta_tool_calls c with
        | Some tcDeltas => foldl (λ a tc, acc_update tc a) (toolCallsAcc rs1) tcDeltas
        | None => toolCallsAcc rs1
        end in
      {| st := st rs1; chunkText := chunkText rs1;
         finishReason := match finish_reason c with
                         | Some r => if Js.truthy r then Some r else finishReason rs1
                         | None => finishReason rs1
                         end;
         toolCallsAcc := acc |}
  end.

(** One iteration of [for (const tc of toolCallList)]. *)
Definition run_tool (o : options) (msgsCopy : nat)
    (exec : string → gmap string string → Σ → (exn + string) * Σ)
    (s : state) (tc : tool_call) : state :=
  let parsedArgs := default ∅ (JSON_parse (Js.or_else (tc_args tc) "{}")) in
  let s1 := call_opt (ToolCall (tc_name tc) parsedArgs)
              ((λ f, f (tc_name tc) parsedArgs) <$> onToolCall o) s in
  let '(r, σ) := exec (tc_name tc) parsedArgs (caller s1) in
  let resultText := match r with
                    | inr text => text
                    | inl err => "Error: " +:+ message err
                    end in
  let s2 := {| heap := heap s1; caller := σ; fullResponse := fullResponse s1;
               requests := requests s1; emitted := emitted s1 |} in
  let s3 := call_opt (ToolResult (tc_name tc) resultText)
              ((λ f, f (tc_name tc) resultText) <$> onToolResult o) s2 in
  set_heap s3 (push msgsCopy (tool_result (tc_id tc) resultText) (heap s3)).

(** How one round of the loop is left. *)
Inductive outcome := next_round | returned | raised (e : exn).

(** The body of [for (let round = 0; round < 10; round++)]. *)
Definition round (o : options) (msgsCopy : nat) (rnd : nat) (s : state)
  : state * outcome :=
  let p := make_params o (read msgsCopy (heap s)) in
  let s0 := {| heap := heap s; caller := caller s; fullResponse := fullResponse s;
               requests := requests s ++ [p]; emitted := emitted s |} in
  match provider rnd p with
  | rejected e => (s0, raised e)
  | stream chunks fin =>
      let rs := foldl (consume o)
                  {| st := s0; chunkText := EmptyString; finishReason := None;
                     toolCallsAcc := [] |} chunks in
      match fin with
      | thrown e => (st rs, raised e)
      | closed =>
          match toolExecutor o with
          | Some exec =>
              if bool_decide (finishReason rs = Some "tool_calls") && hasTools o then
                let toolCallList := Object_values (toolCallsAcc rs) in
                let s1 := set_heap (st rs)
                            (push msgsCopy
                               (assistant_calls
                                  (if Js.truthy (chunkText rs)
                                   then Some (chunkText rs) else None)
                                  toolCallList)
                               (heap (st rs))) in
                (foldl (run_tool o msgsCopy exec) s1 toolCallList, next_round)
              else (emit_done o (st rs), returned)
          | None => (emit_done o (st rs), returned)
          end
      end
  end.

(** [n] iterations of the loop, starting at round [rnd]; the outcome is
    [next_round] when the loop runs out of iterations. *)
Fixpoint rounds (o : options) (msgsCopy : nat) (n rnd : nat) (s : state)
  : state * outcome :=
  match n with
  | 0 => (s, next_round)
  | S n' =>
      match round o msgsCopy rnd s with
      | (s', next_round) => rounds o msgsCopy n' (S rnd) s'
      | r => r
      end
  end.

Definition MAX_ROUNDS : nat := 10.

Definition makeOpenAIClient (key : option string) : exn + string :=
  match key with
  | Some k =>
      if Js.truthy k then inr k
      else inl (Error "No OpenAI API key set. Add yours in Settings → Model → OpenAI API Key.")
  | None => inl (Error "No OpenAI API key set. Add yours in Settings → Model → OpenAI API Key.")
  end.

Definition init (h : gmap nat (list api_message)) (σ : Σ) : state :=
  {| heap := h; caller := σ; fullResponse := EmptyString;
     requests := []; emitted := [] |}.

(** [streamOpenAI]: [inl] is a rejected promise (nothing was done: the
    client factory threw, or there is no array at [messages] to spread),
    [inr] the state when the promise resolves. *)
Definition streamOpenAI (o : options) (h : gmap nat (list api_message)) (σ : Σ)
  : exn + state :=
  match makeOpenAIClient (apiKey o) with
  | inl e => inl e
  | inr _ =>
      match h !! messages o with
      | None => inl (TypeError "messages is not iterable")
      | Some msgs =>
          let '(msgsCopy, h') := alloc h msgs in
          match rounds o msgsCopy MAX_ROUNDS 0 (init h' σ) with
          | (s, returned) => inr s
          | (s, next_round) => inr (emit_done o s)
          | (s, raised err) =>
              if bool_decide (name err ≠ "AbortError")
              then inr (emit_error o err s)
              else inr (emit_done o s)
          end
      end
  end.

(** [streamChat]: dispatch on the provider id, ['openai'] by default. *)
Definition streamChat (o : options) (h : gmap nat (list api_message)) (σ : Σ)
  : exn + state :=
  let p := default "openai" (provider_id o) in
  if decide (p = "openai") then streamOpenAI o h σ
  else inr (emit_error o (Error ("Unknown provider: " +:+ p)) (init h σ)).

End Adapter.

(** [isProviderAvailable] *)
Definition isProviderAvailable (provider : string) (userApiKey : option string) : bool :=
  if decide (provider = "openai")
  then match userApiKey with Some k => Js.truthy k | None => false end
  else false.

End Ai.

(** ** The remote tool gateway ([services/mcp.js]) *)

Module Mcp.

Import Ai (exn, Error, name, message).

(** *** The SSRF guard *)

Definition digit_between (lo hi : nat) (c : ascii) : bool :=
  let n := nat_of_ascii c in (48 + lo <=? n) && (n <=? 48 + hi).

(** [172\.(1[6-9]|2\d|3[01])\.] at the head of [s]. *)
Definition range_172 (s : string) : bool :=
  match s with
  | String c1 (String c2 (String c3 (String c4 (String c5 (String c6 (String c7 _)))))) =>
      bool_decide (c1 = "1"%char) && bool_decide (c2 = "7"%char)
      && bool_decide (c3 = "2"%char) && bool_decide (c4 = "."%char)
      && ((bool_decide (c5 = "1"%char) && digit_between 6 9 c6)
          || (bool_decide (c5 = "2"%char) && digit_between 0 9 c6)
          || (bool_decide (c5 = "3"%char) && digit_between 0 1 c6))
      && bool_decide (c7 = "."%char)
  | _ => false
  end.

(** [PRIVATE_IP_RE.test(host)], the pattern being
    [/^(127\.|10\.|172\.(1[6-9]|2\d|3[01])\.|192\.168\.|169\.254\.|::1|fc|fd|fe80)/i].
    The flag [i] folds the ASCII letters of the host. *)
Definition PRIVATE_IP_RE (host : string) : bool :=
  let h := Js.toLowerCase host in
  String.prefix "127." h || String.prefix "10." h || range_172 h
  || String.prefix "192.168." h || String.prefix "169.254." h
  || String.prefix "::1" h || String.prefix "fc" h || String.prefix "fd" h
  || String.prefix "fe80" h.

(** The two fields of a parsed [URL] that the guard reads.  The
    [hostname] of an IPv6 literal comes with its brackets: that of
    [http://[::1]/] is [[::1]]. *)
Record url := { protocol : string; hostname : string }.

(** *** The wire *)

Inductive rpc_params :=
| initialize_params
| no_params
| call_params (tool : string) (arguments : gmap string string).

Record request := {
  req_url : string;
  req_authorization : option string;
  req_id : nat;
  req_method : string;
  req_params : rpc_params;
}.

Record http_response := {
  ok : bool;
  status : nat;
  content_type : option string;
  body : list string;
}.

Inductive fetch_result :=
| network_error (e : exn)
| responded (r : http_response).

Record mcp_tool := { tool_name : string; tool_description : option string }.

Record content_block := { cb_type : string; cb_text : string; cb_json : string }.

(** A decoded JSON-RPC result: the fields the gateway reads, and its
    [JSON.stringify] text. *)
Record rpc_result := {
  res_tools : option (list mcp_tool);
  res_content : option (list content_block);
  res_json : string;
}.

Record rpc_error := { err_code : string; err_message : string }.

Record envelope := {
  env_error : option rpc_error;
  env_result : option rpc_result;
}.

Record auth := { auth_type : string; token : option string }.

(** The process-wide request counter [_reqId] and, as a log, the
    requests handed to [fetch]. *)
Record net := { reqId : nat; wire : list request }.

Definition boot : net := {| reqId := 1; wire := [] |}.

(** Computations that read and write [net] and may throw. *)
Definition M (A : Type) : Type := net → (exn + A) * net.

#[global] Instance M_ret : MRet M := λ A x n, (inr x, n).
#[global] Instance M_bind : MBind M := λ A B f m n,
  match m n with
  | (inr x, n') => f x n'
  | (inl e, n') => (inl e, n')
  end.

Definition throw {A} (e : exn) : M A := λ n, (inl e, n).

Definition try_catch {A} (m : M A) (handler : exn → M A) : M A := λ n,
  match m n with
  | (inr x, n') => (inr x, n')
  | (inl e, n') => handler e n'
  end.

Definition nextId : M nat := λ n,
  (inr (reqId n), {| reqId := S (reqId n); wire := wire n |}).

Section Gateway.

(** [new URL(rawUrl)]: [None] when the constructor throws. *)
Variable URL_parse : string → option url.

(** [JSON.parse] on a response text, as a JSON-RPC envelope ([inl] is the
    error it throws), and on the [auth_data] column, as an object of
    strings. *)
Variable JSON_envelope : string → exn + envelope.
Variable JSON_parse : string → option (gmap string string).

(** The network: what [fetch] answers to a request (a timeout is a
    [network_error]). *)
Variable fetch : request → fetch_result.

Definition validateMcpUrl (rawUrl : string) : exn + unit :=
  match URL_parse rawUrl with
  | None => inl (Error "Invalid MCP server URL")
  | Some parsed =>
      if bool_decide (protocol parsed ≠ "http:") && bool_decide (protocol parsed ≠ "https:")
      then inl (Error "MCP server URL must use http or https")
      else
        let host := hostname parsed in
        if PRIVATE_IP_RE host || bool_decide (host = "localhost")
        then inl (Error "MCP server URL must not point to a private or loopback address")
        else inr ()
  end.

Definition mcp_error (e : rpc_error) : exn :=
  Error ("MCP error [" +:+ err_code e +:+ "]: " +:+ err_message e).

(** The [for (const line of lines)] loop of [readSSEResult]: [Some] when
    it leaves the function, by a throw or by a return. *)
Fixpoint scan_lines (lines : list string) : option (exn + option rpc_result) :=
  match lines with
  | [] => None
  | line :: rest =>
      if Js.startsWith line "data: " then
        match JSON_envelope (Js.slice_from 6 line) with
        | inr json =>
            match env_error json with
            | Some e => Some (inl (mcp_error e))
            | None =>
                match env_result json with
                | Some r => Some (inr (Some r))
                | None => scan_lines rest
                end
            end
        | inl _ => scan_lines rest
        end
      else scan_lines rest
  end.

(** Read first [result] event from an SSE stream, given in the pieces
    the reader delivers. *)
Fixpoint readSSEResult (chunks : list string) (buf : string)
  : exn + option rpc_result :=
  match chunks with
  | [] => inl (Error "MCP server closed without sending a result")
  | value :: more =>
      let '(lines, buf') := Js.split_lines (buf +:+ value) in
      match scan_lines lines with
      | Some r => r
      | None => readSSEResult more buf'
      end
  end.

Definition authorization (a : option auth) : option string :=
  match a with
  | Some a' =>
      match token a' with
      | Some bearerToken =>
          if Js.truthy bearerToken
             && (bool_decide (auth_type a' = "token") || bool_decide (auth_type a' = "oauth"))
          then Some ("Bearer " +:+ bearerToken) else None
      | None => None
      end
  | None => None
  end.

Definition do_fetch (r : request) : M fetch_result := λ n,
  (inr (fetch r), {| reqId := reqId n; wire := wire n ++ [r] |}).

Definition lift {A} (r : exn + A) : M A :=
  match r with
  | inl e => throw e
  | inr x => mret x
  end.

Definition mcpRequest (serverUrl method : string) (params : rpc_params)
    (a : option auth) : M (option rpc_result) :=
  _ ← lift (validateMcpUrl serverUrl);
  i ← nextId;
  res ← do_fetch {| req_url := serverUrl; req_authorization := authorization a;
                    req_id := i; req_method := method; req_params := params |};
  match res with
  | network_error e => throw e
  | responded res =>
      if negb (ok res)
      then throw (Error ("MCP server " +:+ serverUrl +:+ " responded " +:+ pretty (status res)))
      else
        let contentType := Js.or_empty (content_type res) in
        if Js.includes contentType "text/event-stream"
        then lift (readSSEResult (body res) EmptyString)
        else
          match JSON_envelope (Js.join EmptyString (body res)) with
          | inl e => throw e
          | inr json =>
              match env_error json with
              | Some e => throw (mcp_error e)
              | None => mret (env_result json)
              end
          end
  end.

Definition mcpInitialize (serverUrl : string) (a : option auth)
  : M (option rpc_result) :=
  mcpRequest serverUrl "initialize" initialize_params a.

Definition listTools (serverUrl : string) (a : option auth) : M (list mcp_tool) :=
  try_catch
    (_ ← mcpInitialize serverUrl a;
     result ← mcpRequest serverUrl "tools/list" no_params a;
     mret (default [] (result ≫= res_tools)))
    (λ _, mret []).

Definition callTool (serverUrl toolName : string) (args : gmap string string)
    (a : option auth) : M (list content_block) :=
  try_catch
    (_ ← mcpInitialize serverUrl a;
     result ← mcpRequest serverUrl "tools/call" (call_params toolName args) a;
     mret (match result ≫= res_content with
           | Some c => c
           | None =>
               let text := default EmptyString (res_json <$> result) in
               [{| cb_type := "text"; cb_text := text; cb_json := text |}]
           end))
    (λ err, mret [{| cb_type := "text"; cb_text := "Tool error: " +:+ message err;
                     cb_json := "Tool error: " +:+ message err |}]).

Definition mcpToolsToOpenAI (mcpTools : list mcp_tool) (serverUrl : string)
  : list Tools.tool_def :=
  map (λ t, {| Tools.tool_type := "function"; Tools.tool_name := tool_name t;
               Tools.mcpServer := Some serverUrl |}) mcpTools.

(** Build auth object from DB row *)
Definition buildAuth (srv : Db.mcp_server_row) : option auth :=
  match Db.srv_auth_type srv with
  | None => None
  | Some ty =>
      if negb (Js.truthy ty) || bool_decide (ty = "none") then None
      else
        let data := match Db.srv_auth_data srv with
                    | Some text => if Js.truthy text then default ∅ (JSON_parse text) else ∅
                    | None => ∅
                    end in
        let tok := match data !! "token" with
                   | Some t => if Js.truthy t then Some t else data !! "access_token"
                   | None => data !! "access_token"
                   end in
        Some {| auth_type := ty;
                token := match tok with
                         | Some t => if Js.truthy t then Some t else None
                         | None => None
                         end |}
  end.

Record server_info := { info_url : string; info_auth : option auth }.

Record catalog := {
  openaiTools : list Tools.tool_def;
  toolServerMap : gmap string server_info;
}.

(** The continuation of one server's callback after [await listTools]:
    a loop without suspension point, so it runs as a whole. *)
Definition merge_tools (srv : Db.mcp_server_row) (a : option auth)
    (tools : list mcp_tool) (c : catalog) : catalog :=
  foldl (λ c t,
           match toolServerMap c !! tool_name t with
           | Some _ => c
           | None =>       (* first server wins on name collision *)
               {| openaiTools := openaiTools c ++ mcpToolsToOpenAI [t] (Db.srv_url srv);
                  toolServerMap := <[tool_name t := {| info_url := Db.srv_url srv;
                                                       info_auth := a |}]>
                                     (toolServerMap c) |}
           end) c tools.

(** [collectMCPTools] starts the callbacks of all servers at once and
    [Promise.allSettled] waits for them, so the callbacks interleave.  A
    callback is suspended where [listTools] awaits an answer: of
    [initialize], then of [tools/list]; it has run to its end once it has
    merged its tools.  [mcpRequest] puts the request on the wire and
    decodes the answer that [fetch] gives to it; the callback uses it when
    it is resumed. *)
Inductive callback :=
| initializing (srv : Db.mcp_server_row) (a : option auth) (r : exn + option rpc_result)
| listing (srv : Db.mcp_server_row) (a : option auth) (r : exn + option rpc_result)
| finished.

(** A callback up to its first suspension: [buildAuth], and [listTools]
    up to the request of [initialize]. *)
Definition start (srv : Db.mcp_server_row) : M callback := λ n,
  let a := buildAuth srv in
  let '(r, n') := mcpInitialize (Db.srv_url srv) a n in
  (inr (initializing srv a r), n').

(** A callback from the answer it waits for to its next suspension or to
    its end.  After [initialize] it sends [tools/list]; when [listTools]
    returns, with the tools of the answer or, from its [catch], with none,
    it merges them into the catalogue as it is by then.  (A callback whose
    [initialize] was refused before it was sent waits for no answer; it has
    no tools to merge, whenever it is resumed.) *)
Definition resume (cb : callback) (c : catalog) : M (callback * catalog) :=
  match cb with
  | initializing srv a (inr _) => λ n,
      let '(r, n') := mcpRequest (Db.srv_url srv) "tools/list" no_params a n in
      (inr (listing srv a r, c), n')
  | initializing srv a (inl _) => mret (finished, merge_tools srv a [] c)
  | listing srv a (inr result) =>
      mret (finished, merge_tools srv a (default [] (result ≫= res_tools)) c)
  | listing srv a (inl _) => mret (finished, merge_tools srv a [] c)
  | finished => mret (finished, c)
  end.

(** [servers.map(async (srv) => ...)]: every callback runs to its first
    suspension, in the order of the servers. *)
Fixpoint start_all (servers : list Db.mcp_server_row) : M (list callback) :=
  match servers with
  | [] => mret []
  | srv :: rest =>
      cb ← start srv;
      cbs ← start_all rest;
      mret (cb :: cbs)
  end.

(** The answer that callback [i] waits for arrives. *)
Definition deliver (st : list callback * catalog) (i : nat)
  : M (list callback * catalog) :=
  match st.1 !! i with
  | Some cb => '(cb', c') ← resume cb st.2; mret (<[i := cb']> st.1, c')
  | None => mret st
  end.

Fixpoint deliver_all (arrivals : list nat) (st : list callback * catalog)
  : M (list callback * catalog) :=
  match arrivals with
  | [] => mret st
  | i :: rest => st' ← deliver st i; deliver_all rest st'
  end.

(** [collectMCPTools].  [arrivals] lists the positions of the servers
    (0, 1, ...) in the order in which their answers arrive, a position at
    most twice: for its answer to [initialize], then for its answer to
    [tools/list].  Every request is answered in the end (a timeout is an
    answer): the answers that [arrivals] leaves out arrive after the others,
    in the order of the servers. *)
Definition collectMCPTools (servers : list Db.mcp_server_row) (arrivals : list nat)
  : M catalog :=
  callbacks ← start_all servers;
  let every := seq 0 (length servers) in
  st ← deliver_all (arrivals ++ every ++ every)
         (callbacks, {| openaiTools := []; toolServerMap := ∅ |});
  mret st.2.

End Gateway.

End Mcp.

(** ** Conversation routes ([routes/chats.js]) *)

Module ChatsRoute.

Inductive reply :=
| error (status : nat) (message : string)
| edited (deletedFrom : nat).

(** PATCH /api/chats/:id/messages/:msgId: edit a message and delete
    everything after it.  [content] is [req.body.content]. *)
Definition patch_message (now userId convId msgId : nat) (content : option string)
    (d : Db.t) : reply * Db.t :=
  match Db.get_conversation convId userId d with
  | None => (error 404 "Conversation not found", d)
  | Some conv =>
      match Db.get_message msgId (Db.conv_id conv) d with
      | None => (error 404 "Message not found", d)
      | Some msg =>
          if bool_decide (Db.msg_role msg ≠ Db.user)
          then (error 400 "Only user messages can be edited", d)
          else if negb (Js.truthy (Js.trim (Js.or_empty content)))
          then (error 400 "Content required", d)
          else
            (* Delete this message and everything after it *)
            let d1 := Db.delete_messages_from (Db.conv_id conv) (Db.msg_created_at msg) d in
            let d2 := Db.touch_conversation now (Db.conv_id conv) d1 in
            (edited (Db.msg_created_at msg), d2)
      end
  end.

(** The answers of the other handlers: an error, or a JSON body
    ([{ ok: true }] is the body [()]). *)
Inductive answer (A : Type) :=
| failed (status : nat) (message : string)
| json (body : A).

Arguments failed {A} status message.
Arguments json {A} body.

(** GET /api/chats/:id: get single conversation with messages. *)
Definition get (userId id : nat) (d : Db.t)
  : answer (Db.conversation_row * list Db.message_row) :=
  match Db.get_conversation id userId d with
  | None => failed 404 "Not found"
  | Some conv => json (conv, Db.messages_of (Db.conv_id conv) d)
  end.

(** PATCH /api/chats/:id: rename conversation. *)
Definition rename (now userId id : nat) (title : option string) (d : Db.t)
  : answer unit * Db.t :=
  if negb (Js.truthy (Js.or_empty title)) then (failed 400 "Title required", d)
  else
    let '(changes, d') :=
      Db.rename_conversation now id userId (Js.trim (Js.or_empty title)) d in
    if changes =? 0 then (failed 404 "Not found", d') else (json (), d').

(** DELETE /api/chats/:id: delete conversation. *)
Definition remove (userId id : nat) (d : Db.t) : answer unit * Db.t :=
  let '(changes, d') := Db.delete_conversation id userId d in
  if changes =? 0 then (failed 404 "Not found", d') else (json (), d').

(** GET /api/chats/:id/messages: get messages for a conversation. *)
Definition get_messages (userId id : nat) (d : Db.t) : answer (list Db.message_row) :=
  match Db.get_conversation id userId d with
  | None => failed 404 "Not found"
  | Some conv => json (Db.messages_of (Db.conv_id conv) d)
  end.

End ChatsRoute.

(** ** Tool server routes ([routes/mcp.js]) *)

Module McpRoute.

Inductive answer (A : Type) :=
| failed (status : nat) (message : string)
| json (body : A).

Arguments failed {A} status message.
Arguments json {A} body.

Section Tools.

Variable URL_parse : string → option Mcp.url.
Variable JSON_envelope : string → Ai.exn + Mcp.envelope.
Variable fetch : Mcp.request → Mcp.fetch_result.

(** GET /api/mcp/:id/tools: test connection + list tools.  The body is
    [toolCount] and [tools]; [listTools] is called without credentials. *)
Definition tools (userId id : nat) (d : Db.t)
  : Mcp.M (answer (nat * list Mcp.mcp_tool)) :=
  match Db.get_server id userId d with
  | None => mret (failed 404 "Not found")
  | Some server =>
      Mcp.try_catch
        (tools ← Mcp.listTools URL_parse JSON_envelope fetch (Db.srv_url server) None;
         mret (json (length tools, tools)))
        (λ err, mret (failed 502 (Ai.message err)))
  end.

End Tools.

End McpRoute.

(** ** Settings routes ([routes/settings.js]) *)

Module SettingsRoute.

Definition ALLOWED_KEYS : list string :=
  ["model"; "provider"; "custom_instructions"; "memory_enabled"; "temperature";
   "system_prompt"; "stream_enabled"; "openai_api_key"; "auto_memory";
   "tavily_api_key"; "chat_mode"].

Definition DEFAULTS : gmap string string :=
  list_to_map
    [("model", "gpt-5-mini"); ("provider", "openai");
     ("custom_instructions", EmptyString); ("memory_enabled", "1");
     ("temperature", "0.7");
     ("system_prompt", "You are a helpful, harmless, and honest AI assistant.");
     ("stream_enabled", "1"); ("auto_memory", "1"); ("chat_mode", "normal")].

Definition MAX_LENGTHS : gmap string nat :=
  list_to_map
    [("custom_instructions", 4000); ("system_prompt", 4000); ("model", 64);
     ("provider", 64); ("chat_mode", 32)].

(** A field of the object sent to the client: a string or a boolean. *)
Inductive field := text (s : string) | flag (b : bool).

(** [!!(k && k.trim())] *)
Definition is_set (k : option string) : bool :=
  match k with
  | Some v => Js.truthy v && Js.truthy (Js.trim v)
  | None => false
  end.

(** Helper: strip raw keys from a settings object before sending to client *)
Definition maskSettings (merged : gmap string string) : gmap string field :=
  let openai_api_key_set := is_set (merged !! "openai_api_key") in
  let tavily_api_key_set := is_set (merged !! "tavily_api_key") in
  let out := delete "tavily_api_key" (delete "openai_api_key" merged) in
  <["tavily_api_key_set" := flag tavily_api_key_set]>
    (<["openai_api_key_set" := flag openai_api_key_set]> (text <$> out)).

(** [{ ...DEFAULTS, ...stored }] *)
Definition merged (stored : gmap string string) : gmap string string :=
  stored ∪ DEFAULTS.

(** GET /api/settings *)
Definition get (userId : nat) (d : Db.t) : gmap string field :=
  maskSettings (merged (Db.getUserSettings userId d)).

(** A value of the request body: [null] or undefined, or a value given by
    its [String(v)]. *)
Inductive body_value := null | value (String_v : string).

(** The body of the loop over [Object.entries(updates)]. *)
Definition apply_update (userId : nat) (d : Db.t) (kv : string * body_value) : Db.t :=
  let '(k, v) := kv in
  if negb (bool_decide (k ∈ ALLOWED_KEYS)) then d
  else
    let val := match v with null => EmptyString | value s => s end in
    match MAX_LENGTHS !! k with
    | Some max =>
        if (0 <? max) && (max <? Js.length val) then d   (* silently skip over-long values *)
        else Db.setSetting userId k val d
    | None => Db.setSetting userId k val d
    end.

Inductive reply :=
| error (status : nat) (message : string)
| json (settings : gmap string field).

(** PATCH /api/settings.  [updates] is [None] when the body is not an
    object. *)
Definition patch (userId : nat) (updates : option (list (string * body_value)))
    (d : Db.t) : reply * Db.t :=
  match updates with
  | None => (error 400 "Invalid body", d)
  | Some entries =>
      let d' := foldl (apply_update userId) d entries in
      (json (maskSettings (merged (Db.getUserSettings userId d'))), d')
  end.

End SettingsRoute.

(** ** The chat route ([routes/ai.js]) *)

Module AiRoute.

(** The events of the streaming wire protocol. *)
Inductive sse_event :=
| conv_id (conversationId : nat)
| delta (content : string)
| tool_call (name : string) (args : gmap string string)
| tool_result (name : string) (result : string)
| image_generated (data_url revised_prompt : string)
| research_start
| research_query (query : string)
| research_done (queryCount : nat)
| done
| error (message : string).

(** What the handler acts on while it answers: the database, the gateway's
    wire, the events written to the response, whether the response was
    ended, and the handler's own [fullResponse]. *)
Record session := {
  db : Db.t;
  net : Mcp.net;
  written : list sse_event;
  ended : bool;
  fullResponse : string;
}.

Definition set_db (d : Db.t) (s : session) : session :=
  {| db := d; net := net s; written := written s; ended := ended s;
     fullResponse := fullResponse s |}.

Definition set_net (n : Mcp.net) (s : session) : session :=
  {| db := db s; net := n; written := written s; ended := ended s;
     fullResponse := fullResponse s |}.

(** [sse(obj)]: one [res.write]. *)
Definition sse (ev : sse_event) (s : session) : session :=
  {| db := db s; net := net s; written := written s ++ [ev]; ended := ended s;
     fullResponse := fullResponse s |}.

(** [res.end()] *)
Definition res_end (s : session) : session :=
  {| db := db s; net := net s; written := written s; ended := true;
     fullResponse := fullResponse s |}.

Definition DEFAULTS : gmap string string :=
  list_to_map
    [("model", "gpt-5-mini"); ("provider", "openai"); ("temperature", "0.7");
     ("memory_enabled", "1"); ("auto_memory", "1"); ("chat_mode", "normal")].

Definition setting (cfg : gmap string string) (key : string) : string :=
  Js.or_empty (cfg !! key).

(** [(cfg.key || '').trim() || undefined] *)
Definition key_of (cfg : gmap string string) (key : string) : option string :=
  let k := Js.trim (setting cfg key) in
  if Js.truthy k then Some k else None.

Definition nl : string := Js.newline.

Definition buildSystemPrompt (settings : gmap string string)
    (memoryFacts : list Db.memory_row) (mode : string) : string :=
  let base := Js.or_else (setting settings "system_prompt")
                "You are a helpful, harmless, and honest AI assistant." in
  let instructions := Js.trim (setting settings "custom_instructions") in
  let memEnabled := bool_decide (settings !! "memory_enabled" ≠ Some "0") in
  let prompt := base in
  let prompt :=
    if bool_decide (mode = "deep_research")
    then prompt +:+ nl +:+ nl +:+ "You are in Deep Research mode. Comprehensive research has already been done for you and is provided below. Synthesize all sources into a thorough, well-structured answer. Cite sources inline as [1], [2], etc."
    else prompt in
  let prompt :=
    prompt +:+ nl +:+ nl +:+ "You have access to tools:" +:+ nl
    +:+ "- memory_save: Save important facts about the user. Use this proactively whenever the user shares personal information." +:+ nl
    +:+ "- memory_get: Recall stored facts about the user." +:+ nl
    +:+ "- web_search: Search the web (requires Tavily API key in settings)." +:+ nl
    +:+ "- generate_image: Generate an image from a text prompt using DALL-E. Use whenever the user asks you to create, draw, generate, or visualise an image." in
  let prompt :=
    if Js.truthy instructions
    then prompt +:+ nl +:+ nl +:+ "## Custom Instructions:" +:+ nl +:+ instructions
    else prompt in
  match memoryFacts with
  | _ :: _ =>
      if memEnabled then
        let factList := Js.join nl (map (λ f, "- " +:+ Db.mem_content f) memoryFacts) in
        prompt +:+ nl +:+ nl +:+ "## What you remember about the user:" +:+ nl
        +:+ factList +:+ nl +:+ nl +:+ "Use this naturally when relevant."
      else prompt
  | [] => prompt
  end.

Section Handler.

(** The platform and the outside world. *)
Variable JSON_parse : string → option (gmap string string).
Variable URL_parse : string → option Mcp.url.
Variable JSON_envelope : string → Ai.exn + Mcp.envelope.
Variable fetch : Mcp.request → Mcp.fetch_result.
Variable tavily_search : string → string → gmap string string → string.
Variable image_generate : string → string → gmap string string → string.

(** The provider: the streamed completions of the chat, and, for
    [extractMemories], the array of facts in its answer once parsed
    ([None] when the request or [JSON.parse] fails or the answer holds no
    array), given the known-facts list and the conversation text. *)
Variable provider : nat → Ai.params → Ai.completion.
Variable extraction : string → string → option (list string).

(** The deep-research stage, from the first query request to its end: the
    events it writes after [research_start] and the context it returns. *)
Variable research : string → string → list sse_event * string.

(** The clock, and the order in which the answers of the tool servers
    arrive during discovery (the [arrivals] of [Mcp.collectMCPTools]). *)
Variable now : nat.
Variable arrivals : list nat.

(** [extractMemories] of [services/ai.js]. *)
Definition extractMemories (provider_id : string) (apiKey : option string)
    (messages : list Ai.api_message) (existingFacts : list Db.memory_row)
  : list string :=
  if bool_decide (provider_id ≠ "openai") then []
  else
    match Ai.makeOpenAIClient apiKey with
    | inl _ => []            (* the promise rejects; the caller's [.catch] drops it *)
    | inr _ =>
        let knownList :=
          match existingFacts with
          | [] => "(none)"
          | _ => Js.join nl (map (λ f, "- " +:+ Db.mem_content f) existingFacts)
          end in
        let turns := filter (λ m, Ai.role_of m = Db.user ∨ Ai.role_of m = Db.assistant)
                            messages in
        let conversation :=
          Js.join nl
            (map (λ m, (if bool_decide (Ai.role_of m = Db.user) then "User" else "Assistant")
                       +:+ ": " +:+ Ai.content_of m)
                 (drop (length turns - 10) turns)) in
        if negb (Js.truthy (Js.trim conversation)) then []
        else match extraction knownList conversation with
             | Some facts => filter (λ f, Js.truthy (Js.trim f) = true) facts
             | None => []
             end
    end.

Definition is_builtin (name : string) : bool :=
  existsb (λ t, bool_decide (Tools.tool_name t = name)) Tools.BUILTIN_TOOLS.

(** Unified tool executor.  The content of a tool result is an array of
    blocks; a result with a content of another shape is outside the
    model. *)
Definition toolExecutor (toolContext : Tools.context)
    (mcpToolServerMap : gmap string Mcp.server_info)
    (name : string) (args : gmap string string) (s : session)
  : (Ai.exn + string) * session :=
  (* Built-in tools take priority *)
  if is_builtin name then
    let '(result, d) :=
      Tools.handleBuiltinTool tavily_search image_generate now name args toolContext (db s) in
    let s1 := set_db d s in
    if Js.startsWith result "IMAGE_GENERATED:" then
      let lines := Js.split_newline result in
      let dataUrl := Js.slice_from 16 (hd EmptyString lines) in
      let revisedPrompt :=
        Js.replace_first "Revised prompt: " EmptyString
          (default EmptyString (List.find (λ l, Js.startsWith l "Revised prompt:") lines)) in
      (inr ("Image generated successfully."
            +:+ (if Js.truthy revisedPrompt then " Revised prompt: " +:+ revisedPrompt
                 else EmptyString)
            +:+ " Let the user know the image is shown above."),
       sse (image_generated dataUrl revisedPrompt) s1)
    else (inr result, s1)
  else
    (* MCP tools *)
    match mcpToolServerMap !! name with
    | Some serverInfo =>
        match Mcp.callTool URL_parse JSON_envelope fetch (Mcp.info_url serverInfo) name args
                (Mcp.info_auth serverInfo) (net s) with
        | (inr contents, n) =>
            (inr (Js.join nl (map (λ c, if bool_decide (Mcp.cb_type c = "text")
                                        then Mcp.cb_text c else Mcp.cb_json c) contents)),
             set_net n s)
        | (inl e, n) => (inl e, set_net n s)
        end
    | None => (inr ("Tool " +:+ Js.quote +:+ name +:+ Js.quote +:+ " not found"), s)
    end.

(** The callbacks handed to [streamChat]. *)
Definition onChunk (d : string) (_ : gmap nat (list Ai.api_message)) (s : session)
  : session :=
  sse (delta d)
      {| db := db s; net := net s; written := written s; ended := ended s;
         fullResponse := fullResponse s +:+ d |}.

Definition onToolCall (name : string) (args : gmap string string)
    (_ : gmap nat (list Ai.api_message)) (s : session) : session :=
  sse (tool_call name args) s.

Definition onToolResult (name result : string)
    (_ : gmap nat (list Ai.api_message)) (s : session) : session :=
  sse (tool_result name (Js.slice_to 600 result)) s.

Definition onDone (cfg : gmap string string) (userId convId apiMessages : nat)
    (userApiKey : option string) (memory : list Db.memory_row)
    (_ : string) (h : gmap nat (list Ai.api_message)) (s : session) : session :=
  let s1 := set_db (Db.touch_conversation now convId
                      (Db.insert_message now convId Db.assistant (fullResponse s) (db s))) s in
  let s2 := res_end (sse done s1) in
  (* Background auto-memory extraction *)
  if bool_decide (cfg !! "auto_memory" ≠ Some "0") && Js.truthy (Js.trim (fullResponse s))
  then
    let allMsgs := Ai.read apiMessages h ++ [Ai.plain Db.assistant (fullResponse s)] in
    let newFacts := extractMemories (setting cfg "provider") userApiKey allMsgs memory in
    set_db (foldl (λ d f, Db.insert_memory now userId f d) (db s2) newFacts) s2
  else s2.

Definition onError (err : Ai.exn) (_ : gmap nat (list Ai.api_message)) (s : session)
  : session :=
  res_end (sse (error (Js.or_else (Ai.message err) "AI error")) s).

Definition reasoningEffort (mode : string) : string :=
  if bool_decide (mode = "deep_research") then "high"
  else if bool_decide (mode = "thinking") then "high" else "low".

(** The options the handler passes to [streamChat]. *)
Definition chat_options (cfg : gmap string string) (userId convId : nat) (mode : string)
    (userApiKey : option string) (toolContext : Tools.context)
    (memory : list Db.memory_row) (allTools : list Tools.tool_def)
    (mcpToolServerMap : gmap string Mcp.server_info) (apiMessages : nat)
  : Ai.options (Σ := session) :=
  {| Ai.provider_id := cfg !! "provider";
     Ai.messages := apiMessages;
     Ai.model := setting cfg "model";
     Ai.temperature := None;
     Ai.tools := Some allTools;
     Ai.toolExecutor := Some (toolExecutor toolContext mcpToolServerMap);
     Ai.apiKey := userApiKey;
     Ai.reasoningEffort := Some (reasoningEffort mode);
     Ai.onChunk := onChunk;
     Ai.onToolCall := Some onToolCall;
     Ai.onToolResult := Some onToolResult;
     Ai.onDone := onDone cfg userId convId apiMessages userApiKey memory;
     Ai.onError := onError |}.

(** The call of [streamChat] that ends the handler. *)
Definition respond (cfg : gmap string string) (userId convId : nat) (mode : string)
    (userApiKey : option string) (toolContext : Tools.context)
    (memory : list Db.memory_row) (allTools : list Tools.tool_def)
    (mcpToolServerMap : gmap string Mcp.server_info)
    (apiMessages : nat) (h : gmap nat (list Ai.api_message)) (s : session)
  : Ai.exn + Ai.state :=
  Ai.streamChat JSON_parse provider
    (chat_options cfg userId convId mode userApiKey toolContext memory allTools
       mcpToolServerMap apiMessages)
    h s.

Record request := {
  userId : nat;
  conversationId : option nat;
  message : option string;
  reqMode : option string;
}.

Inductive reply :=
| refused (status : nat) (message : string) (d : Db.t)
| streamed (r : Ai.exn + Ai.state (Σ := session)).

(** POST /api/ai/chat, for a request without attachments.  The detached
    auto-titling task is left out. *)
Definition chat (req : request) (d : Db.t) (n : Mcp.net) : reply :=
  let msg := Js.or_empty (message req) in
  if negb (Js.truthy (Js.trim msg)) then refused 400 "Message required" d
  else
    let conv :=
      match conversationId req with
      | Some id => (λ c, (c, d)) <$> Db.get_conversation id (userId req) d
      | None => Some (Db.insert_conversation now (userId req) "New Chat" d)
      end in
    match conv with
    | None => refused 404 "Conversation not found" d
    | Some (conv, d1) =>
        let settings := Db.getUserSettings (userId req) d1 in
        let cfg := settings ∪ DEFAULTS in
        let userApiKey := key_of cfg "openai_api_key" in
        let tavilyKey := key_of cfg "tavily_api_key" in
        let mode := Js.or_else (Js.or_empty (reqMode req))
                      (Js.or_else (setting cfg "chat_mode") "normal") in
        if negb (Ai.isProviderAvailable (setting cfg "provider") userApiKey)
        then refused 503 "No API key configured. Add one in Settings → Model." d1
        else
          let memory := Db.getUserMemory (userId req) d1 in
          let mcpServers := Db.getUserMCPServers (userId req) d1 in
          let '(found, n1) :=
            match mcpServers with
            | [] => (None, n)
            | _ => match Mcp.collectMCPTools URL_parse JSON_envelope JSON_parse fetch
                           mcpServers arrivals n with
                   | (inr c, n') => (Some c, n')
                   | (inl _, n') => (None, n')
                   end
            end in
          let allTools := Tools.BUILTIN_TOOLS ++ default [] (Mcp.openaiTools <$> found) in
          let mcpToolServerMap := default ∅ (Mcp.toolServerMap <$> found) in
          let toolContext := {| Tools.userId := userId req; Tools.tavilyKey := tavilyKey;
                                Tools.apiKey := userApiKey |} in
          let history := Db.recent_messages (Db.conv_id conv) d1 in
          let d2 := Db.touch_conversation now (Db.conv_id conv)
                      (Db.insert_message now (Db.conv_id conv) Db.user (Js.trim msg) d1) in
          let s0 := sse (conv_id (Db.conv_id conv))
                      {| db := d2; net := n1; written := []; ended := false;
                         fullResponse := EmptyString |} in
          let '(s1, extraContext) :=
            match tavilyKey with
            | Some key =>
                if bool_decide (mode = "deep_research") then
                  let '(evs, ctx) := research msg key in
                  (foldl (λ s ev, sse ev s) (sse research_start s0) evs, ctx)
                else (s0, EmptyString)
            | None => (s0, EmptyString)
            end in
          let systemPrompt := buildSystemPrompt cfg memory mode in
          let apiMessages :=
            [Ai.plain Db.system systemPrompt]
            ++ (if Js.truthy extraContext
                then [Ai.plain Db.system
                        ("## Web Research Results (use these to answer):" +:+ nl +:+ nl
                         +:+ extraContext)]
                else [])
            ++ map (λ m, Ai.plain (Db.msg_role m) (Db.msg_content m)) history
            ++ [Ai.plain Db.user (Js.trim msg)] in
          let '(loc, h) := Ai.alloc ∅ apiMessages in
          streamed (respond cfg (userId req) (Db.conv_id conv) mode userApiKey toolContext
                      memory allTools mcpToolServerMap loc h s1)
    end.

End Handler.

(** The deep-research stage of the handler, from the first query request
    to its end: the events written after [research_start], and the context
    handed to the provider ([extraContext], empty when the stage fails: an
    exception of any step ends the stage in its [catch]). *)
Section DeepResearch.

(** A completion of the model without streaming, by system prompt and user
    content: the content of its first choice, or the exception. *)
Variable completion : string → string → Ai.exn + option string.

(** [JSON.parse(text).queries]: the exception, or the array if it is one. *)
Variable JSON_queries : string → Ai.exn + option (list string).

Variable tavily : string → string → Tools.search_answer.

Definition QUERIES_PROMPT : string :=
  "Generate 3-4 specific web search queries to thoroughly research this question. Return JSON: {"
  +:+ Js.quote +:+ "queries" +:+ Js.quote +:+ ": ["
  +:+ Js.quote +:+ "q1" +:+ Js.quote +:+ ","
  +:+ Js.quote +:+ "q2" +:+ Js.quote +:+ ","
  +:+ Js.quote +:+ "q3" +:+ Js.quote +:+ "]}".

Definition GAPS_PROMPT : string :=
  "Given the original question and initial research results, identify what is still missing or unclear. Generate 1-2 targeted follow-up search queries to fill the gaps. If coverage is already sufficient, return an empty list. Return JSON: {"
  +:+ Js.quote +:+ "queries" +:+ Js.quote +:+ ": []}".

(** [JSON.parse(resp.choices[0]?.message?.content || '{}').queries] *)
Definition queries_of (content : option string) : Ai.exn + option (list string) :=
  JSON_queries (Js.or_else (Js.or_empty content) "{}").

Definition deep_research (message tavilyKey : string) : list sse_event * string :=
  (* Step 1: Generate initial search queries *)
  match completion QUERIES_PROMPT (Js.slice_to 1000 message) with
  | inl _ => ([], EmptyString)
  | inr q1Resp =>
      match queries_of q1Resp with
      | inl _ => ([], EmptyString)
      | inr q1Parsed =>
          let initialQueries :=
            match q1Parsed with Some qs => take 4 qs | None => [message] end in
          let written1 := map research_query initialQueries in
          (* Step 2: Run initial searches in parallel *)
          match Tools.runDeepResearch tavily initialQueries (Some tavilyKey) with
          | None => (written1, EmptyString)
          | Some round1 =>
              (* Step 3: Reason about gaps, generate follow-up queries *)
              match completion GAPS_PROMPT
                      ("Question: " +:+ message +:+ nl +:+ nl +:+ "Initial research:" +:+ nl
                       +:+ Js.slice_to 3000 round1) with
              | inl _ => (written1, EmptyString)
              | inr gapResp =>
                  match queries_of gapResp with
                  | inl _ => (written1, EmptyString)
                  | inr gapParsed =>
                      let followUpQueries :=
                        match gapParsed with Some qs => take 2 qs | None => [] end in
                      let finish (written2 : list sse_event) (round2 : string) :=
                        (written1 ++ written2
                         ++ [research_done (length initialQueries + length followUpQueries)],
                         round1 +:+ (if Js.truthy round2
                                     then nl +:+ nl +:+ "---" +:+ nl +:+ nl +:+ round2
                                     else EmptyString)) in
                      match followUpQueries with
                      | [] => finish [] EmptyString
                      | _ =>
                          let written2 := map research_query followUpQueries in
                          match Tools.runDeepResearch tavily followUpQueries
                                  (Some tavilyKey) with
                          | None => (written1 ++ written2, EmptyString)
                          | Some round2 => finish written2 round2
                          end
                      end
                  end
              end
          end
      end
  end.

End DeepResearch.

End AiRoute.

(** ** Concrete inputs

    A small platform and a few database states, for the examples, the
    witnesses and the counterexamples below. *)

Module Demo.

Definition until_delim (s : string) : string :=
  (fix go (s : string) : string :=
     match s with
     | EmptyString => EmptyString
     | String c s' =>
         if bool_decide (c = "/"%char) || bool_decide (c = ":"%char)
            || bool_decide (c = "?"%char) || bool_decide (c = "#"%char)
         then EmptyString else String c (go s')
     end) s.

Definition through_bracket (s : string) : string :=
  (fix go (s : string) : string :=
     match s with
     | EmptyString => EmptyString
     | String c s' =>
         if bool_decide (c = "]"%char) then String c EmptyString else String c (go s')
     end) s.

(** The host at the head of [host...].  An IPv6 literal comes in brackets
    and keeps them, as in the [hostname] of the platform's [URL]. *)
Definition host_text (s : string) : string :=
  if String.prefix "[" s then through_bracket s else until_delim s.

(** A URL parser for inputs of the shape [scheme://host...], with IPv6
    literals in their canonical form; every other input is refused. *)
Fixpoint URL_parse_from (scheme : string) (s : string) : option Mcp.url :=
  match s with
  | EmptyString => None
  | String c s' =>
      if String.prefix "://" s
      then match scheme with
           | EmptyString => None
           | _ => Some {| Mcp.protocol := Js.toLowerCase scheme +:+ ":";
                          Mcp.hostname := Js.toLowerCase (host_text (Js.slice_from 3 s)) |}
           end
      else URL_parse_from (scheme +:+ String c EmptyString) s'
  end.

Definition URL_parse (raw : string) : option Mcp.url := URL_parse_from EmptyString raw.

(** The one argument text of the examples, with its double quotes. *)
Definition berlin_json : string :=
  "{" +:+ Js.quote +:+ "fact" +:+ Js.quote +:+ ":" +:+ Js.quote +:+ "Lives in Berlin"
  +:+ Js.quote +:+ "}".

(** A JSON parser that knows two texts, the empty object and
    [berlin_json], and throws on every other. *)
Definition JSON_parse (text : string) : option (gmap string string) :=
  if bool_decide (text = berlin_json)
  then Some {[ "fact" := "Lives in Berlin" ]}
  else if bool_decide (text = "{}") then Some ∅ else None.

Definition no_search (_ _ : string) (_ : gmap string string) : string := "No results found.".
Definition no_image (_ _ : string) (_ : gmap string string) : string :=
  "Image generation returned no data.".
Definition no_research (_ _ : string) : list AiRoute.sse_event * string := ([], EmptyString).

(** User 1 with one conversation, a key, and one fact. *)
Definition berlin : Db.t :=
  Db.insert_memory 100 1 "Lives in Berlin"
    (Db.setSetting 1 "openai_api_key" "sk-test"
       (snd (Db.insert_conversation 100 1 "New Chat" Db.empty))).

(** User 1 holding [k] facts, all different. *)
Definition with_facts (k : nat) : Db.t :=
  foldl (λ d i, Db.insert_memory 100 1 ("fact " +:+ pretty i) d) Db.empty (seq 0 k).

Definition ctx1 : Tools.context :=
  {| Tools.userId := 1; Tools.tavilyKey := None; Tools.apiKey := Some "sk-test" |}.

Definition text_chunk (d : string) : option Ai.choice :=
  Some {| Ai.delta_content := Some d; Ai.delta_tool_calls := None;
          Ai.finish_reason := None |}.

Definition finish (reason : string) : option Ai.choice :=
  Some {| Ai.delta_content := None; Ai.delta_tool_calls := None;
          Ai.finish_reason := Some reason |}.

Definition call_chunk (i : nat) (call_id name args : string) : option Ai.choice :=
  Some {| Ai.delta_content := None;
          Ai.delta_tool_calls :=
            Some [{| Ai.index := i; Ai.id := Some call_id;
                     Ai.function_name := Some name;
                     Ai.function_arguments := Some args |}];
          Ai.finish_reason := None |}.

(** A provider that answers every request with the same short text. *)
Definition says (reply : string) (_ : nat) (_ : Ai.params) : Ai.completion :=
  Ai.stream [text_chunk reply; finish "stop"] Ai.closed.

(** A provider that asks for the same tool call in every round. *)
Definition always_calls (_ : nat) (_ : Ai.params) : Ai.completion :=
  Ai.stream [call_chunk 0 "call_1" "memory_get" "{}"; finish "tool_calls"] Ai.closed.

(** A provider whose stream breaks after its first piece of text. *)
Definition breaks_with (e : Ai.exn) (_ : nat) (_ : Ai.params) : Ai.completion :=
  Ai.stream [text_chunk "Hel"] (Ai.thrown e).

Definition no_fetch (_ : Mcp.request) : Mcp.fetch_result :=
  Mcp.network_error (Ai.Error "fetch failed").

Definition SyntaxError : Ai.exn :=
  {| Ai.name := "SyntaxError"; Ai.message := "Unexpected end of JSON input" |}.

Definition no_envelope (_ : string) : Ai.exn + Mcp.envelope := inl SyntaxError.

(** User 1 at the cap of 500 facts, with a conversation and a key. *)
Definition at_cap : Db.t :=
  Db.setSetting 1 "openai_api_key" "sk-test"
    (snd (Db.insert_conversation 100 1 "New Chat" (with_facts 500))).

(** One conversation of user 1: a question, its answer completed at time
    103, and a second question sent within the same second. *)
Definition thread : Db.t :=
  Db.insert_message 103 1 Db.user "second"
    (Db.insert_message 103 1 Db.assistant "reply"
       (Db.insert_message 100 1 Db.user "first"
          (snd (Db.insert_conversation 100 1 "New Chat" Db.empty)))).

Definition hello : AiRoute.request :=
  {| AiRoute.userId := 1; AiRoute.conversationId := Some 1;
     AiRoute.message := Some "hi"; AiRoute.reqMode := None |}.

(** The chat handler on the small platform, without tool servers. *)
Definition chat (provider : nat → Ai.params → Ai.completion)
    (extraction : string → string → option (list string))
    (req : AiRoute.request) (d : Db.t) : AiRoute.reply :=
  AiRoute.chat JSON_parse URL_parse no_envelope no_fetch no_search no_image
    provider extraction no_research 200 [] req d Mcp.boot.

(** The session a streamed reply ends in. *)
Definition session_of (r : AiRoute.reply) : option AiRoute.session :=
  match r with
  | AiRoute.streamed (inr st) => Some (Ai.caller st)
  | _ => None
  end.

(** An adapter call with the built-in tool catalogue and a caller without
    state: every tool answers "ok".  The caller's array is at address 0. *)
Definition plain_options : Ai.options (Σ := unit) :=
  {| Ai.provider_id := None; Ai.messages := 0; Ai.model := "gpt-5-mini";
     Ai.temperature := None; Ai.tools := Some Tools.BUILTIN_TOOLS;
     Ai.toolExecutor := Some (λ _ _ σ, (inr "ok", σ));
     Ai.apiKey := Some "sk-test"; Ai.reasoningEffort := Some "low";
     Ai.onChunk := λ _ _ σ, σ; Ai.onToolCall := None; Ai.onToolResult := None;
     Ai.onDone := λ _ _ σ, σ; Ai.onError := λ _ _ σ, σ |}.

Definition question : list Ai.api_message :=
  [Ai.plain Db.system "You are a helpful assistant."; Ai.plain Db.user "hi"].

Definition store : gmap nat (list Ai.api_message) := {[ 0 := question ]}.

(** A chat that is cancelled in its second round: the first round asks for
    [memory_save], the second streams some text and is aborted. *)
Definition cancelled_in_round_two (rnd : nat) (_ : Ai.params) : Ai.completion :=
  match rnd with
  | 0 => Ai.stream [text_chunk "One moment. ";
                    call_chunk 0 "call_1" "memory_save" berlin_json;
                    finish "tool_calls"] Ai.closed
  | _ => Ai.stream [text_chunk "I have no"] (Ai.thrown (Ai.AbortError "Request was aborted."))
  end.

(** The session of a handler that has saved the question "hi" and is about
    to call [streamChat]. *)
Definition asked : AiRoute.session :=
  {| AiRoute.db := Db.insert_message 200 1 Db.user "hi" berlin; AiRoute.net := Mcp.boot;
     AiRoute.written := [AiRoute.conv_id 1]; AiRoute.ended := false;
     AiRoute.fullResponse := EmptyString |}.

(** Two tool servers that both offer a tool named [search].  The network
    answers every request with a JSON body naming the method and the
    server, which [JSON_envelope] decodes. *)
Definition server (i : nat) (url : string) : Db.mcp_server_row :=
  {| Db.srv_id := i; Db.srv_user_id := 1; Db.srv_name := url; Db.srv_url := url;
     Db.srv_enabled := true; Db.srv_created_at := 100 + i;
     Db.srv_auth_type := Some "none"; Db.srv_auth_data := None |}.

Definition alpha : Db.mcp_server_row := server 1 "https://alpha.example/mcp".
Definition beta : Db.mcp_server_row := server 2 "https://beta.example/mcp".

Definition echo_fetch (r : Mcp.request) : Mcp.fetch_result :=
  Mcp.responded {| Mcp.ok := true; Mcp.status := 200;
                   Mcp.content_type := Some "application/json";
                   Mcp.body := [Mcp.req_method r; "@"; Mcp.req_url r] |}.

Definition answer (tools : option (list Mcp.mcp_tool))
    (content : option (list Mcp.content_block)) : Ai.exn + Mcp.envelope :=
  inr {| Mcp.env_error := None;
          Mcp.env_result := Some {| Mcp.res_tools := tools; Mcp.res_content := content;
                                    Mcp.res_json := "{}" |} |}.

Definition echo_envelope (text : string) : Ai.exn + Mcp.envelope :=
  if String.prefix "tools/list@" text
  then answer (Some [{| Mcp.tool_name := "search"; Mcp.tool_description := None |}]) None
  else if String.prefix "tools/call@" text
  then answer None (Some [{| Mcp.cb_type := "text";
                             Mcp.cb_text := "results from " +:+ Js.slice_from 11 text;
                             Mcp.cb_json := EmptyString |}])
  else answer None None.

(** Discovery over [alpha; beta], their answers arriving in the order
    [arrivals]. *)
Definition discovered (arrivals : list nat) : option Mcp.catalog :=
  match Mcp.collectMCPTools URL_parse echo_envelope JSON_parse echo_fetch
          [alpha; beta] arrivals Mcp.boot with
  | (inr c, _) => Some c
  | _ => None
  end.

(** What each of the two servers lists when it is asked alone. *)
Definition listings : list (Db.mcp_server_row * list Mcp.mcp_tool) :=
  map (λ srv, (srv, match Mcp.listTools URL_parse echo_envelope echo_fetch (Db.srv_url srv)
                            (Mcp.buildAuth JSON_parse srv) Mcp.boot with
                    | (inr tools, _) => tools
                    | _ => []
                    end))
      [alpha; beta].

(** The state after a call under [always_calls]. *)
Definition ten_rounds : Ai.state (Σ := unit) :=
  match Ai.streamChat JSON_parse always_calls plain_options store () with
  | inr s => s
  | inl _ => Ai.init store ()
  end.

End Demo.

(** ** Vocabulary of the statements *)

Module Secrets.

(** Two stored settings objects that agree on every key but the two API
    keys, each API key being set in both or in neither. *)
Definition same_but_keys (s1 s2 : gmap string string) : Prop :=
  delete "tavily_api_key" (delete "openai_api_key" s1)
  = delete "tavily_api_key" (delete "openai_api_key" s2)
  ∧ SettingsRoute.is_set (s1 !! "openai_api_key") = SettingsRoute.is_set (s2 !! "openai_api_key")
  ∧ SettingsRoute.is_set (s1 !! "tavily_api_key") = SettingsRoute.is_set (s2 !! "tavily_api_key").

(** The same account with two different pairs of keys. *)
Definition account (openai tavily : string) : Db.t :=
  Db.setSetting 1 "tavily_api_key" tavily
    (Db.setSetting 1 "openai_api_key" openai
       (Db.setSetting 1 "model" "gpt-5" Db.empty)).

End Secrets.

(** The moves of the adapter between two rounds of bookkeeping: everything
    [streamOpenAI] does to its state before the final callback.  [msgsCopy]
    is the array the adapter appends to. *)
Module Trace.

Section Steps.

Context {Σ : Type}.
Variable o : Ai.options (Σ := Σ).
Variable msgsCopy : nat.

Inductive step : Ai.state (Σ := Σ) → Ai.state (Σ := Σ) → Prop :=
| request s p :
    step s {| Ai.heap := Ai.heap s; Ai.caller := Ai.caller s;
              Ai.fullResponse := Ai.fullResponse s;
              Ai.requests := Ai.requests s ++ [p]; Ai.emitted := Ai.emitted s |}
| chunk s d :
    step s (Ai.call (Ai.Chunk d) (Ai.onChunk o d)
              {| Ai.heap := Ai.heap s; Ai.caller := Ai.caller s;
                 Ai.fullResponse := Ai.fullResponse s +:+ d;
                 Ai.requests := Ai.requests s; Ai.emitted := Ai.emitted s |})
| announce s f name args :
    Ai.onToolCall o = Some f →
    step s (Ai.call (Ai.ToolCall name args) (f name args) s)
| execute s exec name args r σ :
    Ai.toolExecutor o = Some exec →
    exec name args (Ai.caller s) = (r, σ) →
    step s {| Ai.heap := Ai.heap s; Ai.caller := σ;
              Ai.fullResponse := Ai.fullResponse s;
              Ai.requests := Ai.requests s; Ai.emitted := Ai.emitted s |}
| report s f name text :
    Ai.onToolResult o = Some f →
    step s (Ai.call (Ai.ToolResult name text) (f name text) s)
| append s m :
    step s (Ai.set_heap s (Ai.push msgsCopy m (Ai.heap s))).

Definition steps := rtc step.

End Steps.

(** The events that end a reply. *)
Definition terminal (ev : Ai.event) : Prop :=
  match ev with
  | Ai.Done _ | Ai.Failed _ => True
  | _ => False
  end.

(** The exception a completion fails with, if it does. *)
Definition failure (c : Ai.completion) : option Ai.exn :=
  match c with
  | Ai.rejected e => Some e
  | Ai.stream _ (Ai.thrown e) => Some e
  | Ai.stream _ Ai.closed => None
  end.

(** The claim that every run ends by the completion callback within the
    round bound, as a predicate on the result of the adapter. *)
Definition completes {Σ : Type} (r : Ai.exn + Ai.state (Σ := Σ)) : Prop :=
  ∃ s, r = inr s
       ∧ length (Ai.requests s) ≤ Ai.MAX_ROUNDS
       ∧ ∃ text, last (Ai.emitted s) = Some (Ai.Done text).

(** The exception that the [catch] clause of [streamOpenAI] receives, when
    the loop is left by one. *)
Definition caught {Σ : Type} (JSON_parse : string → option (gmap string string))
    (provider : nat → Ai.params → Ai.completion) (o : Ai.options (Σ := Σ))
    (h : gmap nat (list Ai.api_message)) (σ : Σ) : option Ai.exn :=
  match Ai.makeOpenAIClient (Ai.apiKey o), h !! Ai.messages o with
  | inr _, Some msgs =>
      let '(msgsCopy, h') := Ai.alloc h msgs in
      match Ai.rounds JSON_parse provider o msgsCopy Ai.MAX_ROUNDS 0 (Ai.init h' σ) with
      | (_, Ai.raised e) => Some e
      | _ => None
      end
  | _, _ => None
  end.

End Trace.

(** What a cancelled chat leaves behind. *)
Module Cancel.



(** The events written while the provider is streaming. *)
Definition streaming (ev : AiRoute.sse_event) : Prop :=
  match ev with
  | AiRoute.delta _ | AiRoute.tool_call _ _ | AiRoute.tool_result _ _
  | AiRoute.image_generated _ _ => True
  | _ => False
  end.


(** While the provider streams, the handler leaves the messages table and the
    open response as they are and writes streaming events only. *)
Definition streaming_from (s0 σ : AiRoute.session) : Prop :=
  Db.messages (AiRoute.db σ) = Db.messages (AiRoute.db s0)
  ∧ Db.seq_messages (AiRoute.db σ) = Db.seq_messages (AiRoute.db s0)
  ∧ AiRoute.ended σ = AiRoute.ended s0
  ∧ ∃ evs, AiRoute.written σ = AiRoute.written s0 ++ evs ∧ Forall Cancel.streaming evs.

End Cancel.

(** Host names that the security contract of the gateway refuses, in its
    words: loopback, the RFC 1918 private ranges, link-local, and the IPv6
    loopback, unique-local and link-local prefixes, read off the text of the
    host name. *)
Module Ssrf.

Definition digit (n : nat) : string := String (ascii_of_nat (48 + n)) EmptyString.

Inductive private_pattern : string → Prop :=
| loopback_v4 rest : private_pattern ("127." +:+ rest)
| private_10 rest : private_pattern ("10." +:+ rest)
| private_172 a b rest :
    a < 10 → b < 10 → 16 ≤ 10 * a + b ≤ 31 →
    private_pattern ("172." +:+ digit a +:+ digit b +:+ "." +:+ rest)
| private_192_168 rest : private_pattern ("192.168." +:+ rest)
| link_local_v4 rest : private_pattern ("169.254." +:+ rest)
| loopback_v6 rest : private_pattern ("::1" +:+ rest)
| unique_local_fc rest : private_pattern ("fc" +:+ rest)
| unique_local_fd rest : private_pattern ("fd" +:+ rest)
| link_local_v6 rest : private_pattern ("fe80" +:+ rest).

(** Letters count without their case. *)
Definition refused_host (host : string) : Prop :=
  private_pattern (Js.toLowerCase host) ∨ host = "localhost".

(** A URL that is not an absolute http or https URL, or whose host is
    refused. *)
Definition refused_url (URL_parse : string → option Mcp.url) (rawUrl : string) : Prop :=
  match URL_parse rawUrl with
  | None => True
  | Some u =>
      (Mcp.protocol u ≠ "http:" ∧ Mcp.protocol u ≠ "https:") ∨ refused_host (Mcp.hostname u)
  end.

Definition descriptive : list Ai.exn :=
  [Ai.Error "Invalid MCP server URL";
   Ai.Error "MCP server URL must use http or https";
   Ai.Error "MCP server URL must not point to a private or loopback address"].

End Ssrf.

(** Name collisions between tool servers. *)
Module Collision.

Definition lists (name : string) (tools : list Mcp.mcp_tool) : bool :=
  existsb (λ t, bool_decide (Mcp.tool_name t = name)) tools.

(** The server that the claim gives [name] to: the first, in the order of
    enumeration, whose listing has a tool of that name. *)
Fixpoint first_offer (JSON_parse : string → option (gmap string string)) (name : string)
    (offers : list (Db.mcp_server_row * list Mcp.mcp_tool)) : option Mcp.server_info :=
  match offers with
  | [] => None
  | (srv, tools) :: rest =>
      if lists name tools
      then Some {| Mcp.info_url := Db.srv_url srv;
                   Mcp.info_auth := Mcp.buildAuth JSON_parse srv |}
      else first_offer JSON_parse name rest
  end.

(** The entries of a catalogue that offer [name]. *)
Definition entries_named (name : string) (tools : list Tools.tool_def) : list Tools.tool_def :=
  filter (λ t, Tools.tool_name t = name) tools.

(** The claim that the server enumerated first keeps the name, whatever the
    order in which the answers arrive. *)
Definition first_enumerated_wins (JSON_parse : string → option (gmap string string))
    (offers : list (Db.mcp_server_row * list Mcp.mcp_tool)) (c : Mcp.catalog) : Prop :=
  ∀ name, Mcp.toolServerMap c !! name = first_offer JSON_parse name offers.

End Collision.

(** Sequences of requests to the memory handlers. *)
Module MemoryOps.

(** A request to one of the handlers of [routes/memory.js] that write. *)
Inductive call :=
| POST (content : option string)
| PATCH (id : nat) (content : option string)
| DELETE (id : nat)
| DELETE_all.

(** The database after a request of [userId] at time [now]. *)
Definition serve (userId : nat) (d : Db.t) (c : nat * call) : Db.t :=
  match c with
  | (now, POST content) => (MemoryRoute.post now userId content d).2
  | (now, PATCH id content) => (MemoryRoute.patch now userId id content d).2
  | (_, DELETE id) => (MemoryRoute.remove userId id d).2
  | (_, DELETE_all) => (MemoryRoute.clear userId d).2
  end.

(** A fact as the handlers accept it: not empty, and of 1000 UTF-16 code
    units at most. *)
Definition accepted (r : Db.memory_row) : Prop :=
  Js.truthy (Db.mem_content r) = true
  ∧ Js.length (Db.mem_content r) ≤ MemoryRoute.MAX_FACT_LENGTH.

Definition facts_of (userId : nat) (d : Db.t) : list Db.memory_row :=
  filter (λ r, Db.mem_user_id r = userId) (Db.memory d).

End MemoryOps.

(** Updates of the settings. *)
Module Updates.

(** What an update may write: allowed keys of the caller, within the
    length bounds, which count UTF-16 code units. *)
Definition writes_within (uid : nat) (d d' : Db.t) : Prop :=
  (∀ k, k ∉ SettingsRoute.ALLOWED_KEYS →
        Db.getUserSettings uid d' !! k = Db.getUserSettings uid d !! k)
  ∧ (∀ other, other ≠ uid → Db.getUserSettings other d' = Db.getUserSettings other d)
  ∧ (∀ k max v, SettingsRoute.MAX_LENGTHS !! k = Some max →
                Db.getUserSettings uid d' !! k = Some v →
                Js.length v ≤ max ∨ Db.getUserSettings uid d !! k = Some v)
  ∧ Db.memory d' = Db.memory d
  ∧ Db.messages d' = Db.messages d
  ∧ Db.conversations d' = Db.conversations d.

End Updates.

(** The fragments of streamed tool calls. *)
Module Fragments.



End Fragments.

(** The turns and the callbacks of a round of the adapter. *)
Module Turns.

(** The text that the [Chunk] callbacks of a run of events carry. *)
Definition text_of (evs : list Ai.event) : string :=
  foldr (λ ev acc, match ev with Ai.Chunk d => d +:+ acc | _ => acc end) EmptyString evs.

Definition is_chunk (ev : Ai.event) : Prop :=
  match ev with Ai.Chunk d => Js.truthy d = true | _ => False end.





Section Announced.

Context {Σ : Type}.
Variable JSON_parse : string → option (gmap string string).
Variable o : Ai.options (Σ := Σ).


(** The callbacks around the execution of one tool call that answers
    [text], for the callbacks that the caller gave. *)
Definition announced (tc : Ai.tool_call) (text : string) : list Ai.event :=
  match Ai.onToolCall o with
  | Some _ => [Ai.ToolCall (Ai.tc_name tc)
                 (default ∅ (JSON_parse (Js.or_else (Ai.tc_args tc) "{}")))]
  | None => []
  end
  ++ match Ai.onToolResult o with
     | Some _ => [Ai.ToolResult (Ai.tc_name tc) text]
     | None => []
     end.

(** The turns that a tool round appends: the assistant turn with its
    calls, and the answer to each call under the call's id. *)
Definition tool_turns (content : option string) (calls : list Ai.tool_call)
    (results : list string) : list Ai.api_message :=
  Ai.assistant_calls content calls
  :: zip_with Ai.tool_result (map Ai.tc_id calls) results.

End Announced.

(** The turns of a tool round, for some content, calls and answers. *)
Definition tool_round (turns : list Ai.api_message) : Prop :=
  ∃ content calls results,
    length results = length calls ∧ turns = tool_turns content calls results.

End Turns.

(** Event streams. *)
Module Sse.

(** The body of a response, whatever the pieces it arrives in. *)
Definition whole (chunks : list string) : string :=
  foldr (λ piece rest, piece +:+ rest) EmptyString chunks.

End Sse.

(** The requests that the gateway puts on the wire. *)
Module Wire.

(** What one stretch of the gateway between two suspensions adds to the
    wire: the requests [reqs], under the next ids of the counter. *)
Definition sent (n n' : Mcp.net) (reqs : list Mcp.request) : Prop :=
  Mcp.wire n' = Mcp.wire n ++ reqs
  ∧ map Mcp.req_id reqs = seq (Mcp.reqId n) (length reqs)
  ∧ Mcp.reqId n' = Mcp.reqId n + length reqs.

(** The request of one JSON-RPC method to a server. *)
Definition rpc (serverUrl : string) (a : option Mcp.auth) (i : nat) (method : string)
    (params : Mcp.rpc_params) : Mcp.request :=
  {| Mcp.req_url := serverUrl; Mcp.req_authorization := Mcp.authorization a;
     Mcp.req_id := i; Mcp.req_method := method; Mcp.req_params := params |}.

(** The requests of a session with a server: [initialize] and, under a
    later id, the method; or the part of them that was sent. *)
Definition session (serverUrl : string) (a : option Mcp.auth) (method : string)
    (params : Mcp.rpc_params) (reqs : list Mcp.request) : Prop :=
  ∃ i j, i < j
         ∧ reqs `prefix_of` [rpc serverUrl a i "initialize" Mcp.initialize_params;
                             rpc serverUrl a j method params].

(** The sessions of a discovery, one for each server, in the order of the
    servers. *)
Definition discovery (JSON_parse : string → option (gmap string string))
    (servers : list Db.mcp_server_row) (sessions : list (list Mcp.request)) : Prop :=
  Forall2 (λ srv reqs, session (Db.srv_url srv) (Mcp.buildAuth JSON_parse srv)
                         "tools/list" Mcp.no_params reqs)
          servers sessions.

(** No id is used twice, and the counter is ahead of all of them. *)
Definition ordered (n : Mcp.net) : Prop :=
  StronglySorted lt (map Mcp.req_id (Mcp.wire n))
  ∧ Forall (λ q, Mcp.req_id q < Mcp.reqId n) (Mcp.wire n).

(** A callback of discovery for the server [srv], with the requests that it
    has sent so far: a callback that waits for the answer to [initialize]
    has sent that request at most, and has sent it if the answer is a
    result. *)
Definition waits (JSON_parse : string → option (gmap string string))
    (srv : Db.mcp_server_row) (tagged : Mcp.callback * list Mcp.request) : Prop :=
  session (Db.srv_url srv) (Mcp.buildAuth JSON_parse srv) "tools/list" Mcp.no_params tagged.2
  ∧ match tagged.1 with
    | Mcp.initializing srv' a r =>
        srv' = srv ∧ a = Mcp.buildAuth JSON_parse srv ∧ length tagged.2 ≤ 1
        ∧ (∀ res, r = inr res → length tagged.2 = 1)
    | Mcp.listing srv' a _ => srv' = srv ∧ a = Mcp.buildAuth JSON_parse srv
    | Mcp.finished => True
    end.

(** A discovery over [servers] that started at [n0], while it runs: the
    wire has gained the requests of its callbacks, in some order. *)
Definition running (JSON_parse : string → option (gmap string string)) (n0 : Mcp.net)
    (servers : list Db.mcp_server_row) (cbs : list Mcp.callback) (n : Mcp.net) : Prop :=
  ∃ tagged,
    cbs = tagged.*1
    ∧ Forall2 (waits JSON_parse) servers tagged
    ∧ (∃ reqs, Mcp.wire n = Mcp.wire n0 ++ reqs ∧ reqs ≡ₚ concat tagged.*2)
    ∧ Forall (λ q, Mcp.req_id q < Mcp.reqId n) (concat tagged.*2)
    ∧ (ordered n0 → ordered n).

End Wire.

(** The catalogue of remote tools. *)
Module Catalogue.

(** The catalogue and the routing table agree, and route to the servers
    of [servers]. *)
Definition coherent (JSON_parse : string → option (gmap string string))
    (servers : list Db.mcp_server_row) (c : Mcp.catalog) : Prop :=
  NoDup (map Tools.tool_name (Mcp.openaiTools c))
  ∧ (∀ t, t ∈ Mcp.openaiTools c →
       Tools.tool_type t = "function"
       ∧ ∃ info, Mcp.toolServerMap c !! Tools.tool_name t = Some info
                 ∧ Tools.mcpServer t = Some (Mcp.info_url info))
  ∧ (∀ name info, Mcp.toolServerMap c !! name = Some info →
       name ∈ map Tools.tool_name (Mcp.openaiTools c)
       ∧ ∃ srv, srv ∈ servers ∧ Mcp.info_url info = Db.srv_url srv
                ∧ Mcp.info_auth info = Mcp.buildAuth JSON_parse srv).

(** The callbacks of a discovery over [servers] are those of its servers,
    with their credentials. *)
Definition owned (JSON_parse : string → option (gmap string string))
    (servers : list Db.mcp_server_row) (cb : Mcp.callback) : Prop :=
  match cb with
  | Mcp.initializing srv a _ | Mcp.listing srv a _ =>
      srv ∈ servers ∧ a = Mcp.buildAuth JSON_parse srv
  | Mcp.finished => True
  end.

End Catalogue.

(** What the chat handler writes to the response and stores. *)
Module Transcript.





End Transcript.

(** The events of the research stage. *)
Module Research.

Definition is_query (ev : AiRoute.sse_event) : Prop :=
  match ev with AiRoute.research_query _ => True | _ => False end.

End Research.

(** Further inputs for the examples of the properties below. *)
Module Samples.

(** [Demo.berlin] with a fact of a second user. *)
Definition two_users : Db.t := Db.insert_memory 100 2 "Plays chess" Demo.berlin.

(** [k] copies of a text. *)
Fixpoint copies (k : nat) (s : string) : string :=
  match k with
  | 0 => EmptyString
  | S k' => s +:+ copies k' s
  end.

(** A provider that asks for [memory_get] once and then answers. *)
Definition calls_once (rnd : nat) (_ : Ai.params) : Ai.completion :=
  match rnd with
  | 0 => Ai.stream [Demo.text_chunk "Let me check. ";
                    Demo.call_chunk 0 "call_1" "memory_get" "{}";
                    Demo.finish "tool_calls"] Ai.closed
  | _ => Ai.stream [Demo.text_chunk "Nothing yet."; Demo.finish "stop"] Ai.closed
  end.

(** The chat of [Demo.cancelled_in_round_two] when the aborted stream of
    the second round ends without an exception. *)
Definition ends_in_round_two (rnd : nat) (p : Ai.params) : Ai.completion :=
  match rnd with
  | 0 => Demo.cancelled_in_round_two 0 p
  | _ => Ai.stream [Demo.text_chunk "I have no"] Ai.closed
  end.

(** A request that is aborted before its stream starts: the client library
    rejects it with an error of its own, whose name is "Error". *)
Definition aborted_request (_ : nat) (_ : Ai.params) : Ai.completion :=
  Ai.rejected (Ai.Error "Request was aborted.").

(** The state after a call under [calls_once]. *)
Definition answered : Ai.state (Σ := unit) :=
  match Ai.streamOpenAI Demo.JSON_parse calls_once Demo.plain_options Demo.store () with
  | inr s => s
  | inl _ => Ai.init Demo.store ()
  end.

(** The state after the first round under [calls_once]. *)
Definition first_round : Ai.state (Σ := unit) :=
  (Ai.round Demo.JSON_parse calls_once Demo.plain_options 1 0
     (Ai.init (<[1 := Demo.question]> Demo.store) ())).1.

(** A server that asks for a token, and the parser of its credentials. *)
Definition token_json : string :=
  "{" +:+ Js.quote +:+ "token" +:+ Js.quote +:+ ":" +:+ Js.quote +:+ "s3cret"
  +:+ Js.quote +:+ "}".

Definition JSON_parse (text : string) : option (gmap string string) :=
  if bool_decide (text = token_json) then Some {[ "token" := "s3cret" ]}
  else Demo.JSON_parse text.

Definition gamma : Db.mcp_server_row :=
  {| Db.srv_id := 3; Db.srv_user_id := 1; Db.srv_name := "gamma";
     Db.srv_url := "https://gamma.example/mcp"; Db.srv_enabled := true;
     Db.srv_created_at := 103; Db.srv_auth_type := Some "token";
     Db.srv_auth_data := Some token_json |}.

(** The catalogue discovered over [Demo.alpha] and [Demo.beta] when
    [Demo.beta] is the first to answer [initialize] and [Demo.alpha] the
    first to answer [tools/list], and the wire afterwards. *)
Definition collected : (Ai.exn + Mcp.catalog) * Mcp.net :=
  Mcp.collectMCPTools Demo.URL_parse Demo.echo_envelope Demo.JSON_parse Demo.echo_fetch
    [Demo.alpha; Demo.beta] [1; 0; 0; 1] Mcp.boot.

Definition catalogue : Mcp.catalog :=
  match collected.1 with
  | inr c => c
  | inl _ => {| Mcp.openaiTools := []; Mcp.toolServerMap := ∅ |}
  end.





(** A research stage: the model answers each of the two prompts with a
    text that [JSON_queries] reads as four queries and as two follow-up
    queries, and the search answers the follow-up queries with [null]. *)
Definition asks_for_queries (system _ : string) : Ai.exn + option string :=
  inr (Some (if bool_decide (system = AiRoute.QUERIES_PROMPT) then "initial" else "gaps")).

Definition JSON_queries (text : string) : Ai.exn + option (list string) :=
  if bool_decide (text = "initial") then inr (Some ["q1"; "q2"; "q3"; "q4"; "q5"])
  else if bool_decide (text = "gaps") then inr (Some ["f1"; "f2"; "f3"])
  else inr None.

Definition unreadable_follow_up (_ query : string) : Tools.search_answer :=
  if String.prefix "f" query then Tools.search_unreadable
  else Tools.search_body {| Tools.answer := Some "yes"; Tools.results := None |}.

End Samples.

(** * Properties *)

(** ** Memory facts *)

Section MemoryFacts.

Variable tavily_search : string → string → gmap string string → string.
Variable image_generate : string → string → gmap string string → string.

Lemma memory_rows_insert now uid content fact d :
  Db.memory_rows_nocase uid fact (Db.insert_memory now uid content d)
  = Db.memory_rows_nocase uid fact d
    ++ (if decide (Sql.lower content = Sql.lower fact)
        then [{| Db.mem_id := S (Db.seq_memory d); Db.mem_user_id := uid;
                 Db.mem_content := content; Db.mem_created_at := now;
                 Db.mem_updated_at := now |}]
        else []).
Proof.
  unfold Db.memory_rows_nocase, Db.insert_memory. simpl.
  rewrite filter_app. f_equal.
  destruct (decide (Sql.lower content = Sql.lower fact)) as [E|E].
  - rewrite filter_cons_True; [done | simpl; auto].
  - rewrite filter_cons_False; [done | simpl; tauto].
Qed.

Lemma find_memory_rows uid fact d :
  Db.find_memory_nocase uid fact d = head (Db.memory_rows_nocase uid fact d).
Proof. reflexivity. Qed.

Lemma count_memory_insert now uid content d :
  Db.count_memory uid (Db.insert_memory now uid content d) = S (Db.count_memory uid d).
Proof.
  unfold Db.count_memory, Db.insert_memory. simpl.
  rewrite filter_app, length_app, filter_cons_True by done. simpl. lia.
Qed.

(** What [memory_save] does on a fact that is new to the user, and on one
    that is stored already. *)
Lemma memory_save_new now args ctx d fact :
  Js.trim (Js.or_empty (args !! "fact")) = fact →
  Js.truthy fact = true →
  Db.memory_rows_nocase (Tools.userId ctx) fact d = [] →
  snd (Tools.handleBuiltinTool tavily_search image_generate now "memory_save" args ctx d)
  = Db.insert_memory now (Tools.userId ctx) fact d.
Proof.
  intros Hf Ht Hnone. unfold Tools.handleBuiltinTool.
  rewrite decide_True by done. rewrite Hf, Ht. simpl.
  rewrite find_memory_rows, Hnone. reflexivity.
Qed.

Lemma memory_save_known now args ctx d fact row rows :
  Js.trim (Js.or_empty (args !! "fact")) = fact →
  Db.memory_rows_nocase (Tools.userId ctx) fact d = row :: rows →
  snd (Tools.handleBuiltinTool tavily_search image_generate now "memory_save" args ctx d) = d.
Proof.
  intros Hf Hsome. unfold Tools.handleBuiltinTool.
  rewrite decide_True by done. rewrite Hf.
  destruct (Js.truthy fact); simpl; [|done].
  rewrite find_memory_rows, Hsome. reflexivity.
Qed.

(** The tool path alone: saving twice, the second time in any letter case,
    stores one row and makes the second call a no-op. *)
Lemma memory_save_twice now1 now2 args1 args2 ctx d fact1 fact2 :
  Js.trim (Js.or_empty (args1 !! "fact")) = fact1 →
  Js.trim (Js.or_empty (args2 !! "fact")) = fact2 →
  Js.truthy fact1 = true →
  Sql.lower fact1 = Sql.lower fact2 →
  Db.memory_rows_nocase (Tools.userId ctx) fact1 d = [] →
  let d1 := snd (Tools.handleBuiltinTool tavily_search image_generate now1
                   "memory_save" args1 ctx d) in
  let d2 := snd (Tools.handleBuiltinTool tavily_search image_generate now2
                   "memory_save" args2 ctx d1) in
  d2 = d1 ∧ length (Db.memory_rows_nocase (Tools.userId ctx) fact1 d1) = 1.
Proof.
  intros H1 H2 Ht Hl Hnone d1 d2. subst d2 d1.
  rewrite (memory_save_new now1 args1 ctx d fact1) by done.
  assert (Hrows : ∀ f, Sql.lower fact1 = Sql.lower f →
            Db.memory_rows_nocase (Tools.userId ctx) f
              (Db.insert_memory now1 (Tools.userId ctx) fact1 d)
            = [{| Db.mem_id := S (Db.seq_memory d); Db.mem_user_id := Tools.userId ctx;
                  Db.mem_content := fact1; Db.mem_created_at := now1;
                  Db.mem_updated_at := now1 |}]).
  { intros f Hf. rewrite memory_rows_insert, decide_True by done.
    replace (Db.memory_rows_nocase (Tools.userId ctx) f d) with (@nil Db.memory_row); [done|].
    unfold Db.memory_rows_nocase in *. rewrite <- Hf. by rewrite Hnone. }
  split.
  - eapply memory_save_known; [exact H2 | apply Hrows, Hl].
  - by rewrite Hrows.
Qed.

(** The tool path does not look at the number of facts. *)
Lemma memory_save_ignores_cap now args ctx d fact :
  Js.trim (Js.or_empty (args !! "fact")) = fact →
  Js.truthy fact = true →
  Db.memory_rows_nocase (Tools.userId ctx) fact d = [] →
  Db.count_memory (Tools.userId ctx)
    (snd (Tools.handleBuiltinTool tavily_search image_generate now "memory_save" args ctx d))
  = S (Db.count_memory (Tools.userId ctx) d).
Proof.
  intros. erewrite memory_save_new by done. apply count_memory_insert.
Qed.

(** The route refuses at the cap and otherwise stores one more row. *)
Lemma post_memory_count now uid content d :
  Db.count_memory uid (snd (MemoryRoute.post now uid content d))
  ≤ Nat.max (Db.count_memory uid d) MemoryRoute.MAX_FACTS.
Proof.
  unfold MemoryRoute.post. destruct content as [c|]; [|simpl; lia].
  destruct (negb _); [simpl; lia|].
  destruct (_ <? _); [simpl; lia|].
  destruct (MemoryRoute.MAX_FACTS <=? Db.count_memory uid d) eqn:E; simpl; [lia|].
  apply Nat.leb_gt in E. rewrite count_memory_insert. lia.
Qed.

(** The background insert of the chat route stores every fact it is given. *)
Lemma auto_memory_appends now uid facts d :
  map Db.mem_content (Db.memory (foldl (λ d f, Db.insert_memory now uid f d) d facts))
  = map Db.mem_content (Db.memory d) ++ facts.
Proof.
  revert d. induction facts as [|f facts IH]; intros d; simpl.
  { by rewrite app_nil_r. }
  rewrite IH. simpl. by rewrite map_app, <- app_assoc.
Qed.

End MemoryFacts.

(** C5: the facts of the background extraction go through a plain INSERT,
    not through the dedup-on-insert path of [memory_save].  User 1 has the
    fact "Lives in Berlin"; a chat whose extraction yields "lives in berlin"
    stores a second row with that content, where [memory_save] with the
    same fact stores none. *)
Theorem auto_memory_inserts_duplicate :
  Db.memory_rows_nocase 1 "lives in berlin" Demo.berlin
  = [{| Db.mem_id := 1; Db.mem_user_id := 1; Db.mem_content := "Lives in Berlin";
        Db.mem_created_at := 100; Db.mem_updated_at := 100 |}]
  ∧ (λ s, Db.memory_rows_nocase 1 "lives in berlin" (AiRoute.db s))
      <$> Demo.session_of
            (Demo.chat (Demo.says "Noted.") (λ _ _, Some ["lives in berlin"])
               Demo.hello Demo.berlin)
    = Some [{| Db.mem_id := 1; Db.mem_user_id := 1; Db.mem_content := "Lives in Berlin";
               Db.mem_created_at := 100; Db.mem_updated_at := 100 |};
            {| Db.mem_id := 2; Db.mem_user_id := 1; Db.mem_content := "lives in berlin";
               Db.mem_created_at := 200; Db.mem_updated_at := 200 |}]
  ∧ Db.memory
      (snd (Tools.handleBuiltinTool Demo.no_search Demo.no_image 200 "memory_save"
              {[ "fact" := "lives in berlin" ]} Demo.ctx1 Demo.berlin))
    = Db.memory Demo.berlin.
Proof. vm_compute. done. Qed.

(** C6: only POST /api/memory looks at the number of facts.  With user 1 at
    500 facts the route refuses, while [memory_save] and the background
    extraction each store fact number 501. *)
Theorem memory_cap_bypassed :
  Db.count_memory 1 Demo.at_cap = 500
  ∧ MemoryRoute.post 200 1 (Some "one more") Demo.at_cap
    = (MemoryRoute.error 400 "Memory limit reached (500 facts max). Delete some facts first.",
       Demo.at_cap)
  ∧ Db.count_memory 1
      (snd (Tools.handleBuiltinTool Demo.no_search Demo.no_image 200 "memory_save"
              {[ "fact" := "one more" ]} Demo.ctx1 Demo.at_cap)) = 501
  ∧ (λ s, Db.count_memory 1 (AiRoute.db s))
      <$> Demo.session_of
            (Demo.chat (Demo.says "Noted.") (λ _ _, Some ["one more"])
               Demo.hello Demo.at_cap)
    = Some 501.
Proof.
  split; [by vm_compute|]. split; [by vm_compute|]. split; by vm_compute.
Qed.

(** C7: POST /api/memory inserts without looking for the content.  Posting
    "Lives in Berlin" twice leaves two rows with that content; the same two
    insertions through [memory_save] leave one ([memory_save_twice]). *)
Theorem post_memory_twice_two_rows :
  let d1 := snd (MemoryRoute.post 150 1 (Some "Lives in Berlin") Db.empty) in
  let d2 := snd (MemoryRoute.post 160 1 (Some "Lives in Berlin") d1) in
  map Db.mem_content (Db.memory_rows_nocase 1 "Lives in Berlin" d1) = ["Lives in Berlin"]
  ∧ map Db.mem_content (Db.memory_rows_nocase 1 "Lives in Berlin" d2)
    = ["Lives in Berlin"; "Lives in Berlin"]
  ∧ fst (MemoryRoute.post 160 1 (Some "Lives in Berlin") d1)
    = MemoryRoute.json_row
        (Some {| Db.mem_id := 2; Db.mem_user_id := 1; Db.mem_content := "Lives in Berlin";
                 Db.mem_created_at := 160; Db.mem_updated_at := 160 |}).
Proof. vm_compute. done. Qed.

(** ** Editing a message *)

Section EditMessage.

(** The rows a successful edit removes are those of the conversation whose
    time stamp, in whole seconds, is not below that of the edited message. *)
Lemma patch_message_deletes now uid cid mid content d t d' :
  ChatsRoute.patch_message now uid cid mid content d = (ChatsRoute.edited t, d') →
  ∃ msg, Db.get_message mid cid d = Some msg
         ∧ Db.msg_created_at msg = t
         ∧ Db.messages d'
           = filter (λ m, ¬ (Db.msg_conversation_id m = cid ∧ t ≤ Db.msg_created_at m))
                    (Db.messages d).
Proof.
  unfold ChatsRoute.patch_message.
  destruct (Db.get_conversation cid uid d) as [conv|] eqn:Hc; [|done].
  assert (Db.conv_id conv = cid) as ->.
  { unfold Db.get_conversation in Hc. apply head_Some_elem_of in Hc.
    apply list_elem_of_filter in Hc. tauto. }
  destruct (Db.get_message mid cid d) as [msg|] eqn:Hm; [|done].
  destruct (bool_decide _); [done|]. destruct (negb _); [done|].
  intros [= <- <-]. exists msg. done.
Qed.

(** When the time stamps of a conversation grow strictly with the row ids,
    the edit keeps exactly the messages created before the edited one. *)
Lemma patch_message_strict now uid cid mid content d t d' :
  (∀ m1 m2, m1 ∈ Db.messages d → m2 ∈ Db.messages d →
            Db.msg_conversation_id m1 = cid → Db.msg_conversation_id m2 = cid →
            (Db.msg_id m1 < Db.msg_id m2 ↔ Db.msg_created_at m1 < Db.msg_created_at m2)) →
  ChatsRoute.patch_message now uid cid mid content d = (ChatsRoute.edited t, d') →
  ∀ m, m ∈ Db.messages d' ↔
       m ∈ Db.messages d ∧ (Db.msg_conversation_id m = cid → Db.msg_id m < mid).
Proof.
  intros Hmono Hrun m.
  destruct (patch_message_deletes _ _ _ _ _ _ _ _ Hrun) as (msg & Hget & Ht & ->).
  unfold Db.get_message in Hget. apply head_Some_elem_of in Hget.
  apply list_elem_of_filter in Hget as [[Hid Hcid] Hin].
  rewrite list_elem_of_filter. split.
  - intros [Hkeep Hm]. split; [done|]. intros Hc.
    rewrite <- Hid. apply Hmono; auto. lia.
  - intros [Hm Hlt]. split; [|done]. intros [Hc Hge].
    specialize (Hlt Hc). rewrite <- Hid in Hlt.
    apply Hmono in Hlt; auto. lia.
Qed.

End EditMessage.

(** C8: the edit deletes by time stamp, and time stamps are whole seconds.
    In [Demo.thread] the answer (row 2) and the next question (row 3) carry
    the same second; editing row 3 also deletes row 2, which was created
    before it. *)
Theorem edit_deletes_earlier_message :
  map Db.msg_id (Db.messages Demo.thread) = [1; 2; 3]
  ∧ map Db.msg_created_at (Db.messages Demo.thread) = [100; 103; 103]
  ∧ fst (ChatsRoute.patch_message 200 1 1 3 (Some "second, reworded") Demo.thread)
    = ChatsRoute.edited 103
  ∧ map Db.msg_id
      (Db.messages (snd (ChatsRoute.patch_message 200 1 1 3 (Some "second, reworded")
                           Demo.thread)))
    = [1].
Proof. vm_compute. done. Qed.

(** ** Settings and their secrets *)

Section Settings.

Import Secrets.

Lemma same_but_keys_lookup s1 s2 k :
  same_but_keys s1 s2 → k ≠ "openai_api_key" → k ≠ "tavily_api_key" →
  s1 !! k = s2 !! k.
Proof.
  intros (Hd & _ & _) H1 H2.
  apply (f_equal (λ m, m !! k)) in Hd.
  by rewrite !lookup_delete_ne in Hd.
Qed.

Lemma merged_secret stored k :
  k = "openai_api_key" ∨ k = "tavily_api_key" →
  SettingsRoute.merged stored !! k = stored !! k.
Proof.
  intros Hk. unfold SettingsRoute.merged. apply lookup_union_l.
  destruct Hk as [-> | ->]; by vm_compute.
Qed.

Lemma same_but_keys_merged s1 s2 :
  same_but_keys s1 s2 →
  same_but_keys (SettingsRoute.merged s1) (SettingsRoute.merged s2).
Proof.
  intros H. pose proof H as (Hd & Ho & Ht). split; [|split].
  - apply map_eq. intros k. rewrite !lookup_delete.
    repeat case_decide; try done.
    unfold SettingsRoute.merged. rewrite !lookup_union.
    by rewrite (same_but_keys_lookup s1 s2 k).
  - by rewrite !merged_secret by auto.
  - by rewrite !merged_secret by auto.
Qed.

Lemma maskSettings_same m1 m2 :
  same_but_keys m1 m2 → SettingsRoute.maskSettings m1 = SettingsRoute.maskSettings m2.
Proof.
  intros (Hd & Ho & Ht). unfold SettingsRoute.maskSettings.
  by rewrite Hd, Ho, Ht.
Qed.

Lemma maskSettings_no_key m k :
  k = "openai_api_key" ∨ k = "tavily_api_key" →
  SettingsRoute.maskSettings m !! k = None.
Proof.
  intros Hk. unfold SettingsRoute.maskSettings.
  rewrite !lookup_insert_ne, lookup_fmap by (destruct Hk as [-> | ->]; done).
  destruct Hk as [-> | ->].
  - by rewrite lookup_delete_ne, lookup_delete_eq.
  - by rewrite lookup_delete_eq.
Qed.

Lemma maskSettings_flags m :
  SettingsRoute.maskSettings m !! "openai_api_key_set"
  = Some (SettingsRoute.flag (SettingsRoute.is_set (m !! "openai_api_key")))
  ∧ SettingsRoute.maskSettings m !! "tavily_api_key_set"
    = Some (SettingsRoute.flag (SettingsRoute.is_set (m !! "tavily_api_key"))).
Proof.
  unfold SettingsRoute.maskSettings. split.
  - by rewrite lookup_insert_ne, lookup_insert_eq.
  - by rewrite lookup_insert_eq.
Qed.

Lemma getUserSettings_setSetting uid k v d :
  Db.getUserSettings uid (Db.setSetting uid k v d) = <[k := v]> (Db.getUserSettings uid d).
Proof.
  unfold Db.getUserSettings, Db.setSetting, Db.with_settings. simpl.
  by rewrite lookup_insert_eq.
Qed.

Lemma same_but_keys_insert s1 s2 k v :
  same_but_keys s1 s2 → same_but_keys (<[k := v]> s1) (<[k := v]> s2).
Proof.
  intros H. pose proof H as (Hd & Ho & Ht). split; [|split].
  - apply map_eq. intros i. rewrite !lookup_delete.
    repeat case_decide; try done.
    rewrite !lookup_insert. case_decide; [done|].
    by apply same_but_keys_lookup.
  - rewrite !lookup_insert. by case_decide.
  - rewrite !lookup_insert. by case_decide.
Qed.

(** The same update keeps two databases alike but for the keys. *)
Lemma apply_update_same uid d1 d2 kv :
  same_but_keys (Db.getUserSettings uid d1) (Db.getUserSettings uid d2) →
  same_but_keys (Db.getUserSettings uid (SettingsRoute.apply_update uid d1 kv))
                (Db.getUserSettings uid (SettingsRoute.apply_update uid d2 kv)).
Proof.
  intros H. destruct kv as [k v]. unfold SettingsRoute.apply_update.
  destruct (negb _); [done|].
  destruct (SettingsRoute.MAX_LENGTHS !! k) as [max|].
  - destruct (_ && _); [done|].
    rewrite !getUserSettings_setSetting. by apply same_but_keys_insert.
  - rewrite !getUserSettings_setSetting. by apply same_but_keys_insert.
Qed.

Lemma apply_updates_same uid entries d1 d2 :
  same_but_keys (Db.getUserSettings uid d1) (Db.getUserSettings uid d2) →
  same_but_keys
    (Db.getUserSettings uid (foldl (SettingsRoute.apply_update uid) d1 entries))
    (Db.getUserSettings uid (foldl (SettingsRoute.apply_update uid) d2 entries)).
Proof.
  revert d1 d2. induction entries as [|kv entries IH]; intros d1 d2 H; [done|].
  simpl. apply IH. by apply apply_update_same.
Qed.

End Settings.

(** C9: what GET and PATCH /api/settings answer never holds an entry under
    [openai_api_key] or [tavily_api_key]; the two flags say whether each key
    is set; and two accounts that differ only in the values of keys that are
    set (or blank) in both get the same answer, to a read and to any
    update. *)
Theorem settings_answers_hide_keys uid d1 d2 :
  Secrets.same_but_keys (Db.getUserSettings uid d1) (Db.getUserSettings uid d2) →
  SettingsRoute.get uid d1 = SettingsRoute.get uid d2
  ∧ SettingsRoute.get uid d1 !! "openai_api_key" = None
  ∧ SettingsRoute.get uid d1 !! "tavily_api_key" = None
  ∧ SettingsRoute.get uid d1 !! "openai_api_key_set"
    = Some (SettingsRoute.flag
              (SettingsRoute.is_set (Db.getUserSettings uid d1 !! "openai_api_key")))
  ∧ SettingsRoute.get uid d1 !! "tavily_api_key_set"
    = Some (SettingsRoute.flag
              (SettingsRoute.is_set (Db.getUserSettings uid d1 !! "tavily_api_key")))
  ∧ ∀ updates,
      fst (SettingsRoute.patch uid updates d1) = fst (SettingsRoute.patch uid updates d2)
      ∧ ∀ entries, updates = Some entries →
          fst (SettingsRoute.patch uid updates d1)
          = SettingsRoute.json (SettingsRoute.get uid (snd (SettingsRoute.patch uid updates d1))).
Proof.
  intros H. unfold SettingsRoute.get.
  split; [by apply maskSettings_same, same_but_keys_merged|].
  split; [apply maskSettings_no_key; auto|].
  split; [apply maskSettings_no_key; auto|].
  destruct (maskSettings_flags (SettingsRoute.merged (Db.getUserSettings uid d1))) as [Ho Ht].
  rewrite merged_secret in Ho by auto. rewrite merged_secret in Ht by auto.
  split; [done|]. split; [done|].
  intros [entries|]; simpl; [|done]. split.
  - f_equal. by apply maskSettings_same, same_but_keys_merged, apply_updates_same.
  - by intros ? [= <-].
Qed.

Example settings_answer_flags :
  SettingsRoute.get 1 (Secrets.account "sk-live-1111" "   ") !! "openai_api_key_set"
  = Some (SettingsRoute.flag true)
  ∧ SettingsRoute.get 1 (Secrets.account "sk-live-1111" "   ") !! "tavily_api_key_set"
    = Some (SettingsRoute.flag false)
  ∧ SettingsRoute.get 1 (Secrets.account "sk-live-1111" "   ") !! "model"
    = Some (SettingsRoute.text "gpt-5")
  ∧ SettingsRoute.get 1 (Secrets.account "sk-live-1111" "   ") !! "chat_mode"
    = Some (SettingsRoute.text "normal").
Proof. vm_compute. done. Qed.

Lemma settings_answers_hide_keys_witness :
  SettingsRoute.get 1 (Secrets.account "sk-live-1111" "tvly-aaaa")
  = SettingsRoute.get 1 (Secrets.account "sk-live-2222" "tvly-bbbb").
Proof.
  apply (settings_answers_hide_keys 1 (Secrets.account "sk-live-1111" "tvly-aaaa")
           (Secrets.account "sk-live-2222" "tvly-bbbb")).
  unfold Secrets.same_but_keys. vm_compute. done.
Defined.

(** ** The provider adapter *)

Section AdapterFacts.

Context {Σ : Type}.
Variable JSON_parse : string → option (gmap string string).
Variable provider : nat → Ai.params → Ai.completion.
Variable o : Ai.options (Σ := Σ).
Variable msgsCopy : nat.

#[local] Abbreviation steps := (Trace.steps o msgsCopy).

Lemma call_opt_announce s name args :
  steps s (Ai.call_opt (Ai.ToolCall name args)
             ((λ f, f name args) <$> Ai.onToolCall o) s).
Proof.
  destruct (Ai.onToolCall o) as [f|] eqn:E; simpl; [|apply rtc_refl].
  apply rtc_once. by apply Trace.announce.
Qed.

Lemma call_opt_report s name text :
  steps s (Ai.call_opt (Ai.ToolResult name text)
             ((λ f, f name text) <$> Ai.onToolResult o) s).
Proof.
  destruct (Ai.onToolResult o) as [f|] eqn:E; simpl; [|apply rtc_refl].
  apply rtc_once. by apply Trace.report.
Qed.

Lemma consume_steps rs ch : steps (Ai.st rs) (Ai.st (Ai.consume o rs ch)).
Proof.
  destruct ch as [c|]; simpl; [|apply rtc_refl].
  destruct (Js.truthy _); simpl; [|apply rtc_refl].
  apply rtc_once. destruct rs as [s ? ? ?]. simpl. apply Trace.chunk.
Qed.

Lemma consume_all_steps chunks rs :
  steps (Ai.st rs) (Ai.st (foldl (Ai.consume o) rs chunks)).
Proof.
  revert rs. induction chunks as [|ch chunks IH]; intros rs; simpl; [apply rtc_refl|].
  etrans; [apply consume_steps | apply IH].
Qed.

Lemma run_tool_steps exec s tc :
  Ai.toolExecutor o = Some exec →
  steps s (Ai.run_tool JSON_parse o msgsCopy exec s tc).
Proof.
  intros Hexec. unfold Ai.run_tool.
  set (args := default ∅ _).
  set (s1 := Ai.call_opt (Ai.ToolCall _ _) _ s).
  destruct (exec (Ai.tc_name tc) args (Ai.caller s1)) as [r σ] eqn:E.
  etrans; [apply (call_opt_announce s (Ai.tc_name tc) args)|]. fold s1.
  etrans; [apply rtc_once, (Trace.execute o msgsCopy s1 exec _ _ _ _ Hexec E)|].
  etrans; [apply call_opt_report|].
  apply rtc_once, Trace.append.
Qed.

Lemma run_tools_steps exec calls s :
  Ai.toolExecutor o = Some exec →
  steps s (foldl (Ai.run_tool JSON_parse o msgsCopy exec) s calls).
Proof.
  intros Hexec. revert s.
  induction calls as [|tc calls IH]; intros s; simpl; [apply rtc_refl|].
  etrans; [by apply run_tool_steps | apply IH].
Qed.

(** One round: either it moves on or fails after some steps, or it returns
    by the completion callback after some steps. *)
Lemma round_steps rnd s s' out :
  Ai.round JSON_parse provider o msgsCopy rnd s = (s', out) →
  match out with
  | Ai.returned => ∃ s1, steps s s1 ∧ s' = Ai.emit_done o s1
  | _ => steps s s'
  end.
Proof.
  unfold Ai.round.
  set (p := Ai.make_params o _).
  set (s0 := {| Ai.heap := Ai.heap s; Ai.requests := _ |}).
  assert (H0 : steps s s0) by apply rtc_once, Trace.request.
  destruct (provider rnd p) as [e | chunks fin].
  { intros [= <- <-]. done. }
  set (rs0 := {| Ai.st := s0; Ai.chunkText := _ |}).
  pose proof (consume_all_steps chunks rs0) as H1. simpl in H1.
  set (rs := foldl (Ai.consume o) rs0 chunks) in *.
  destruct fin as [|e].
  2: { intros [= <- <-]. by etrans. }
  destruct (Ai.toolExecutor o) as [exec|] eqn:Hexec.
  2: { intros [= <- <-]. eexists. split; [|done]. by etrans. }
  destruct (_ && _).
  2: { intros [= <- <-]. eexists. split; [|done]. by etrans. }
  intros [= <- <-].
  etrans; [exact H0|]. etrans; [exact H1|].
  etrans; [apply rtc_once, Trace.append|].
  by apply run_tools_steps.
Qed.

Lemma rounds_steps n rnd s s' out :
  Ai.rounds JSON_parse provider o msgsCopy n rnd s = (s', out) →
  match out with
  | Ai.returned => ∃ s1, steps s s1 ∧ s' = Ai.emit_done o s1
  | _ => steps s s'
  end.
Proof.
  revert rnd s. induction n as [|n IH]; intros rnd s; simpl.
  { intros [= <- <-]. apply rtc_refl. }
  destruct (Ai.round _ _ _ _ _ _) as [s1 out1] eqn:E1.
  apply round_steps in E1.
  destruct out1.
  - intros E2. apply IH in E2. destruct out.
    + by etrans.
    + destruct E2 as (s2 & H2 & ->). exists s2. split; [by etrans | done].
    + by etrans.
  - intros [= <- <-]. done.
  - intros [= <- <-]. done.
Qed.

End AdapterFacts.

(** *** What the steps preserve *)

Section StepFacts.

Context {Σ : Type}.
Variable o : Ai.options (Σ := Σ).
Variable msgsCopy : nat.

#[local] Abbreviation steps := (Trace.steps o msgsCopy).

(** The store: nothing but [msgsCopy] is written, and it only grows. *)
Lemma steps_heap s s' :
  steps s s' →
  (∀ l, l ≠ msgsCopy → Ai.heap s' !! l = Ai.heap s !! l)
  ∧ ∃ extra, Ai.heap s' !! msgsCopy = (λ v, v ++ extra) <$> Ai.heap s !! msgsCopy.
Proof.
  induction 1 as [s | s s1 s2 Hstep _ [IHf [extra IHg]]].
  { split; [done|]. exists []. destruct (Ai.heap s !! msgsCopy); simpl; [|done].
    by rewrite app_nil_r. }
  assert ((∀ l, l ≠ msgsCopy → Ai.heap s1 !! l = Ai.heap s !! l)
          ∧ ∃ extra1, Ai.heap s1 !! msgsCopy = (λ v, v ++ extra1) <$> Ai.heap s !! msgsCopy)
    as [Hf [extra1 Hg]].
  { assert (Hsame : ∀ hs : gmap nat (list Ai.api_message),
              (∀ l : nat, l ≠ msgsCopy → hs !! l = hs !! l)
              ∧ ∃ extra1, hs !! msgsCopy = (λ v, v ++ extra1) <$> hs !! msgsCopy).
    { intros hs. split; [done|]. exists []. destruct (hs !! msgsCopy); simpl; [|done].
      by rewrite app_nil_r. }
    destruct Hstep; simpl; try apply Hsame.
    split.
    - intros l Hl. unfold Ai.push. by rewrite lookup_alter_ne.
    - exists [m]. unfold Ai.push. by rewrite lookup_alter_eq. }
  split.
  - intros l Hl. by rewrite IHf, Hf.
  - exists (extra1 ++ extra). rewrite IHg, Hg.
    destruct (Ai.heap s !! msgsCopy); simpl; [|done]. by rewrite app_assoc.
Qed.

(** The callbacks invoked by the steps are never the terminal ones. *)
Lemma steps_emitted s s' :
  steps s s' →
  ∃ evs, Ai.emitted s' = Ai.emitted s ++ evs ∧ Forall (λ ev, ¬ Trace.terminal ev) evs.
Proof.
  induction 1 as [s | s s1 s2 Hstep _ (evs & IH & Hevs)].
  { exists []. by rewrite app_nil_r. }
  assert (∃ evs1, Ai.emitted s1 = Ai.emitted s ++ evs1
                  ∧ Forall (λ ev, ¬ Trace.terminal ev) evs1) as (evs1 & H1 & Hevs1).
  { destruct Hstep; simpl;
      try (exists []; by rewrite app_nil_r);
      (eexists [_]; split; [done|]; constructor; [simpl; tauto | constructor]). }
  exists (evs1 ++ evs). rewrite IH, H1, app_assoc. split; [done|].
  by apply Forall_app.
Qed.

(** A property of the caller's state that the streaming callbacks and the
    tool executor keep is kept by the steps. *)
Lemma steps_caller (P : Σ → Prop) s s' :
  (∀ d h σ, P σ → P (Ai.onChunk o d h σ)) →
  (∀ f name args h σ, Ai.onToolCall o = Some f → P σ → P (f name args h σ)) →
  (∀ f name text h σ, Ai.onToolResult o = Some f → P σ → P (f name text h σ)) →
  (∀ exec name args σ, Ai.toolExecutor o = Some exec → P σ → P (exec name args σ).2) →
  steps s s' → P (Ai.caller s) → P (Ai.caller s').
Proof.
  intros Hchunk Hcall Hresult Hexec. induction 1 as [s | s s1 s2 Hstep _ IH]; [done|].
  intros HP. apply IH.
  destruct Hstep as [s p | s d | s f name args Hf | s exec name args r σ Hex E
                    | s f name text Hf | s m]; simpl.
  - done.
  - by apply Hchunk.
  - by eapply Hcall.
  - eapply Hexec in HP; [|exact Hex]. by rewrite E in HP.
  - by eapply Hresult.
  - done.
Qed.

End StepFacts.

Section AdapterRuns.

Context {Σ : Type}.
Variable JSON_parse : string → option (gmap string string).
Variable provider : nat → Ai.params → Ai.completion.
Variable o : Ai.options (Σ := Σ).
Variable msgsCopy : nat.

Lemma consume_requests rs ch :
  Ai.requests (Ai.st (Ai.consume o rs ch)) = Ai.requests (Ai.st rs).
Proof.
  destruct ch as [c|]; simpl; [|done]. by destruct (Js.truthy _).
Qed.

Lemma consume_all_requests chunks rs :
  Ai.requests (Ai.st (foldl (Ai.consume o) rs chunks)) = Ai.requests (Ai.st rs).
Proof.
  revert rs. induction chunks as [|ch chunks IH]; intros rs; simpl; [done|].
  by rewrite IH, consume_requests.
Qed.

Lemma call_opt_requests ev f (s : Ai.state (Σ := Σ)) :
  Ai.requests (Ai.call_opt ev f s) = Ai.requests s.
Proof. by destruct f. Qed.

Lemma run_tool_requests exec s tc :
  Ai.requests (Ai.run_tool JSON_parse o msgsCopy exec s tc) = Ai.requests s.
Proof.
  unfold Ai.run_tool. destruct (exec _ _ _) as [r σ]. simpl.
  by rewrite !call_opt_requests.
Qed.

Lemma run_tools_requests exec calls s :
  Ai.requests (foldl (Ai.run_tool JSON_parse o msgsCopy exec) s calls) = Ai.requests s.
Proof.
  revert s. induction calls as [|tc calls IH]; intros s; simpl; [done|].
  by rewrite IH, run_tool_requests.
Qed.

(** A round sends one request; when it fails, it fails with what the
    provider answered to that request. *)
Lemma round_requests rnd s s' out :
  Ai.round JSON_parse provider o msgsCopy rnd s = (s', out) →
  ∃ p, Ai.requests s' = Ai.requests s ++ [p]
       ∧ ∀ e, out = Ai.raised e → Trace.failure (provider rnd p) = Some e.
Proof.
  unfold Ai.round. set (p := Ai.make_params o _). intros H. exists p.
  destruct (provider rnd p) as [e | chunks fin].
  { injection H as <- <-. split; [done|]. by intros ? [= <-]. }
  destruct fin as [|e].
  2: { injection H as <- <-. rewrite consume_all_requests. split; [done|].
       by intros ? [= <-]. }
  destruct (Ai.toolExecutor o) as [exec|].
  2: { injection H as <- <-. simpl. rewrite consume_all_requests. by split. }
  destruct (_ && _); injection H as <- <-.
  - rewrite run_tools_requests. simpl. rewrite consume_all_requests. by split.
  - simpl. rewrite consume_all_requests. by split.
Qed.

(** [n] rounds send at most [n] requests. *)
Lemma rounds_requests n rnd s s' out :
  Ai.rounds JSON_parse provider o msgsCopy n rnd s = (s', out) →
  ∃ ps, Ai.requests s' = Ai.requests s ++ ps
        ∧ length ps ≤ n
        ∧ (out = Ai.next_round → length ps = n)
        ∧ ∀ e, out = Ai.raised e →
               ∃ k p, k < rnd + n ∧ p ∈ ps ∧ Trace.failure (provider k p) = Some e.
Proof.
  revert rnd s. induction n as [|n IH]; intros rnd s; simpl.
  { intros [= <- <-]. exists []. rewrite app_nil_r. by repeat split. }
  destruct (Ai.round _ _ _ _ _ _) as [s1 out1] eqn:E1.
  destruct (round_requests _ _ _ _ E1) as (p & Hp & Hfail).
  assert (Hstop : out1 ≠ Ai.next_round → (s1, out1) = (s', out) →
            ∃ ps, Ai.requests s' = Ai.requests s ++ ps ∧ length ps ≤ S n
                  ∧ (out = Ai.next_round → length ps = S n)
                  ∧ ∀ e, out = Ai.raised e →
                         ∃ k p, k < rnd + S n ∧ p ∈ ps
                                ∧ Trace.failure (provider k p) = Some e).
  { intros Hne [= <- <-]. exists [p]. split; [done|]. split; [simpl; lia|].
    split; [done|]. intros e He. exists rnd, p.
    split; [lia|]. split; [set_solver | by apply Hfail]. }
  destruct out1; [|by apply Hstop|by apply Hstop].
  intros E2. destruct (IH _ _ E2) as (ps & Hps & Hlen & Hnext & Hraise).
  exists (p :: ps). rewrite Hps, Hp, <- app_assoc. split; [done|].
  split; [simpl; lia|]. split; [intros; simpl; auto|].
  intros e He. destruct (Hraise e He) as (k & q & Hk & Hq & Hf).
  exists k, q. split; [lia|]. split; [set_solver | done].
Qed.

End AdapterRuns.

Section AdapterResults.

Context {Σ : Type}.
Variable JSON_parse : string → option (gmap string string).
Variable provider : nat → Ai.params → Ai.completion.

(** How a resolved call of [streamOpenAI] came about: the caller's array
    was copied to a fresh address, the loop ran from this state, and the
    result follows from the way the loop was left. *)
Lemma streamOpenAI_resolved (o : Ai.options (Σ := Σ)) h σ s :
  Ai.streamOpenAI JSON_parse provider o h σ = inr s →
  ∃ msgs s1 out,
    h !! Ai.messages o = Some msgs
    ∧ Ai.rounds JSON_parse provider o (fresh (dom h)) Ai.MAX_ROUNDS 0
        (Ai.init (<[fresh (dom h) := msgs]> h) σ) = (s1, out)
    ∧ s = match out with
          | Ai.returned => s1
          | Ai.next_round => Ai.emit_done o s1
          | Ai.raised err =>
              if bool_decide (Ai.name err ≠ "AbortError")
              then Ai.emit_error o err s1 else Ai.emit_done o s1
          end.
Proof.
  unfold Ai.streamOpenAI, Ai.alloc.
  destruct (Ai.makeOpenAIClient _); [done|].
  destruct (h !! Ai.messages o) as [msgs|]; [|done].
  destruct (Ai.rounds _ _ _ _ _ _ _) as [s1 out] eqn:E.
  intros H. exists msgs, s1, out. split; [done|]. split; [done|].
  destruct out; [| |destruct (bool_decide _)]; by injection H.
Qed.

(** With a key and an array to read, the promise resolves. *)
Lemma streamOpenAI_resolves (o : Ai.options (Σ := Σ)) h σ k msgs :
  Ai.makeOpenAIClient (Ai.apiKey o) = inr k →
  h !! Ai.messages o = Some msgs →
  ∃ s, Ai.streamOpenAI JSON_parse provider o h σ = inr s.
Proof.
  intros Hk Hm. unfold Ai.streamOpenAI, Ai.alloc. rewrite Hk, Hm.
  destruct (Ai.rounds _ _ _ _ _ _ _) as [s1 out].
  destruct out; [| |destruct (bool_decide _)]; eauto.
Qed.

(** What the [catch] clause receives is what the provider failed with, in
    one of the rounds. *)
Lemma caught_is_provider_failure (o : Ai.options (Σ := Σ)) h σ e :
  Trace.caught JSON_parse provider o h σ = Some e →
  ∃ rnd p, rnd < Ai.MAX_ROUNDS ∧ Trace.failure (provider rnd p) = Some e.
Proof.
  unfold Trace.caught, Ai.alloc.
  destruct (Ai.makeOpenAIClient _); [done|].
  destruct (h !! Ai.messages o) as [msgs|]; [|done].
  destruct (Ai.rounds _ _ _ _ _ _ _) as [s1 out] eqn:Hrun.
  destruct out as [| |e']; try done. intros [= ->].
  destruct (rounds_requests _ _ _ _ _ _ _ _ _ Hrun) as (ps & _ & _ & _ & Hraise).
  destruct (Hraise e eq_refl) as (rnd & p & Hrnd & _ & Hf). eauto.
Qed.

(** A failure of the first request, or of its stream at any point, is
    caught. *)
Lemma caught_first_round (o : Ai.options (Σ := Σ)) h σ k msgs e :
  Ai.makeOpenAIClient (Ai.apiKey o) = inr k →
  h !! Ai.messages o = Some msgs →
  Trace.failure (provider 0 (Ai.make_params o msgs)) = Some e →
  Trace.caught JSON_parse provider o h σ = Some e.
Proof.
  intros Hk Hm Hf. unfold Trace.caught, Ai.alloc. rewrite Hk, Hm.
  change Ai.MAX_ROUNDS with (S 9). cbn [Ai.rounds]. unfold Ai.round.
  unfold Ai.read. cbn [Ai.heap Ai.init]. rewrite lookup_insert_eq. cbn [default]. unfold id.
  destruct (provider 0 (Ai.make_params o msgs)) as [e'|chunks [|e']]; simpl in Hf.
  - injection Hf as ->. reflexivity.
  - done.
  - injection Hf as ->. reflexivity.
Qed.

End AdapterResults.

(** C3: with a key and a message array, for every behaviour of the provider
    (a finite stream in each round) the adapter resolves after at most 10
    requests, having invoked exactly one terminal callback, as its last:
    the completion callback, or the error callback when a request or its
    stream failed with an exception that is not an abort. *)
Theorem adapter_ends_within_ten_rounds {Σ : Type}
    (JSON_parse : string → option (gmap string string))
    (provider : nat → Ai.params → Ai.completion)
    (o : Ai.options (Σ := Σ)) h σ k msgs :
  Ai.makeOpenAIClient (Ai.apiKey o) = inr k →
  h !! Ai.messages o = Some msgs →
  ∃ s evs final,
    Ai.streamOpenAI JSON_parse provider o h σ = inr s
    ∧ length (Ai.requests s) ≤ Ai.MAX_ROUNDS
    ∧ Ai.emitted s = evs ++ [final]
    ∧ Forall (λ ev, ¬ Trace.terminal ev) evs
    ∧ ((∃ text, final = Ai.Done text)
       ∨ ∃ e rnd p, final = Ai.Failed e ∧ Ai.name e ≠ "AbortError"
                    ∧ rnd < Ai.MAX_ROUNDS ∧ p ∈ Ai.requests s
                    ∧ Trace.failure (provider rnd p) = Some e).
Proof.
  intros Hk Hm.
  destruct (streamOpenAI_resolves JSON_parse provider o h σ k msgs Hk Hm) as [s Hs].
  destruct (streamOpenAI_resolved _ _ _ _ _ _ Hs) as (msgs' & s1 & out & _ & Hrun & ->).
  pose proof (rounds_requests _ _ _ _ _ _ _ _ _ Hrun) as (ps & Hps & Hlen & _ & Hraise).
  pose proof (rounds_steps _ _ _ _ _ _ _ _ _ Hrun) as Hsteps.
  simpl in Hps.
  destruct out as [| |e].
  - apply steps_emitted in Hsteps as (evs & Hev & Hnt). simpl in Hev.
    exists (Ai.emit_done o s1), evs, (Ai.Done (Ai.fullResponse s1)).
    split; [done|]. simpl. rewrite Hps, Hev.
    split; [done|]. split; [done|]. split; [done|]. left. eauto.
  - destruct Hsteps as (s0 & Hsteps & ->).
    apply steps_emitted in Hsteps as (evs & Hev & Hnt). simpl in Hev.
    exists (Ai.emit_done o s0), evs, (Ai.Done (Ai.fullResponse s0)).
    split; [done|]. simpl in *. rewrite Hps, Hev.
    split; [done|]. split; [done|]. split; [done|]. left. eauto.
  - apply steps_emitted in Hsteps as (evs & Hev & Hnt). simpl in Hev.
    destruct (Hraise e eq_refl) as (rnd & p & Hrnd & Hp & Hf).
    case_bool_decide as Hname.
    + exists (Ai.emit_error o e s1), evs, (Ai.Failed e).
      split; [done|]. simpl. rewrite Hps, Hev.
      split; [done|]. split; [done|]. split; [done|]. right.
      exists e, rnd, p. repeat split; try done.
    + exists (Ai.emit_done o s1), evs, (Ai.Done (Ai.fullResponse s1)).
      split; [done|]. simpl. rewrite Hps, Hev.
    split; [done|]. split; [done|]. split; [done|]. left. eauto.
Qed.

(** The provider that asks for a tool in every round is cut after the tenth
    request, and the completion callback is invoked. *)
Lemma adapter_ends_within_ten_rounds_witness :
  ∃ s evs final,
    Ai.streamOpenAI Demo.JSON_parse Demo.always_calls Demo.plain_options Demo.store ()
    = inr s
    ∧ length (Ai.requests s) ≤ Ai.MAX_ROUNDS
    ∧ Ai.emitted s = evs ++ [final]
    ∧ Forall (λ ev, ¬ Trace.terminal ev) evs
    ∧ ((∃ text, final = Ai.Done text)
       ∨ ∃ e rnd p, final = Ai.Failed e ∧ Ai.name e ≠ "AbortError"
                    ∧ rnd < Ai.MAX_ROUNDS ∧ p ∈ Ai.requests s
                    ∧ Trace.failure (Demo.always_calls rnd p) = Some e).
Proof.
  apply (adapter_ends_within_ten_rounds Demo.JSON_parse Demo.always_calls
           Demo.plain_options Demo.store () "sk-test" Demo.question);
    reflexivity.
Defined.

Example always_calls_ten_requests :
  match Ai.streamOpenAI Demo.JSON_parse Demo.always_calls Demo.plain_options Demo.store () with
  | inr s => Some (length (Ai.requests s), Ai.emitted s)
  | inl _ => None
  end = Some (10, [Ai.Done EmptyString]).
Proof. vm_compute. reflexivity. Qed.

(** The claim with [and then emits the completion event] for every
    behaviour fails on a stream that breaks: the error callback ends the
    call, and the completion callback is not invoked. *)
Lemma broken_stream_does_not_complete :
  ¬ Trace.completes
      (Ai.streamOpenAI Demo.JSON_parse (Demo.breaks_with (Ai.Error "socket hang up"))
         Demo.plain_options Demo.store ()).
Proof.
  intros (s & Hs & _ & text & Hlast).
  vm_compute in Hs. injection Hs as <-. vm_compute in Hlast. discriminate.
Qed.

(** C10: a resolved call of [streamChat] leaves the caller's message array,
    and every array that was in the store, as it was; with the provider
    ['openai'] the new turns are appended to a copy at a fresh address,
    which starts with the caller's messages. *)
Theorem caller_messages_untouched {Σ : Type}
    (JSON_parse : string → option (gmap string string))
    (provider : nat → Ai.params → Ai.completion)
    (o : Ai.options (Σ := Σ)) h σ s :
  Ai.streamChat JSON_parse provider o h σ = inr s →
  Ai.heap s !! Ai.messages o = h !! Ai.messages o
  ∧ (∀ l, l ∈ dom h → Ai.heap s !! l = h !! l)
  ∧ (default "openai" (Ai.provider_id o) = "openai" →
     ∃ msgs extra, h !! Ai.messages o = Some msgs
                   ∧ Ai.heap s !! fresh (dom h) = Some (msgs ++ extra)).
Proof.
  unfold Ai.streamChat. case_decide as Hp.
  2: { intros [= <-]. simpl. done. }
  intros Hs.
  destruct (streamOpenAI_resolved _ _ _ _ _ _ Hs) as (msgs & s1 & out & Hm & Hrun & Hfin).
  assert (∃ s0, Trace.steps o (fresh (dom h))
                  (Ai.init (<[fresh (dom h) := msgs]> h) σ) s0
                ∧ Ai.heap s = Ai.heap s0) as (s0 & Hsteps & ->).
  { pose proof (rounds_steps _ _ _ _ _ _ _ _ _ Hrun) as Hsteps. subst s.
    destruct out as [| |e]; [by exists s1 | | exists s1; by destruct (bool_decide _)].
    destruct Hsteps as (s0 & ? & ->). by exists s0. }
  apply steps_heap in Hsteps as [Hframe [extra Hcopy]]. simpl in *.
  assert (Hdom : ∀ l, l ∈ dom h → Ai.heap s0 !! l = h !! l).
  { intros l Hl. assert (l ≠ fresh (dom h)) by (intros ->; by apply is_fresh in Hl).
    rewrite Hframe by done. by rewrite lookup_insert_ne. }
  split; [apply Hdom, elem_of_dom; eauto|]. split; [done|].
  intros _. exists msgs, extra. split; [done|].
  by rewrite Hcopy, lookup_insert_eq.
Qed.

(** Ten rounds of tool calls: twenty turns were appended to the copy at
    address 1, and the caller's array at address 0 still holds its two
    messages. *)
Lemma caller_messages_untouched_witness :
  Ai.heap Demo.ten_rounds !! 0 = Some Demo.question
  ∧ length <$> Ai.heap Demo.ten_rounds !! 1 = Some 22.
Proof.
  assert (H : Ai.streamChat Demo.JSON_parse Demo.always_calls Demo.plain_options
                Demo.store () = inr Demo.ten_rounds) by (vm_compute; reflexivity).
  split; [|vm_compute; reflexivity].
  exact (proj1 (caller_messages_untouched Demo.JSON_parse Demo.always_calls
                  Demo.plain_options Demo.store () Demo.ten_rounds H)).
Defined.

(** ** The chat route *)

Lemma append_assoc (a b c : string) : (a +:+ b) +:+ c = a +:+ (b +:+ c).
Proof.
  induction a as [|x a IH]; [done|].
  change (String x ((a +:+ b) +:+ c) = String x (a +:+ (b +:+ c))). by f_equal.
Qed.

Lemma append_empty_r (a : string) : a +:+ EmptyString = a.
Proof.
  induction a as [|x a IH]; [done|].
  change (String x (a +:+ EmptyString) = String x a). by f_equal.
Qed.

Section RouteFacts.

Variable JSON_parse : string → option (gmap string string).
Variable URL_parse : string → option Mcp.url.
Variable JSON_envelope : string → Ai.exn + Mcp.envelope.
Variable fetch : Mcp.request → Mcp.fetch_result.
Variable tavily_search : string → string → gmap string string → string.
Variable image_generate : string → string → gmap string string → string.
Variable provider : nat → Ai.params → Ai.completion.
Variable extraction : string → string → option (list string).
Variable now : nat.

Variable cfg : gmap string string.
Variable userId convId : nat.
Variable mode : string.
Variable userApiKey : option string.
Variable toolContext : Tools.context.
Variable memory : list Db.memory_row.
Variable allTools : list Tools.tool_def.
Variable mcpToolServerMap : gmap string Mcp.server_info.
Variable apiMessages : nat.

#[local] Abbreviation options :=
  (AiRoute.chat_options URL_parse JSON_envelope fetch tavily_search image_generate
     extraction now cfg userId convId mode userApiKey toolContext memory allTools
     mcpToolServerMap apiMessages).

#[local] Abbreviation executor :=
  (AiRoute.toolExecutor URL_parse JSON_envelope fetch tavily_search image_generate now
     toolContext mcpToolServerMap).

(** The built-in tools write to the memory table only. *)
Lemma handleBuiltinTool_messages name args ctx d :
  let d' := (Tools.handleBuiltinTool tavily_search image_generate now name args ctx d).2 in
  Db.messages d' = Db.messages d ∧ Db.seq_messages d' = Db.seq_messages d.
Proof.
  unfold Tools.handleBuiltinTool.
  repeat (case_decide || case_match); simpl; done.
Qed.

Lemma streaming_from_refl s0 : Cancel.streaming_from s0 s0.
Proof. repeat split. exists []. by rewrite app_nil_r. Qed.

Lemma streaming_from_sse s0 σ ev :
  Cancel.streaming ev → Cancel.streaming_from s0 σ → Cancel.streaming_from s0 (AiRoute.sse ev σ).
Proof.
  intros Hev (Hm & Hs & He & evs & Hw & Hevs). repeat split; simpl; try done.
  exists (evs ++ [ev]). rewrite Hw, app_assoc. split; [done|].
  apply Forall_app. split; [done|]. by constructor.
Qed.

Lemma toolExecutor_streaming s0 name args σ :
  Cancel.streaming_from s0 σ → Cancel.streaming_from s0 (executor name args σ).2.
Proof.
  intros H. unfold AiRoute.toolExecutor.
  destruct (AiRoute.is_builtin name).
  - pose proof (handleBuiltinTool_messages name args toolContext (AiRoute.db σ)) as Hd.
    destruct (Tools.handleBuiltinTool _ _ _ _ _ _ _) as [result d]. simpl in Hd.
    destruct Hd as [Hd1 Hd2].
    assert (Hs1 : Cancel.streaming_from s0 (AiRoute.set_db d σ)).
    { destruct H as (Hm & Hs & He & Hw). repeat split; simpl; try done; congruence. }
    destruct (Js.startsWith result _); simpl; [|done].
    by apply streaming_from_sse.
  - destruct (mcpToolServerMap !! name) as [info|]; simpl; [|done].
    destruct (Mcp.callTool _ _ _ _ _ _ _ _) as [[e|contents] n]; simpl; exact H.
Qed.

Lemma toolExecutor_fullResponse name args σ :
  AiRoute.fullResponse (executor name args σ).2 = AiRoute.fullResponse σ.
Proof.
  unfold AiRoute.toolExecutor.
  destruct (AiRoute.is_builtin name).
  - destruct (Tools.handleBuiltinTool _ _ _ _ _ _ _) as [result d].
    by destruct (Js.startsWith result _).
  - destruct (mcpToolServerMap !! name) as [info|]; simpl; [|done].
    by destruct (Mcp.callTool _ _ _ _ _ _ _ _) as [[e|contents] n].
Qed.

Lemma steps_streaming msgsCopy s0 (st st' : Ai.state) :
  Trace.steps options msgsCopy st st' →
  Cancel.streaming_from s0 (Ai.caller st) → Cancel.streaming_from s0 (Ai.caller st').
Proof.
  apply (steps_caller options msgsCopy (Cancel.streaming_from s0)).
  - intros d h σ H. unfold AiRoute.onChunk.
    apply streaming_from_sse; [done|].
    destruct H as (Hm & Hs & He & Hw). by repeat split.
  - intros f name args h σ [= <-] H. by apply streaming_from_sse.
  - intros f name text h σ [= <-] H. by apply streaming_from_sse.
  - intros exec name args σ [= <-] H. by apply toolExecutor_streaming.
Qed.

(** The handler's own [fullResponse] follows the adapter's. *)
Lemma steps_fullResponse msgsCopy (st st' : Ai.state) f0 :
  Trace.steps options msgsCopy st st' →
  AiRoute.fullResponse (Ai.caller st) = f0 +:+ Ai.fullResponse st →
  AiRoute.fullResponse (Ai.caller st') = f0 +:+ Ai.fullResponse st'.
Proof.
  induction 1 as [st | st st1 st2 Hstep _ IH]; [done|].
  intros H. apply IH.
  destruct Hstep as [s p | s d | s f name args Hf | s exec name args r σ Hex E
                    | s f name text Hf | s m]; simpl in *.
  - done.
  - by rewrite H, append_assoc.
  - by injection Hf as <-.
  - injection Hex as <-.
    pose proof (toolExecutor_fullResponse name args (Ai.caller s)) as Hx.
    rewrite E in Hx. simpl in Hx. by rewrite Hx.
  - by injection Hf as <-.
  - done.
Qed.

(** The completion callback on a session that was streaming. *)
Lemma onDone_streaming s0 text h σ :
  Cancel.streaming_from s0 σ →
  let σ' := AiRoute.onDone extraction now cfg userId convId apiMessages userApiKey
              memory text h σ in
  Db.messages (AiRoute.db σ')
  = Db.messages (AiRoute.db s0)
    ++ [{| Db.msg_id := S (Db.seq_messages (AiRoute.db s0));
           Db.msg_conversation_id := convId; Db.msg_role := Db.assistant;
           Db.msg_content := AiRoute.fullResponse σ; Db.msg_created_at := now |}]
  ∧ AiRoute.ended σ' = true
  ∧ AiRoute.fullResponse σ' = AiRoute.fullResponse σ
  ∧ ∃ evs, AiRoute.written σ' = AiRoute.written s0 ++ evs ++ [AiRoute.done]
           ∧ Forall Cancel.streaming evs.
Proof.
  intros (Hm & Hs & He & evs & Hw & Hevs). unfold AiRoute.onDone.
  assert (Hfacts : ∀ facts d,
            Db.messages (foldl (λ d f, Db.insert_memory now userId f d) d facts)
            = Db.messages d).
  { induction facts as [|f facts IH]; intros d; simpl; [done|]. by rewrite IH. }
  destruct (_ && _); simpl; rewrite ?Hfacts; simpl; rewrite Hm, Hs, Hw, <- app_assoc;
    (split; [done|]); (split; [done|]); (split; [done|]); by exists evs.
Qed.

End RouteFacts.

Section ChatReply.

Variable JSON_parse : string → option (gmap string string).
Variable URL_parse : string → option Mcp.url.
Variable JSON_envelope : string → Ai.exn + Mcp.envelope.
Variable fetch : Mcp.request → Mcp.fetch_result.
Variable tavily_search : string → string → gmap string string → string.
Variable image_generate : string → string → gmap string string → string.
Variable provider : nat → Ai.params → Ai.completion.
Variable extraction : string → string → option (list string).
Variable now : nat.


(** Every chat that reaches [streamChat] with a key ends in one of two
    ways: by the completion callback, which persists the assistant message
    and writes [done], or, when the provider failed with an error that is
    not an abort, by the error callback, which persists nothing and writes
    [error]. *)
Lemma chat_reply_outcome cfg userId convId mode userApiKey toolContext memory
    allTools mcpToolServerMap apiMessages h s k msgs :
  default "openai" (cfg !! "provider") = "openai" →
  Ai.makeOpenAIClient userApiKey = inr k →
  h !! apiMessages = Some msgs →
  ∃ st evs,
    AiRoute.respond JSON_parse URL_parse JSON_envelope fetch tavily_search image_generate
      provider extraction now cfg userId convId mode userApiKey toolContext memory
      allTools mcpToolServerMap apiMessages h s = inr st
    ∧ Forall Cancel.streaming evs
    ∧ AiRoute.ended (Ai.caller st) = true
    ∧ ((last (Ai.emitted st) = Some (Ai.Done (Ai.fullResponse st))
        ∧ AiRoute.written (Ai.caller st) = AiRoute.written s ++ evs ++ [AiRoute.done]
        ∧ Db.messages (AiRoute.db (Ai.caller st))
          = Db.messages (AiRoute.db s)
            ++ [{| Db.msg_id := S (Db.seq_messages (AiRoute.db s));
                   Db.msg_conversation_id := convId; Db.msg_role := Db.assistant;
                   Db.msg_content := AiRoute.fullResponse s +:+ Ai.fullResponse st;
                   Db.msg_created_at := now |}])
       ∨ (∃ e, Ai.name e ≠ "AbortError"
               ∧ last (Ai.emitted st) = Some (Ai.Failed e)
               ∧ AiRoute.written (Ai.caller st)
                 = AiRoute.written s ++ evs
                   ++ [AiRoute.error (Js.or_else (Ai.message e) "AI error")]
               ∧ Db.messages (AiRoute.db (Ai.caller st)) = Db.messages (AiRoute.db s))).
Proof.
  intros Hp Hk Hm.
  unfold AiRoute.respond, Ai.streamChat. rewrite decide_True by exact Hp.
  unfold Ai.streamOpenAI.
  cbn [Ai.messages Ai.apiKey AiRoute.chat_options]. rewrite Hk, Hm.
  destruct (Ai.alloc h msgs) as [msgsCopy h'].
  destruct (Ai.rounds _ _ _ _ _ _ _) as [s1 out] eqn:Hrun.
  apply rounds_steps in Hrun.
  assert (Hdone : ∀ s0 : Ai.state,
            Trace.steps
              (AiRoute.chat_options URL_parse JSON_envelope fetch tavily_search
                 image_generate extraction now cfg userId convId mode userApiKey
                 toolContext memory allTools mcpToolServerMap apiMessages)
              msgsCopy (Ai.init h' s) s0 →
            ∃ evs, Forall Cancel.streaming evs
              ∧ AiRoute.ended (Ai.caller (Ai.emit_done
                  (AiRoute.chat_options URL_parse JSON_envelope fetch tavily_search
                     image_generate extraction now cfg userId convId mode userApiKey
                     toolContext memory allTools mcpToolServerMap apiMessages) s0)) = true
              ∧ AiRoute.written (Ai.caller (Ai.emit_done
                  (AiRoute.chat_options URL_parse JSON_envelope fetch tavily_search
                     image_generate extraction now cfg userId convId mode userApiKey
                     toolContext memory allTools mcpToolServerMap apiMessages) s0))
                = AiRoute.written s ++ evs ++ [AiRoute.done]
              ∧ Db.messages (AiRoute.db (Ai.caller (Ai.emit_done
                  (AiRoute.chat_options URL_parse JSON_envelope fetch tavily_search
                     image_generate extraction now cfg userId convId mode userApiKey
                     toolContext memory allTools mcpToolServerMap apiMessages) s0)))
                = Db.messages (AiRoute.db s)
                  ++ [{| Db.msg_id := S (Db.seq_messages (AiRoute.db s));
                         Db.msg_conversation_id := convId; Db.msg_role := Db.assistant;
                         Db.msg_content := AiRoute.fullResponse s +:+ Ai.fullResponse s0;
                         Db.msg_created_at := now |}]).
  { intros s0 Hsteps.
    pose proof (steps_streaming _ _ _ _ _ _ _ _ _ _ _ _ _ _ _ _ _ _ s _ _ Hsteps
                  (streaming_from_refl s)) as Hstream.
    pose proof (steps_fullResponse _ _ _ _ _ _ _ _ _ _ _ _ _ _ _ _ _ _ _ _
                  (AiRoute.fullResponse s) Hsteps) as Hfull.
    simpl in Hfull. rewrite append_empty_r in Hfull. specialize (Hfull eq_refl).
    destruct (onDone_streaming extraction now cfg userId convId userApiKey memory
                apiMessages s (Ai.fullResponse s0) (Ai.heap s0) (Ai.caller s0) Hstream)
      as (Hmsgs & Hend & Hfr & evs & Hw & Hevs).
    exists evs. simpl. rewrite Hmsgs, Hfull. done. }
  destruct out as [| |e].
  - destruct (Hdone s1 Hrun) as (evs & Hevs & Hend & Hw & Hmsgs).
    eexists; exists evs. split; [reflexivity|]. split; [done|]. split; [done|].
    left. split; [simpl; by rewrite last_snoc|]. done.
  - destruct Hrun as (s0 & Hsteps & ->).
    destruct (Hdone s0 Hsteps) as (evs & Hevs & Hend & Hw & Hmsgs).
    eexists; exists evs. split; [reflexivity|]. split; [done|]. split; [done|].
    left. split; [simpl; by rewrite last_snoc|]. done.
  - case_bool_decide as Hname.
    + pose proof (steps_streaming _ _ _ _ _ _ _ _ _ _ _ _ _ _ _ _ _ _ s _ _ Hrun
                    (streaming_from_refl s)) as (Hmsgs & _ & _ & evs & Hw & Hevs).
      eexists; exists evs. split; [reflexivity|]. split; [done|]. split; [done|].
      right. exists e. split; [done|]. simpl. split; [by rewrite last_snoc|].
      by rewrite Hw, <- app_assoc.
    + destruct (Hdone s1 Hrun) as (evs & Hevs & Hend & Hw & Hmsgs).
      eexists; exists evs. split; [reflexivity|]. split; [done|]. split; [done|].
      left. split; [simpl; by rewrite last_snoc|]. done.
Qed.

End ChatReply.


Example cancelled_in_round_two_persists :
  (λ s, (map Db.msg_content (Db.messages (AiRoute.db s)), AiRoute.written s,
         map Db.mem_content (Db.memory (AiRoute.db s))))
    <$> Demo.session_of
          (AiRoute.streamed
             (AiRoute.respond Demo.JSON_parse Demo.URL_parse Demo.no_envelope Demo.no_fetch
                Demo.no_search Demo.no_image Demo.cancelled_in_round_two (λ _ _, None) 205
                AiRoute.DEFAULTS 1 1 "normal" (Some "sk-test") Demo.ctx1 []
                Tools.BUILTIN_TOOLS ∅ 0 Demo.store Demo.asked))
  = Some (["hi"; "One moment. I have no"],
          [AiRoute.conv_id 1; AiRoute.delta "One moment. ";
           AiRoute.tool_call "memory_save" {[ "fact" := "Lives in Berlin" ]};
           AiRoute.tool_result "memory_save"
             ("✓ Already remembered: " +:+ Js.quote +:+ "Lives in Berlin" +:+ Js.quote);
           AiRoute.delta "I have no"; AiRoute.done],
          ["Lives in Berlin"]).
Proof. vm_compute. reflexivity. Qed.

(** The same chat when the aborted stream of its second round ends without
    an exception, as the client library ends it: the row that is persisted
    is the same, and the events end with [done]. *)
Example cancelled_stream_that_ends_persists :
  (λ s, (map Db.msg_content (Db.messages (AiRoute.db s)), AiRoute.written s))
    <$> Demo.session_of
          (AiRoute.streamed
             (AiRoute.respond Demo.JSON_parse Demo.URL_parse Demo.no_envelope Demo.no_fetch
                Demo.no_search Demo.no_image Samples.ends_in_round_two (λ _ _, None) 205
                AiRoute.DEFAULTS 1 1 "normal" (Some "sk-test") Demo.ctx1 []
                Tools.BUILTIN_TOOLS ∅ 0 Demo.store Demo.asked))
  = Some (["hi"; "One moment. I have no"],
          [AiRoute.conv_id 1; AiRoute.delta "One moment. ";
           AiRoute.tool_call "memory_save" {[ "fact" := "Lives in Berlin" ]};
           AiRoute.tool_result "memory_save"
             ("✓ Already remembered: " +:+ Js.quote +:+ "Lives in Berlin" +:+ Js.quote);
           AiRoute.delta "I have no"; AiRoute.done]).
Proof. vm_compute. reflexivity. Qed.

(** A request that is aborted before its stream starts fails with an error
    whose name is not [AbortError] (the client library throws its own
    error): the adapter reports it, the handler writes [error], and no
    assistant message is stored. *)
Example aborted_request_is_an_error :
  (λ s, (map Db.msg_content (Db.messages (AiRoute.db s)), AiRoute.written s))
    <$> Demo.session_of
          (AiRoute.streamed
             (AiRoute.respond Demo.JSON_parse Demo.URL_parse Demo.no_envelope Demo.no_fetch
                Demo.no_search Demo.no_image Samples.aborted_request (λ _ _, None) 205
                AiRoute.DEFAULTS 1 1 "normal" (Some "sk-test") Demo.ctx1 []
                Tools.BUILTIN_TOOLS ∅ 0 Demo.store Demo.asked))
  = Some (["hi"], [AiRoute.conv_id 1; AiRoute.error "Request was aborted."]).
Proof. vm_compute. reflexivity. Qed.


(** ** The remote tool gateway *)

Section GuardFacts.

(** The pattern of the code matches every host the contract names. *)
Lemma private_pattern_matches host :
  Ssrf.private_pattern (Js.toLowerCase host) → Mcp.PRIVATE_IP_RE host = true.
Proof.
  unfold Mcp.PRIVATE_IP_RE. cbv zeta.
  generalize (Js.toLowerCase host). intros h H.
  destruct H as [rest | rest | a b rest Ha Hb Hab | rest | rest | rest | rest
                | rest | rest].
  3: { assert ((a = 1 ∧ (b = 6 ∨ b = 7 ∨ b = 8 ∨ b = 9))
               ∨ (a = 2 ∧ (b = 0 ∨ b = 1 ∨ b = 2 ∨ b = 3 ∨ b = 4 ∨ b = 5 ∨ b = 6
                           ∨ b = 7 ∨ b = 8 ∨ b = 9))
               ∨ (a = 3 ∧ (b = 0 ∨ b = 1))) as Hcases by lia.
       clear Ha Hb Hab.
       repeat match goal with
              | H : _ ∨ _ |- _ => destruct H
              | H : _ ∧ _ |- _ => destruct H
              end; subst; by vm_compute. }
  all: destruct rest as [|? [|? [|? [|? [|? rest]]]]]; by vm_compute.
Qed.

Lemma prefix_split p s :
  String.prefix p s = true → ∃ rest, s = p +:+ rest.
Proof.
  revert s. induction p as [|c p IH]; intros s.
  { intros _. by exists s. }
  destruct s as [|c' s]; simpl; [done|].
  destruct (Ascii.ascii_dec c c') as [<-|]; [|done].
  intros H. destruct (IH s H) as [rest ->]. by exists rest.
Qed.

Lemma digit_between_inv lo hi c :
  Mcp.digit_between lo hi c = true →
  ∃ n, lo ≤ n ≤ hi ∧ String c EmptyString = Ssrf.digit n.
Proof.
  unfold Mcp.digit_between, Ssrf.digit. cbv zeta.
  rewrite andb_true_iff, !Nat.leb_le. intros [H1 H2].
  exists (nat_of_ascii c - 48). split; [lia|].
  replace (48 + (nat_of_ascii c - 48)) with (nat_of_ascii c) by lia.
  by rewrite ascii_nat_embedding.
Qed.

Lemma range_172_inv h :
  Mcp.range_172 h = true →
  ∃ a b rest, a < 10 ∧ b < 10 ∧ 16 ≤ 10 * a + b ≤ 31
              ∧ h = "172." +:+ Ssrf.digit a +:+ Ssrf.digit b +:+ "." +:+ rest.
Proof.
  destruct h as [|c1 [|c2 [|c3 [|c4 [|c5 [|c6 [|c7 rest]]]]]]]; try done.
  unfold Mcp.range_172.
  rewrite !andb_true_iff, !orb_true_iff, !andb_true_iff, !bool_decide_eq_true.
  intros [[[[[-> ->] ->] ->] Hmid] ->].
  destruct Hmid as [[[-> Hd] | [-> Hd]] | [-> Hd]];
    apply digit_between_inv in Hd as (b & Hb & Hc6).
  - exists 1, b, rest. repeat split; try lia. rewrite <- Hc6. reflexivity.
  - exists 2, b, rest. repeat split; try lia. rewrite <- Hc6. reflexivity.
  - exists 3, b, rest. repeat split; try lia. rewrite <- Hc6. reflexivity.
Qed.

(** Conversely, the pattern of the code matches no other host: it is the
    list of the contract. *)
Lemma private_pattern_complete host :
  Mcp.PRIVATE_IP_RE host = true → Ssrf.private_pattern (Js.toLowerCase host).
Proof.
  unfold Mcp.PRIVATE_IP_RE. cbv zeta. generalize (Js.toLowerCase host). intros h.
  rewrite !orb_true_iff.
  intros [[[[[[[[H|H]|H]|H]|H]|H]|H]|H]|H];
    try (apply prefix_split in H as [rest ->]; by constructor).
  apply range_172_inv in H as (a & b & rest & Ha & Hb & Hab & ->).
  by constructor.
Qed.

Lemma refused_host_matches host :
  Ssrf.refused_host host →
  Mcp.PRIVATE_IP_RE host || bool_decide (host = "localhost") = true.
Proof.
  intros [H | ->].
  - by rewrite private_pattern_matches.
  - by vm_compute.
Qed.

Variable URL_parse : string → option Mcp.url.
Variable JSON_envelope : string → Ai.exn + Mcp.envelope.
Variable fetch : Mcp.request → Mcp.fetch_result.

Lemma validateMcpUrl_refuses rawUrl :
  Ssrf.refused_url URL_parse rawUrl →
  ∃ e, Mcp.validateMcpUrl URL_parse rawUrl = inl e ∧ e ∈ Ssrf.descriptive.
Proof.
  unfold Ssrf.refused_url, Mcp.validateMcpUrl, Ssrf.descriptive.
  destruct (URL_parse rawUrl) as [u|].
  2: { intros _. eexists. split; [done|]. unfold Ssrf.descriptive; rewrite !elem_of_cons; auto. }
  intros H.
  destruct (bool_decide (Mcp.protocol u ≠ "http:") && bool_decide (Mcp.protocol u ≠ "https:"))
    eqn:Hproto.
  { eexists. split; [done|]. unfold Ssrf.descriptive; rewrite !elem_of_cons; auto. }
  destruct H as [[H1 H2] | H].
  { rewrite !bool_decide_eq_true_2 in Hproto by done. done. }
  rewrite refused_host_matches by done.
  eexists. split; [done|]. unfold Ssrf.descriptive; rewrite !elem_of_cons; auto.
Qed.

(** A request to a refused URL throws before it takes a request id or
    reaches [fetch]. *)
Lemma mcpRequest_refuses serverUrl method params a n :
  Ssrf.refused_url URL_parse serverUrl →
  ∃ e, Mcp.mcpRequest URL_parse JSON_envelope fetch serverUrl method params a n = (inl e, n)
       ∧ e ∈ Ssrf.descriptive.
Proof.
  intros H. destruct (validateMcpUrl_refuses serverUrl H) as (e & He & Hin).
  exists e. split; [|done].
  unfold Mcp.mcpRequest, mbind, Mcp.M_bind. by rewrite He.
Qed.

End GuardFacts.

(** A request of the gateway to a URL that the platform does not parse as
    an absolute http or https URL, or whose host name as the platform gives
    it matches a loopback, RFC 1918 or link-local pattern, or starts with
    [::1], [fc], [fd] or [fe80], or is "localhost", throws one of the three
    errors of [validateMcpUrl] and leaves the wire and the request counter
    as they were; so do discovery and invocation, which turn the error into
    an empty listing and into an error block. *)
Lemma refused_url_reaches_no_network
    (URL_parse : string → option Mcp.url)
    (JSON_envelope : string → Ai.exn + Mcp.envelope)
    (fetch : Mcp.request → Mcp.fetch_result)
    serverUrl method params a n :
  Ssrf.refused_url URL_parse serverUrl →
  (∃ e, Mcp.mcpRequest URL_parse JSON_envelope fetch serverUrl method params a n = (inl e, n)
        ∧ e ∈ Ssrf.descriptive)
  ∧ Mcp.listTools URL_parse JSON_envelope fetch serverUrl a n = (inr [], n)
  ∧ ∃ e, e ∈ Ssrf.descriptive
         ∧ ∀ toolName args,
             Mcp.callTool URL_parse JSON_envelope fetch serverUrl toolName args a n
             = (inr [{| Mcp.cb_type := "text";
                        Mcp.cb_text := "Tool error: " +:+ Ai.message e;
                        Mcp.cb_json := "Tool error: " +:+ Ai.message e |}], n).
Proof.
  intros H. split; [by apply mcpRequest_refuses|].
  destruct (mcpRequest_refuses URL_parse JSON_envelope fetch serverUrl "initialize"
              Mcp.initialize_params a n H) as (e & He & Hin).
  split.
  - unfold Mcp.listTools, Mcp.try_catch, Mcp.mcpInitialize, mbind, Mcp.M_bind.
    by rewrite He.
  - exists e. split; [done|]. intros toolName args.
    unfold Mcp.callTool, Mcp.try_catch, Mcp.mcpInitialize, mbind, Mcp.M_bind.
    by rewrite He.
Qed.

Example refused_url_is_not_listed :
  Mcp.listTools Demo.URL_parse Demo.echo_envelope Demo.echo_fetch
    "http://127.0.0.1/x" None Mcp.boot = (inr [], Mcp.boot).
Proof.
  apply (refused_url_reaches_no_network Demo.URL_parse Demo.echo_envelope Demo.echo_fetch
           "http://127.0.0.1/x" "tools/list" Mcp.no_params None Mcp.boot).
  right. left. apply (Ssrf.loopback_v4 "0.0.1").
Qed.

(** The pattern of the guard matches no host name in brackets. *)
Lemma bracketed_host_passes rest : Mcp.PRIVATE_IP_RE ("[" +:+ rest) = false.
Proof. destruct rest as [|? [|? [|? [|? [|? [|? rest]]]]]]; by vm_compute. Qed.

(** C4: the claim that the gateway refuses every URL whose host name is an
    IPv6 loopback, unique-local or link-local address fails.  The platform
    gives the host name of an IPv6 literal with its brackets ([[::1]] for
    [http://[::1]/mcp]), and the alternatives [::1], [fc], [fd] and [fe80]
    of the pattern are anchored at the head of the host name: no host name
    in brackets matches.  So the guard accepts [http://[::1]/mcp],
    [http://[fd00::1]/mcp] and [https://[fe80::1]:8080/mcp], the request
    goes to [fetch], and the tools of the loopback server are listed; the
    IPv4 loopback address is refused. *)
Theorem ipv6_literals_pass_the_guard :
  (∀ rest, Mcp.PRIVATE_IP_RE ("[" +:+ rest) = false)
  ∧ (∀ URL_parse JSON_envelope fetch rawUrl proto rest method params a n,
       URL_parse rawUrl = Some {| Mcp.protocol := proto; Mcp.hostname := "[" +:+ rest |} →
       proto = "http:" ∨ proto = "https:" →
       Mcp.validateMcpUrl URL_parse rawUrl = inr ()
       ∧ Mcp.wire (Mcp.mcpRequest URL_parse JSON_envelope fetch rawUrl method params a n).2
         = Mcp.wire n
           ++ [{| Mcp.req_url := rawUrl; Mcp.req_authorization := Mcp.authorization a;
                  Mcp.req_id := Mcp.reqId n; Mcp.req_method := method;
                  Mcp.req_params := params |}])
  ∧ map (λ u, Mcp.hostname <$> Demo.URL_parse u)
        ["http://[::1]/mcp"; "http://[fd00::1]/mcp"; "https://[fe80::1]:8080/mcp"]
    = [Some "[::1]"; Some "[fd00::1]"; Some "[fe80::1]"]
  ∧ map (Mcp.validateMcpUrl Demo.URL_parse)
        ["http://[::1]/mcp"; "http://[fd00::1]/mcp"; "https://[fe80::1]:8080/mcp"]
    = [inr (); inr (); inr ()]
  ∧ Mcp.listTools Demo.URL_parse Demo.echo_envelope Demo.echo_fetch
      "http://[::1]/mcp" None Mcp.boot
    = (inr [{| Mcp.tool_name := "search"; Mcp.tool_description := None |}],
       {| Mcp.reqId := 3;
          Mcp.wire :=
            [{| Mcp.req_url := "http://[::1]/mcp"; Mcp.req_authorization := None;
                Mcp.req_id := 1; Mcp.req_method := "initialize";
                Mcp.req_params := Mcp.initialize_params |};
             {| Mcp.req_url := "http://[::1]/mcp"; Mcp.req_authorization := None;
                Mcp.req_id := 2; Mcp.req_method := "tools/list";
                Mcp.req_params := Mcp.no_params |}] |})
  ∧ Mcp.validateMcpUrl Demo.URL_parse "http://127.0.0.1/mcp"
    = inl (Ai.Error "MCP server URL must not point to a private or loopback address").
Proof.
  split; [exact bracketed_host_passes|]. split.
  { intros URL_parse JSON_envelope fetch rawUrl proto rest method params a n Hparse Hproto.
    assert (Hv : Mcp.validateMcpUrl URL_parse rawUrl = inr ()).
    { unfold Mcp.validateMcpUrl. rewrite Hparse. cbn [Mcp.protocol Mcp.hostname].
      rewrite bracketed_host_passes.
      destruct Hproto as [-> | ->]; reflexivity. }
    split; [done|].
    unfold Mcp.mcpRequest, mbind, Mcp.M_bind, Mcp.lift, Mcp.nextId, Mcp.do_fetch.
    rewrite Hv. simpl.
    destruct (fetch _) as [e|res]; simpl; [done|].
    destruct (negb (Mcp.ok res)); simpl; [done|].
    destruct (Js.includes _ _); simpl.
    { by destruct (Mcp.readSSEResult _ _ _). }
    destruct (JSON_envelope _) as [e|json]; simpl; [done|].
    by destruct (Mcp.env_error json). }
  by vm_compute.
Qed.

Example refused_urls :
  map (λ u, Mcp.validateMcpUrl Demo.URL_parse u)
      ["http://127.0.0.1/x"; "http://192.168.1.5/"; "http://localhost/";
       "http://10.0.0.8:8080/mcp"; "https://172.16.0.1/"; "http://169.254.169.254/latest";
       "ftp://tools.example/"; "tools.example/mcp"]
  = [inl (Ai.Error "MCP server URL must not point to a private or loopback address");
     inl (Ai.Error "MCP server URL must not point to a private or loopback address");
     inl (Ai.Error "MCP server URL must not point to a private or loopback address");
     inl (Ai.Error "MCP server URL must not point to a private or loopback address");
     inl (Ai.Error "MCP server URL must not point to a private or loopback address");
     inl (Ai.Error "MCP server URL must not point to a private or loopback address");
     inl (Ai.Error "MCP server URL must use http or https");
     inl (Ai.Error "Invalid MCP server URL")]
  ∧ Mcp.validateMcpUrl Demo.URL_parse "https://alpha.example/mcp" = inr ().
Proof. vm_compute. done. Qed.

Section CollisionFacts.

Variable URL_parse : string → option Mcp.url.
Variable JSON_envelope : string → Ai.exn + Mcp.envelope.
Variable JSON_parse : string → option (gmap string string).
Variable fetch : Mcp.request → Mcp.fetch_result.

(** After the tools of one server are merged, a name that was taken keeps
    its server, and a name that was free goes to this server if it lists
    it. *)
Lemma merge_tools_lookup srv a tools c name :
  Mcp.toolServerMap (Mcp.merge_tools srv a tools c) !! name
  = match Mcp.toolServerMap c !! name with
    | Some info => Some info
    | None => if Collision.lists name tools
              then Some {| Mcp.info_url := Db.srv_url srv; Mcp.info_auth := a |}
              else None
    end.
Proof.
  unfold Mcp.merge_tools. revert c.
  induction tools as [|t tools IH]; intros c.
  { simpl. by destruct (Mcp.toolServerMap c !! name). }
  cbn [foldl]. rewrite IH. unfold Collision.lists. simpl.
  destruct (Mcp.toolServerMap c !! Mcp.tool_name t) as [taken|] eqn:Ht; simpl.
  - case_bool_decide as Hn; simpl; [|done]. subst name. by rewrite Ht.
  - case_bool_decide as Hn; simpl.
    + subst name. by rewrite lookup_insert_eq, Ht.
    + by rewrite lookup_insert_ne.
Qed.

(** The catalogue gains an entry for a name exactly when the name was free
    and this server lists it. *)
Lemma merge_tools_entries srv a tools c name :
  Collision.entries_named name (Mcp.openaiTools (Mcp.merge_tools srv a tools c))
  = Collision.entries_named name (Mcp.openaiTools c)
    ++ match Mcp.toolServerMap c !! name with
       | Some _ => []
       | None => if Collision.lists name tools
                 then [{| Tools.tool_type := "function"; Tools.tool_name := name;
                          Tools.mcpServer := Some (Db.srv_url srv) |}]
                 else []
       end.
Proof.
  unfold Mcp.merge_tools. revert c.
  induction tools as [|t tools IH]; intros c.
  { simpl. destruct (Mcp.toolServerMap c !! name); simpl; by rewrite app_nil_r. }
  cbn [foldl]. rewrite IH. unfold Collision.lists, Collision.entries_named. simpl.
  destruct (Mcp.toolServerMap c !! Mcp.tool_name t) as [taken|] eqn:Ht; simpl.
  - case_bool_decide as Hn; simpl; [|done]. subst name. by rewrite Ht.
  - rewrite filter_app. case_bool_decide as Hn; simpl.
    + subst name. rewrite lookup_insert_eq, Ht.
      rewrite filter_cons_True by done. simpl. by rewrite app_nil_r.
    + rewrite lookup_insert_ne by done.
      rewrite filter_cons_False by done. simpl. by rewrite app_nil_r.
Qed.

(** Requests of the gateway go to the URL they are made for. *)
Lemma mcpRequest_wire serverUrl method params a n r n' :
  Mcp.mcpRequest URL_parse JSON_envelope fetch serverUrl method params a n = (r, n') →
  ∃ reqs, Mcp.wire n' = Mcp.wire n ++ reqs
          ∧ Forall (λ q, Mcp.req_url q = serverUrl) reqs.
Proof.
  unfold Mcp.mcpRequest, mbind, Mcp.M_bind, Mcp.lift, Mcp.nextId, Mcp.do_fetch.
  destruct (Mcp.validateMcpUrl URL_parse serverUrl) as [e|[]]; simpl.
  { intros [= <- <-]. exists []. by rewrite app_nil_r. }
  set (q := {| Mcp.req_url := serverUrl; Mcp.req_id := Mcp.reqId n |}).
  intros H. exists [q]. split; [|by repeat constructor].
  destruct (fetch q) as [e|res]; simpl in H.
  { by injection H as <- <-. }
  destruct (negb (Mcp.ok res)); simpl in H; [by injection H as <- <-|].
  destruct (Js.includes _ _); simpl in H.
  { destruct (Mcp.readSSEResult _ _ _); simpl in H; by injection H as <- <-. }
  destruct (JSON_envelope _) as [e|json]; simpl in H; [by injection H as <- <-|].
  destruct (Mcp.env_error json); simpl in H; by injection H as <- <-.
Qed.

Lemma callTool_wire serverUrl toolName args a n r n' :
  Mcp.callTool URL_parse JSON_envelope fetch serverUrl toolName args a n = (r, n') →
  ∃ reqs, Mcp.wire n' = Mcp.wire n ++ reqs
          ∧ Forall (λ q, Mcp.req_url q = serverUrl) reqs.
Proof.
  unfold Mcp.callTool, Mcp.try_catch, Mcp.mcpInitialize, mbind, Mcp.M_bind.
  destruct (Mcp.mcpRequest _ _ _ serverUrl "initialize" _ _ n) as [r1 n1] eqn:E1.
  apply mcpRequest_wire in E1 as (reqs1 & Hw1 & Hf1).
  destruct r1 as [e|res1]; simpl.
  { intros [= <- <-]. eauto. }
  destruct (Mcp.mcpRequest _ _ _ serverUrl "tools/call" _ _ n1) as [r2 n2] eqn:E2.
  apply mcpRequest_wire in E2 as (reqs2 & Hw2 & Hf2).
  assert (Hw : Mcp.wire n2 = Mcp.wire n ++ (reqs1 ++ reqs2)) by (by rewrite Hw2, Hw1, app_assoc).
  assert (Hf : Forall (λ q, Mcp.req_url q = serverUrl) (reqs1 ++ reqs2)) by (by apply Forall_app).
  destruct r2 as [e|res2]; simpl; intros [= <- <-]; eauto.
Qed.

(** Discovery never throws: a server that cannot be listed has no tools. *)
Lemma listTools_total serverUrl a n :
  ∃ tools n', Mcp.listTools URL_parse JSON_envelope fetch serverUrl a n = (inr tools, n').
Proof.
  unfold Mcp.listTools, Mcp.try_catch.
  match goal with
  | |- context [match ?m n with _ => _ end] => destruct (m n) as [[e|tools] n']
  end; simpl; eauto.
Qed.

End CollisionFacts.

#[local] Arguments Mcp.callTool : simpl never.

(** C2: the claim that, of two servers that offer a tool of the same name,
    the one enumerated first keeps the name fails.  [Demo.alpha] is
    enumerated before [Demo.beta], and each lists a tool named [search].
    When the two answers of [Demo.beta] arrive before those of [Demo.alpha],
    the callback of [Demo.beta] is the first to merge its tools: the routing
    table and the catalogue give [search] to [Demo.beta], the entry of
    [Demo.alpha] is dropped, and an invocation of [search] is sent to
    [Demo.beta].  When the answers arrive in the order of enumeration,
    [search] goes to [Demo.alpha]: which server is invoked depends on the
    network, against the comment "first server wins on name collision" over
    servers that are read in the order of their creation. *)
Theorem second_server_can_win :
  Demo.listings
  = [(Demo.alpha, [{| Mcp.tool_name := "search"; Mcp.tool_description := None |}]);
     (Demo.beta, [{| Mcp.tool_name := "search"; Mcp.tool_description := None |}])]
  ∧ (∃ c, Demo.discovered [1; 1] = Some c
          ∧ Mcp.toolServerMap c !! "search"
            = Some {| Mcp.info_url := Db.srv_url Demo.beta; Mcp.info_auth := None |}
          ∧ Collision.entries_named "search" (Mcp.openaiTools c)
            = [{| Tools.tool_type := "function"; Tools.tool_name := "search";
                  Tools.mcpServer := Some (Db.srv_url Demo.beta) |}]
          ∧ Mcp.wire (AiRoute.net
                        (AiRoute.toolExecutor Demo.URL_parse Demo.echo_envelope
                           Demo.echo_fetch Demo.no_search Demo.no_image 200 Demo.ctx1
                           (Mcp.toolServerMap c) "search" ∅ Demo.asked).2)
            = [{| Mcp.req_url := Db.srv_url Demo.beta; Mcp.req_authorization := None;
                  Mcp.req_id := 1; Mcp.req_method := "initialize";
                  Mcp.req_params := Mcp.initialize_params |};
               {| Mcp.req_url := Db.srv_url Demo.beta; Mcp.req_authorization := None;
                  Mcp.req_id := 2; Mcp.req_method := "tools/call";
                  Mcp.req_params := Mcp.call_params "search" ∅ |}]
          ∧ ¬ Collision.first_enumerated_wins Demo.JSON_parse Demo.listings c)
  ∧ (∃ c, Demo.discovered [0; 0] = Some c
          ∧ Mcp.toolServerMap c !! "search"
            = Some {| Mcp.info_url := Db.srv_url Demo.alpha; Mcp.info_auth := None |}).
Proof.
  split; [by vm_compute|]. split.
  - eexists. split; [vm_compute; reflexivity|].
    split; [by vm_compute|]. split; [by vm_compute|]. split; [by vm_compute|].
    intros H. specialize (H "search"). vm_compute in H. discriminate.
  - eexists. split; [vm_compute; reflexivity|]. by vm_compute.
Qed.

(** What discovery over [Demo.alpha] and [Demo.beta] puts on the wire when
    the answers of [Demo.beta] arrive first: the requests of the two
    callbacks interleave, and the ids follow the order of sending. *)
Example discovery_interleaves :
  map (λ q, (Mcp.req_id q, Mcp.req_method q, Mcp.req_url q))
      (Mcp.wire (Mcp.collectMCPTools Demo.URL_parse Demo.echo_envelope Demo.JSON_parse
                   Demo.echo_fetch [Demo.alpha; Demo.beta] [1; 1] Mcp.boot).2)
  = [(1, "initialize", "https://alpha.example/mcp");
     (2, "initialize", "https://beta.example/mcp");
     (3, "tools/list", "https://beta.example/mcp");
     (4, "tools/list", "https://alpha.example/mcp")].
Proof. by vm_compute. Qed.

(** * Further properties

    Properties of the handlers and services beyond the statements above. *)

(** ** Lists *)

Section ListFacts.

Context {A : Type}.

Lemma filter_none (P : A → Prop) `{∀ x, Decision (P x)} (l : list A) :
  filter P l = [] → filter (λ x, ¬ P x) l = l.
Proof.
  induction l as [|x l IH]; [done|].
  destruct (decide (P x)).
  - by rewrite filter_cons_True.
  - rewrite filter_cons_False by done. intros Hl.
    rewrite filter_cons_True by done. by rewrite IH.
Qed.

Lemma map_none (P : A → Prop) `{∀ x, Decision (P x)} (f : A → A) (l : list A) :
  filter P l = [] → map (λ x, if decide (P x) then f x else x) l = l.
Proof.
  induction l as [|x l IH]; [done|].
  destruct (decide (P x)).
  - by rewrite filter_cons_True.
  - rewrite filter_cons_False by done. intros Hl. simpl.
    rewrite decide_False by done. by rewrite IH.
Qed.

Lemma filter_nobody (P : A → Prop) `{∀ x, Decision (P x)} (l : list A) :
  (∀ x, x ∈ l → ¬ P x) → filter P l = [].
Proof.
  intros Hl. induction l as [|x l IH]; [done|].
  rewrite filter_cons_False by (apply Hl; left).
  apply IH. intros y Hy. apply Hl. by right.
Qed.

Lemma Forall_kept (Q P : A → Prop) `{∀ x, Decision (P x)} (l : list A) :
  Forall Q l → Forall Q (filter P l).
Proof.
  intros Hl. apply Forall_forall. intros x [_ Hx]%list_elem_of_filter.
  rewrite Forall_forall in Hl. by apply Hl.
Qed.

End ListFacts.

(** ** The queries of [db/database.js] and of the history *)

Section Tables.

Lemma insert_by_created_perm r l : Db.insert_by_created r l ≡ₚ r :: l.
Proof.
  induction l as [|x l IH]; simpl; [done|].
  destruct (_ <? _); [done|]. rewrite IH. apply Permutation_swap.
Qed.

Lemma insert_by_created_sorted r l :
  StronglySorted (λ a b, Db.srv_created_at a ≤ Db.srv_created_at b) l →
  StronglySorted (λ a b, Db.srv_created_at a ≤ Db.srv_created_at b)
    (Db.insert_by_created r l).
Proof.
  induction 1 as [|x l Hs IH Hx]; simpl.
  - repeat constructor.
  - destruct (Nat.ltb_spec (Db.srv_created_at r) (Db.srv_created_at x)).
    + constructor; [by constructor|].
      constructor; [lia|]. eapply Forall_impl; [exact Hx|]. simpl. intros. lia.
    + constructor; [done|].
      rewrite insert_by_created_perm. constructor; [lia|done].
Qed.

(** X1: [getUserMCPServers] answers with the enabled servers of the user,
    each once and no other row, the oldest first. *)
Theorem enabled_servers_by_age u d :
  Db.getUserMCPServers u d
  ≡ₚ filter (λ r, Db.srv_user_id r = u ∧ Db.srv_enabled r = true) (Db.mcp_servers d)
  ∧ StronglySorted (λ a b, Db.srv_created_at a ≤ Db.srv_created_at b)
      (Db.getUserMCPServers u d)
  ∧ ∀ r, r ∈ Db.getUserMCPServers u d
         ↔ r ∈ Db.mcp_servers d ∧ Db.srv_user_id r = u ∧ Db.srv_enabled r = true.
Proof.
  unfold Db.getUserMCPServers.
  set (rows := filter _ (Db.mcp_servers d)).
  assert (H : ∀ acc, StronglySorted (λ a b, Db.srv_created_at a ≤ Db.srv_created_at b) acc →
            foldl (λ acc r, Db.insert_by_created r acc) acc rows ≡ₚ acc ++ rows
            ∧ StronglySorted (λ a b, Db.srv_created_at a ≤ Db.srv_created_at b)
                (foldl (λ acc r, Db.insert_by_created r acc) acc rows)).
  { induction rows as [|r rows IH]; intros acc Hacc; cbn [foldl].
    - by rewrite app_nil_r.
    - destruct (IH (Db.insert_by_created r acc)) as [Hp Hs];
        [by apply insert_by_created_sorted|].
      split; [|done]. rewrite Hp, insert_by_created_perm.
      by rewrite <- Permutation_middle. }
  destruct (H []) as [Hp Hs]; [constructor|]. simpl in Hp.
  split; [done|]. split; [done|].
  intros r. rewrite Hp. unfold rows. rewrite list_elem_of_filter. tauto.
Qed.

Lemma insert_by_updated_perm r l : Db.insert_by_updated r l ≡ₚ r :: l.
Proof.
  induction l as [|x l IH]; simpl; [done|].
  destruct (_ <? _); [done|]. rewrite IH. apply Permutation_swap.
Qed.

Lemma insert_by_updated_sorted r l :
  StronglySorted (λ a b, Db.mem_updated_at b ≤ Db.mem_updated_at a) l →
  StronglySorted (λ a b, Db.mem_updated_at b ≤ Db.mem_updated_at a)
    (Db.insert_by_updated r l).
Proof.
  induction 1 as [|x l Hs IH Hx]; simpl.
  - repeat constructor.
  - destruct (Nat.ltb_spec (Db.mem_updated_at x) (Db.mem_updated_at r)).
    + constructor; [by constructor|].
      constructor; [lia|]. eapply Forall_impl; [exact Hx|]. simpl. intros. lia.
    + constructor; [done|].
      rewrite insert_by_updated_perm. constructor; [lia|done].
Qed.

Lemma getUserMemory_perm u d :
  Db.getUserMemory u d ≡ₚ filter (λ r, Db.mem_user_id r = u) (Db.memory d).
Proof.
  unfold Db.getUserMemory.
  induction (filter _ (Db.memory d)) as [|r rows IH]; simpl; [done|].
  by rewrite insert_by_updated_perm, IH.
Qed.

(** X2: [getUserMemory], and with it GET /api/memory, answers with the
    facts of the user, each once and no other row, the last updated first. *)
Theorem facts_newest_first u d :
  Db.getUserMemory u d ≡ₚ filter (λ r, Db.mem_user_id r = u) (Db.memory d)
  ∧ StronglySorted (λ a b, Db.mem_updated_at b ≤ Db.mem_updated_at a)
      (Db.getUserMemory u d)
  ∧ ∀ r, r ∈ Db.getUserMemory u d ↔ r ∈ Db.memory d ∧ Db.mem_user_id r = u.
Proof.
  split; [apply getUserMemory_perm|]. split.
  - unfold Db.getUserMemory.
    induction (filter _ (Db.memory d)) as [|r rows IH]; simpl; [constructor|].
    by apply insert_by_updated_sorted.
  - intros r. rewrite getUserMemory_perm, list_elem_of_filter. tauto.
Qed.

Lemma insert_by_time_perm r l : Db.insert_by_time r l ≡ₚ r :: l.
Proof.
  induction l as [|x l IH]; simpl; [done|].
  destruct (_ <? _); [done|]. rewrite IH. apply Permutation_swap.
Qed.

Lemma insert_by_time_sorted r l :
  StronglySorted (λ a b, Db.msg_created_at a ≤ Db.msg_created_at b) l →
  StronglySorted (λ a b, Db.msg_created_at a ≤ Db.msg_created_at b)
    (Db.insert_by_time r l).
Proof.
  induction 1 as [|x l Hs IH Hx]; simpl.
  - repeat constructor.
  - destruct (Nat.ltb_spec (Db.msg_created_at r) (Db.msg_created_at x)).
    + constructor; [by constructor|].
      constructor; [lia|]. eapply Forall_impl; [exact Hx|]. simpl. intros. lia.
    + constructor; [done|].
      rewrite insert_by_time_perm. constructor; [lia|done].
Qed.

Lemma messages_of_sorted c d :
  Db.messages_of c d ≡ₚ filter (λ m, Db.msg_conversation_id m = c) (Db.messages d)
  ∧ StronglySorted (λ a b, Db.msg_created_at a ≤ Db.msg_created_at b) (Db.messages_of c d).
Proof.
  unfold Db.messages_of.
  set (rows := filter _ (Db.messages d)).
  assert (H : ∀ acc, StronglySorted (λ a b, Db.msg_created_at a ≤ Db.msg_created_at b) acc →
            foldl (λ acc r, Db.insert_by_time r acc) acc rows ≡ₚ acc ++ rows
            ∧ StronglySorted (λ a b, Db.msg_created_at a ≤ Db.msg_created_at b)
                (foldl (λ acc r, Db.insert_by_time r acc) acc rows)).
  { induction rows as [|r rows IH]; intros acc Hacc; cbn [foldl].
    - by rewrite app_nil_r.
    - destruct (IH (Db.insert_by_time r acc)) as [Hp Hs];
        [by apply insert_by_time_sorted|].
      split; [|done]. rewrite Hp, insert_by_time_perm.
      by rewrite <- Permutation_middle. }
  destruct (H []) as [Hp Hs]; [constructor|]. done.
Qed.

(** X3: the history that the chat handler reads holds 60 messages at most,
    all of the conversation and in the order of their times; what it leaves
    out is not newer than what it keeps. *)
Theorem history_window c d :
  length (Db.recent_messages c d) ≤ 60
  ∧ StronglySorted (λ a b, Db.msg_created_at a ≤ Db.msg_created_at b)
      (Db.recent_messages c d)
  ∧ (∀ m, m ∈ Db.recent_messages c d →
          m ∈ Db.messages d ∧ Db.msg_conversation_id m = c)
  ∧ ∃ older,
      older ++ Db.recent_messages c d
      ≡ₚ filter (λ m, Db.msg_conversation_id m = c) (Db.messages d)
      ∧ length older = length (filter (λ m, Db.msg_conversation_id m = c) (Db.messages d)) - 60
      ∧ ∀ m m', m ∈ older → m' ∈ Db.recent_messages c d →
                Db.msg_created_at m ≤ Db.msg_created_at m'.
Proof.
  destruct (messages_of_sorted c d) as [Hp Hs].
  unfold Db.recent_messages.
  set (all := Db.messages_of c d) in *.
  assert (Hall : take (length all - 60) all ++ drop (length all - 60) all = all)
    by apply take_drop.
  rewrite <- Hall in Hs. apply StronglySorted_app in Hs as (Hle & _ & Hs).
  split; [rewrite length_drop; lia|]. split; [done|]. split.
  - intros m Hm. assert (m ∈ all) as Hin.
    { rewrite <- Hall, elem_of_app. by right. }
    rewrite Hp, list_elem_of_filter in Hin. tauto.
  - exists (take (length all - 60) all). split; [by rewrite Hall|].
    split; [|done]. rewrite length_take, <- Hp. lia.
Qed.

End Tables.

(** ** Built-in tools *)

Section BuiltinTools.

Variable tavily_search : string → string → gmap string string → string.
Variable image_generate : string → string → gmap string string → string.

Lemma toLowerCase_truthy s t :
  Js.toLowerCase s = Js.toLowerCase t → Js.truthy s = Js.truthy t.
Proof. by destruct s, t. Qed.

(** X4: [memory_save] is idempotent up to the case of ASCII letters: once a
    fact is saved, saving a fact with the same [lower] again, at any time,
    answers "Already remembered" and leaves the database as it is. *)
Theorem memory_save_idempotent now1 now2 args1 args2 ctx d fact1 fact2 :
  Js.trim (Js.or_empty (args1 !! "fact")) = fact1 →
  Js.trim (Js.or_empty (args2 !! "fact")) = fact2 →
  Js.truthy fact1 = true →
  Sql.lower fact1 = Sql.lower fact2 →
  Tools.handleBuiltinTool tavily_search image_generate now2 "memory_save" args2 ctx
    (Tools.handleBuiltinTool tavily_search image_generate now1 "memory_save" args1 ctx d).2
  = ("✓ Already remembered: " +:+ Js.quote +:+ fact2 +:+ Js.quote,
     (Tools.handleBuiltinTool tavily_search image_generate now1 "memory_save" args1 ctx d).2).
Proof.
  intros H1 H2 Ht Hl.
  assert (Ht2 : Js.truthy fact2 = true) by (by rewrite <- (toLowerCase_truthy _ _ Hl)).
  assert (Hstep : ∀ now args fact d0,
            Js.trim (Js.or_empty (args !! "fact")) = fact → Js.truthy fact = true →
            Tools.handleBuiltinTool tavily_search image_generate now "memory_save" args ctx d0
            = match Db.find_memory_nocase (Tools.userId ctx) fact d0 with
              | Some _ => ("✓ Already remembered: " +:+ Js.quote +:+ fact +:+ Js.quote, d0)
              | None => ("✓ Saved to memory: " +:+ Js.quote +:+ fact +:+ Js.quote,
                         Db.insert_memory now (Tools.userId ctx) fact d0)
              end).
  { intros now args fact d0 Hfact Htr. unfold Tools.handleBuiltinTool. simpl.
    by rewrite Hfact, Htr. }
  assert (Hfind : ∀ d0, Db.find_memory_nocase (Tools.userId ctx) fact2 d0
                        = Db.find_memory_nocase (Tools.userId ctx) fact1 d0).
  { intros d0. unfold Db.find_memory_nocase. by rewrite Hl. }
  rewrite (Hstep now1 args1 fact1 d) by done.
  destruct (Db.find_memory_nocase (Tools.userId ctx) fact1 d) as [row|] eqn:Hf; simpl.
  - rewrite (Hstep now2 args2 fact2 d) by done. by rewrite Hfind, Hf.
  - rewrite (Hstep now2 args2 fact2) by done.
    rewrite Hfind. unfold Db.find_memory_nocase, Db.insert_memory. simpl.
    rewrite filter_app, filter_cons_True by done.
    by destruct (filter _ (Db.memory d)).
Qed.

(** X5: whatever its name and arguments, a built-in tool call leaves the
    conversations, messages, servers and settings alone, keeps every fact,
    and adds one fact at most: a non-empty fact of the caller that the
    caller did not have in any case. *)
Theorem builtin_tools_add_own_facts_only now name args ctx d :
  Db.conversations (Tools.handleBuiltinTool tavily_search image_generate now name args ctx d).2
  = Db.conversations d
  ∧ Db.messages (Tools.handleBuiltinTool tavily_search image_generate now name args ctx d).2
    = Db.messages d
  ∧ Db.mcp_servers (Tools.handleBuiltinTool tavily_search image_generate now name args ctx d).2
    = Db.mcp_servers d
  ∧ Db.settings (Tools.handleBuiltinTool tavily_search image_generate now name args ctx d).2
    = Db.settings d
  ∧ ∃ extra,
      Db.memory (Tools.handleBuiltinTool tavily_search image_generate now name args ctx d).2
      = Db.memory d ++ extra
      ∧ length extra ≤ 1
      ∧ Forall (λ r, Db.mem_user_id r = Tools.userId ctx
                     ∧ Js.truthy (Db.mem_content r) = true
                     ∧ Db.memory_rows_nocase (Tools.userId ctx) (Db.mem_content r) d = [])
               extra.
Proof.
  assert (Hsame : ∀ text,
    Db.conversations (text, d).2 = Db.conversations d
    ∧ Db.messages (text, d).2 = Db.messages d
    ∧ Db.mcp_servers (text, d).2 = Db.mcp_servers d
    ∧ Db.settings (text, d).2 = Db.settings d
    ∧ ∃ extra, Db.memory (text : string, d).2 = Db.memory d ++ extra ∧ length extra ≤ 1
        ∧ Forall (λ r, Db.mem_user_id r = Tools.userId ctx
                       ∧ Js.truthy (Db.mem_content r) = true
                       ∧ Db.memory_rows_nocase (Tools.userId ctx) (Db.mem_content r) d = [])
                 extra).
  { intros text. repeat split. exists []. rewrite app_nil_r. repeat split; simpl; auto. }
  unfold Tools.handleBuiltinTool.
  repeat case_decide; try apply Hsame.
  - destruct (negb _) eqn:Ht; [apply Hsame|].
    destruct (Db.find_memory_nocase _ _ d) as [row|] eqn:Hf; [apply Hsame|].
    simpl. repeat split. eexists [_]. split; [reflexivity|]. split; [simpl; lia|].
    apply Forall_singleton; simpl. split; [done|].
    split; [by apply negb_false_iff in Ht|].
    unfold Db.find_memory_nocase in Hf. unfold Db.memory_rows_nocase.
    by destruct (filter _ (Db.memory d)).
  - destruct (match Js.words _ with [] => _ | _ => _ end); apply Hsame.
  - destruct (Tools.tavilyKey ctx); [|apply Hsame]. destruct (negb _); apply Hsame.
  - destruct (negb _); [apply Hsame|]. destruct (Tools.apiKey ctx); apply Hsame.
Qed.

(** X6: [memory_get] reads and never writes, and its answer depends on the
    facts of the caller only.  The answer renders a sub-sequence of
    [getUserMemory], the facts it found, in that order: one line for each
    fact, or, when it found none, one of the two messages that say so.
    When the query is blank it finds all the facts of the caller. *)
Theorem memory_get_reads_own_facts now args ctx d1 d2 :
  filter (λ r, Db.mem_user_id r = Tools.userId ctx) (Db.memory d1)
  = filter (λ r, Db.mem_user_id r = Tools.userId ctx) (Db.memory d2) →
  (Tools.handleBuiltinTool tavily_search image_generate now "memory_get" args ctx d1).1
  = (Tools.handleBuiltinTool tavily_search image_generate now "memory_get" args ctx d2).1
  ∧ (Tools.handleBuiltinTool tavily_search image_generate now "memory_get" args ctx d1).2 = d1
  ∧ ∃ matched,
      matched `sublist_of` Db.getUserMemory (Tools.userId ctx) d1
      ∧ (Js.trim (Js.or_empty (args !! "query")) = EmptyString →
         matched = Db.getUserMemory (Tools.userId ctx) d1)
      ∧ match matched with
        | [] =>
            (Tools.handleBuiltinTool tavily_search image_generate now "memory_get" args
               ctx d1).1
            ∈ ["No memories stored yet.";
               "No memories found matching " +:+ Js.quote
               +:+ Js.or_empty (args !! "query") +:+ Js.quote +:+ "."]
        | _ =>
            (Tools.handleBuiltinTool tavily_search image_generate now "memory_get" args
               ctx d1).1
            = Js.join Js.newline (map (λ f, "- " +:+ Db.mem_content f) matched)
        end.
Proof.
  intros Hsame.
  unfold Tools.handleBuiltinTool. simpl.
  assert (Hm : Db.getUserMemory (Tools.userId ctx) d1 = Db.getUserMemory (Tools.userId ctx) d2)
    by (unfold Db.getUserMemory; by rewrite Hsame).
  rewrite <- Hm.
  set (all := Db.getUserMemory (Tools.userId ctx) d1).
  set (terms := Js.words _).
  set (matched := match terms with [] => all | _ => _ end).
  split; [by destruct matched|]. split; [by destruct matched|].
  exists matched. split.
  { unfold matched. destruct terms; [done|]. apply sublist_filter. }
  split.
  { intros Hq. unfold matched, terms. by rewrite Hq. }
  destruct matched; [|done]. simpl.
  destruct (Js.truthy _); rewrite !elem_of_cons; auto.
Qed.

End BuiltinTools.

Lemma memory_get_reads_own_facts_witness :
  (Tools.handleBuiltinTool Demo.no_search Demo.no_image 200 "memory_get" ∅ Demo.ctx1
     Demo.berlin).1
  = (Tools.handleBuiltinTool Demo.no_search Demo.no_image 200 "memory_get" ∅ Demo.ctx1
       Samples.two_users).1.
Proof.
  assert (H : filter (λ r, Db.mem_user_id r = Tools.userId Demo.ctx1) (Db.memory Demo.berlin)
              = filter (λ r, Db.mem_user_id r = Tools.userId Demo.ctx1)
                  (Db.memory Samples.two_users)) by (by vm_compute).
  exact (proj1 (memory_get_reads_own_facts Demo.no_search Demo.no_image 200 ∅ Demo.ctx1
                  Demo.berlin Samples.two_users H)).
Defined.

(** What user 1 is told: their own fact, whatever user 2 has stored; and
    nothing on a query that matches none of their facts. *)
Example memory_get_answers :
  (Tools.handleBuiltinTool Demo.no_search Demo.no_image 200 "memory_get" ∅ Demo.ctx1
     Samples.two_users).1 = "- Lives in Berlin"
  ∧ (Tools.handleBuiltinTool Demo.no_search Demo.no_image 200 "memory_get"
       {[ "query" := "BERLIN  paris" ]} Demo.ctx1 Samples.two_users).1 = "- Lives in Berlin"
  ∧ (Tools.handleBuiltinTool Demo.no_search Demo.no_image 200 "memory_get"
       {[ "query" := "chess" ]} Demo.ctx1 Samples.two_users).1
    = "No memories found matching " +:+ Js.quote +:+ "chess" +:+ Js.quote +:+ ".".
Proof. by vm_compute. Qed.

Lemma memory_save_idempotent_witness :
  Tools.handleBuiltinTool Demo.no_search Demo.no_image 300 "memory_save"
    {[ "fact" := " lives in BERLIN " ]} Demo.ctx1
    (Tools.handleBuiltinTool Demo.no_search Demo.no_image 200 "memory_save"
       {[ "fact" := "Lives in Berlin" ]} Demo.ctx1 Db.empty).2
  = ("✓ Already remembered: " +:+ Js.quote +:+ "lives in BERLIN" +:+ Js.quote,
     (Tools.handleBuiltinTool Demo.no_search Demo.no_image 200 "memory_save"
        {[ "fact" := "Lives in Berlin" ]} Demo.ctx1 Db.empty).2).
Proof.
  apply (memory_save_idempotent Demo.no_search Demo.no_image 200 300
           {[ "fact" := "Lives in Berlin" ]} {[ "fact" := " lives in BERLIN " ]}
           Demo.ctx1 Db.empty "Lives in Berlin" "lives in BERLIN"); by vm_compute.
Defined.

(** ** The memory handlers *)

Section MemoryRoutes.

Import MemoryOps.

Lemma space_one_byte c : Js.is_space c = true → Js.seq_bytes c = 1.
Proof.
  unfold Js.is_space, Js.seq_bytes. cbv zeta. rewrite !orb_true_iff, !Nat.eqb_eq.
  intros H. destruct (Nat.ltb_spec (nat_of_ascii c) 192); [done|lia].
Qed.

Lemma trimStart_length s : Js.length (Js.trimStart s) ≤ Js.length s.
Proof.
  unfold Js.length. induction s as [|c s IH]; [done|]. cbn [Js.trimStart].
  destruct (Js.is_space c) eqn:Hc; [|done].
  cbn [Js.units]. rewrite (space_one_byte c Hc). simpl. lia.
Qed.

Lemma trimEnd_units p s : Js.units p (Js.trimEnd s) ≤ Js.units p s.
Proof.
  revert p. induction s as [|c s IH]; intros p; [done|]. cbn [Js.trimEnd].
  destruct (Js.trimEnd s) as [|c' t] eqn:Ht.
  - destruct (Js.is_space c); destruct p; simpl; lia.
  - destruct p as [|p]; cbn [Js.units].
    + specialize (IH (Js.seq_bytes c - 1)). cbn [Js.units] in IH. lia.
    + specialize (IH p). cbn [Js.units] in IH. lia.
Qed.

Lemma trim_length s : Js.length (Js.trim s) ≤ Js.length s.
Proof.
  unfold Js.trim. etrans; [apply trimEnd_units|apply trimStart_length].
Qed.


Lemma with_memory_same d : Db.with_memory d (Db.memory d) (Db.seq_memory d) = d.
Proof. by destruct d. Qed.

(** X7: a request to POST, PATCH or DELETE /api/memory that is answered
    with an error has written nothing. *)
Theorem memory_routes_reject_without_writing now uid id content d :
  (∀ st msg, (MemoryRoute.post now uid content d).1 = MemoryRoute.error st msg →
             (MemoryRoute.post now uid content d).2 = d)
  ∧ (∀ st msg, (MemoryRoute.patch now uid id content d).1 = MemoryRoute.failed st msg →
               (MemoryRoute.patch now uid id content d).2 = d)
  ∧ (∀ st msg, (MemoryRoute.remove uid id d).1 = MemoryRoute.failed st msg →
               (MemoryRoute.remove uid id d).2 = d).
Proof.
  split; [|split]; intros st msg.
  - unfold MemoryRoute.post. destruct content as [c|]; [|done].
    destruct (negb _); [done|]. destruct (_ <? _); [done|]. by destruct (_ <=? _).
  - unfold MemoryRoute.patch. destruct content as [c|]; [|done].
    destruct (negb _); [done|]. destruct (_ <? _); [done|].
    unfold Db.update_memory.
    destruct (filter _ (Db.memory d)) eqn:Hf; simpl; [|done]. intros _.
    rewrite (map_none (λ r, Db.mem_id r = id ∧ Db.mem_user_id r = uid)) by done.
    apply with_memory_same.
  - unfold MemoryRoute.remove, Db.delete_memory.
    destruct (filter _ (Db.memory d)) eqn:Hf; simpl; [|done]. intros _.
    rewrite filter_none by done. apply with_memory_same.
Qed.

Lemma serve_facts_other uid other d c :
  other ≠ uid → facts_of other (serve uid d c) = facts_of other d.
Proof.
  intros Hne. unfold facts_of. destruct c as [now [content|id content|id|]]; simpl.
  - unfold MemoryRoute.post. destruct content as [c|]; [|done].
    destruct (negb _); [done|]. destruct (_ <? _); [done|]. destruct (_ <=? _); [done|].
    simpl. rewrite filter_app, filter_cons_False, filter_nil, app_nil_r; [done|].
    simpl. congruence.
  - unfold MemoryRoute.patch. destruct content as [c|]; [|done].
    destruct (negb _); [done|]. destruct (_ <? _); [done|].
    assert (filter (λ r, Db.mem_user_id r = other)
              (Db.memory (Db.update_memory now id uid (Js.trim c) d).2)
            = filter (λ r, Db.mem_user_id r = other) (Db.memory d)) as Hsame.
    { unfold Db.update_memory. simpl.
      induction (Db.memory d) as [|r l IH]; [done|]. simpl.
      destruct (decide (Db.mem_user_id r = other)) as [Hr|Hr].
      - rewrite decide_False by (intros [_ ?]; congruence).
        rewrite !filter_cons_True by done. by rewrite IH.
      - case_decide; rewrite !filter_cons_False by done; by rewrite IH. }
    destruct (Db.update_memory _ _ _ _ _) as [changes d'].
    by destruct (changes =? 0).
  - unfold MemoryRoute.remove.
    assert (filter (λ r, Db.mem_user_id r = other) (Db.memory (Db.delete_memory id uid d).2)
            = filter (λ r, Db.mem_user_id r = other) (Db.memory d)) as Hsame.
    { unfold Db.delete_memory. simpl.
      induction (Db.memory d) as [|r l IH]; [done|].
      destruct (decide (Db.mem_user_id r = other)) as [Hr|Hr].
      - rewrite (filter_cons_True (λ r, ¬ _)) by (intros [_ ?]; congruence).
        rewrite !filter_cons_True by done. by rewrite IH.
      - rewrite (filter_cons_False (λ r, Db.mem_user_id r = other)) by done.
        destruct (decide (Db.mem_id r = id ∧ Db.mem_user_id r = uid)).
        + rewrite (filter_cons_False (λ r, ¬ _)) by tauto. done.
        + rewrite (filter_cons_True (λ r, ¬ _)) by tauto.
          rewrite filter_cons_False by done. done. }
    destruct (Db.delete_memory _ _ _) as [changes d'].
    by destruct (changes =? 0).
  - unfold Db.clear_memory. simpl.
    induction (Db.memory d) as [|r l IH]; [done|].
    destruct (decide (Db.mem_user_id r = other)) as [Hr|Hr].
    + rewrite (filter_cons_True (λ r, Db.mem_user_id r ≠ uid)) by congruence.
      rewrite !filter_cons_True by done. by rewrite IH.
    + rewrite (filter_cons_False (λ r, Db.mem_user_id r = other)) by done.
      destruct (decide (Db.mem_user_id r = uid)).
      * rewrite (filter_cons_False (λ r, Db.mem_user_id r ≠ uid)) by tauto. done.
      * rewrite (filter_cons_True (λ r, Db.mem_user_id r ≠ uid)) by tauto.
        rewrite filter_cons_False by done. done.
Qed.

(** X8: no sequence of requests of one user to the memory handlers changes
    the facts of another user, or what GET /api/memory shows them. *)
Theorem memory_routes_isolated uid other calls d :
  other ≠ uid →
  facts_of other (foldl (serve uid) d calls) = facts_of other d
  ∧ MemoryRoute.get other (foldl (serve uid) d calls) = MemoryRoute.get other d.
Proof.
  intros Hne.
  assert (H : facts_of other (foldl (serve uid) d calls) = facts_of other d).
  { revert d. induction calls as [|c calls IH]; intros d; [done|].
    cbn [foldl]. rewrite IH. by apply serve_facts_other. }
  split; [done|].
  unfold MemoryRoute.get, Db.getUserMemory. unfold facts_of in H. by rewrite H.
Qed.

Lemma serve_count uid d c :
  Db.count_memory uid (serve uid d c)
  ≤ Nat.max (Db.count_memory uid d) MemoryRoute.MAX_FACTS.
Proof.
  destruct c as [now [content|id content|id|]]; simpl.
  - unfold MemoryRoute.post. destruct content as [c|]; [|simpl; lia].
    destruct (negb _); [simpl; lia|]. destruct (_ <? _); [simpl; lia|].
    destruct (Nat.leb_spec MemoryRoute.MAX_FACTS (Db.count_memory uid d)); [simpl; lia|].
    simpl. unfold Db.count_memory, Db.insert_memory in *. simpl.
    rewrite filter_app, filter_cons_True, length_app by done. simpl. lia.
  - unfold MemoryRoute.patch. destruct content as [c|]; [|simpl; lia].
    destruct (negb _); [simpl; lia|]. destruct (_ <? _); [simpl; lia|].
    assert (Db.count_memory uid (Db.update_memory now id uid (Js.trim c) d).2
            = Db.count_memory uid d) as Hsame.
    { unfold Db.count_memory, Db.update_memory. simpl.
      induction (Db.memory d) as [|r l IH]; [done|]. simpl.
      destruct (decide (Db.mem_user_id r = uid)) as [Hr|Hr].
      - case_decide; rewrite !filter_cons_True by done; simpl; by rewrite IH.
      - rewrite decide_False by tauto. rewrite !filter_cons_False by done. done. }
    destruct (Db.update_memory _ _ _ _ _) as [changes d'].
    destruct (changes =? 0); simpl in *; lia.
  - unfold MemoryRoute.remove.
    assert (Db.count_memory uid (Db.delete_memory id uid d).2 ≤ Db.count_memory uid d)
      as Hle.
    { unfold Db.count_memory, Db.delete_memory. simpl.
      induction (Db.memory d) as [|r l IH]; [done|].
      destruct (decide (Db.mem_id r = id ∧ Db.mem_user_id r = uid)) as [Hr|Hr].
      - rewrite (filter_cons_False (λ r, ¬ _)) by tauto.
        rewrite filter_cons_True by tauto. simpl. lia.
      - rewrite (filter_cons_True (λ r, ¬ _)) by tauto.
        destruct (decide (Db.mem_user_id r = uid)).
        + rewrite !filter_cons_True by done. simpl. lia.
        + rewrite !filter_cons_False by done. done. }
    destruct (Db.delete_memory _ _ _) as [changes d'].
    destruct (changes =? 0); simpl in *; lia.
  - unfold Db.count_memory, Db.clear_memory. simpl.
    etrans; [|apply Nat.le_max_l].
    induction (Db.memory d) as [|r l IH]; [done|].
    destruct (decide (Db.mem_user_id r = uid)).
    + rewrite (filter_cons_False (λ r, Db.mem_user_id r ≠ uid)) by tauto.
      rewrite (filter_cons_True (λ r, Db.mem_user_id r = uid) r l) by done. simpl. lia.
    + rewrite (filter_cons_True (λ r, Db.mem_user_id r ≠ uid)) by tauto.
      rewrite !filter_cons_False by done. done.
Qed.

(** X9: along every sequence of requests to the memory handlers, the user
    holds 500 facts at most, or no more than at the start. *)
Theorem memory_routes_keep_cap uid calls d :
  Db.count_memory uid (foldl (serve uid) d calls)
  ≤ Nat.max (Db.count_memory uid d) MemoryRoute.MAX_FACTS.
Proof.
  revert d. induction calls as [|c calls IH]; intros d; cbn [foldl]; [lia|].
  etrans; [apply IH|]. pose proof (serve_count uid d c). lia.
Qed.

Lemma trim_accepted now uid c :
  Js.truthy (Js.trim c) = true → Js.length c ≤ MemoryRoute.MAX_FACT_LENGTH →
  ∀ id created, accepted {| Db.mem_id := id; Db.mem_user_id := uid; Db.mem_content := Js.trim c;
                            Db.mem_created_at := created; Db.mem_updated_at := now |}.
Proof.
  intros Ht Hl id created. split; simpl; [done|]. pose proof (trim_length c). lia.
Qed.

Lemma serve_accepted uid d c :
  Forall accepted (Db.memory d) → Forall accepted (Db.memory (serve uid d c)).
Proof.
  intros Hd. destruct c as [now [content|id content|id|]]; simpl.
  - unfold MemoryRoute.post. destruct content as [c|]; [|done].
    destruct (negb _) eqn:Ht; [done|]. apply negb_false_iff in Ht.
    destruct (Nat.ltb_spec MemoryRoute.MAX_FACT_LENGTH (Js.length c)); [done|].
    destruct (_ <=? _); [done|]. simpl.
    apply Forall_app. split; [done|]. apply Forall_singleton. by apply trim_accepted.
  - unfold MemoryRoute.patch. destruct content as [c|]; [|done].
    destruct (negb _) eqn:Ht; [done|]. apply negb_false_iff in Ht.
    destruct (Nat.ltb_spec MemoryRoute.MAX_FACT_LENGTH (Js.length c)); [done|].
    assert (Forall accepted (Db.memory (Db.update_memory now id uid (Js.trim c) d).2)).
    { unfold Db.update_memory. simpl. apply Forall_fmap.
      eapply Forall_impl; [exact Hd|]. intros r Hr. simpl.
      case_decide; [|done]. by apply trim_accepted. }
    destruct (Db.update_memory _ _ _ _ _) as [changes d'].
    by destruct (changes =? 0).
  - unfold MemoryRoute.remove.
    assert (Forall accepted (Db.memory (Db.delete_memory id uid d).2)).
    { unfold Db.delete_memory. simpl. by apply Forall_kept. }
    destruct (Db.delete_memory _ _ _) as [changes d'].
    by destruct (changes =? 0).
  - unfold Db.clear_memory. simpl. by apply Forall_kept.
Qed.

(** X10: the memory handlers keep every stored fact non-empty and within
    1000 UTF-16 code units, the unit of the [length] that they test. *)
Theorem memory_routes_keep_facts_accepted uid calls d :
  Forall accepted (Db.memory d) →
  Forall accepted (Db.memory (foldl (serve uid) d calls)).
Proof.
  revert d. induction calls as [|c calls IH]; intros d Hd; cbn [foldl]; [done|].
  apply IH. by apply serve_accepted.
Qed.

End MemoryRoutes.

Lemma memory_routes_keep_facts_accepted_witness :
  Forall MemoryOps.accepted
    (Db.memory (foldl (MemoryOps.serve 1) Samples.two_users
                  [(200, MemoryOps.POST (Some "  Likes tea  "));
                   (201, MemoryOps.PATCH 1 (Some "Lives in Bonn"))])).
Proof.
  apply (memory_routes_keep_facts_accepted 1).
  repeat constructor; simpl; lia.
Defined.

(** Lengths count code units, not bytes: a fact of 501 letters of two
    bytes each is stored, one of 1001 letters is refused; and a slice keeps
    whole letters. *)
Example lengths_count_code_units :
  String.length (Samples.copies 501 "é") = 1002
  ∧ Js.length (Samples.copies 501 "é") = 501
  ∧ map Db.mem_content
      (Db.memory (MemoryRoute.post 200 1 (Some (Samples.copies 501 "é")) Db.empty).2)
    = [Samples.copies 501 "é"]
  ∧ (MemoryRoute.post 200 1 (Some (Samples.copies 1001 "é")) Db.empty).1
    = MemoryRoute.error 400 "Memory fact too long (max 1000 chars)"
  ∧ Js.slice_to 3 "début" = "déb".
Proof. by vm_compute. Qed.

Lemma memory_routes_isolated_witness :
  MemoryOps.facts_of 2
    (foldl (MemoryOps.serve 1) Samples.two_users
       [(200, MemoryOps.DELETE_all); (201, MemoryOps.POST (Some "Likes tea"))])
  = MemoryOps.facts_of 2 Samples.two_users.
Proof.
  assert (H : 2 ≠ 1) by lia.
  exact (proj1 (memory_routes_isolated 1 2
                  [(200, MemoryOps.DELETE_all); (201, MemoryOps.POST (Some "Likes tea"))]
                  Samples.two_users H)).
Defined.

(** ** The conversation handlers *)

Section ChatsRoutes.

Lemma with_conversations_same d : Db.with_conversations d (Db.conversations d) = d.
Proof. by destruct d. Qed.

(** X11: a conversation answers to its owner only: for a user who has no
    conversation of that id, reading, renaming, deleting and editing are
    refused and nothing is written. *)
Theorem conversations_answer_to_owner now uid id mid title content d :
  (∀ c, c ∈ Db.conversations d → Db.conv_id c = id → Db.conv_user_id c ≠ uid) →
  ChatsRoute.get uid id d = ChatsRoute.failed 404 "Not found"
  ∧ ChatsRoute.get_messages uid id d = ChatsRoute.failed 404 "Not found"
  ∧ ChatsRoute.rename now uid id title d
    = (if Js.truthy (Js.or_empty title) then ChatsRoute.failed 404 "Not found"
       else ChatsRoute.failed 400 "Title required", d)
  ∧ ChatsRoute.remove uid id d = (ChatsRoute.failed 404 "Not found", d)
  ∧ ChatsRoute.patch_message now uid id mid content d
    = (ChatsRoute.error 404 "Conversation not found", d).
Proof.
  intros Hown.
  assert (Hnone : filter (λ c, Db.conv_id c = id ∧ Db.conv_user_id c = uid)
                    (Db.conversations d) = []).
  { apply filter_nobody. intros c Hc [Hid Hu]. by apply (Hown c). }
  assert (Hget : Db.get_conversation id uid d = None).
  { unfold Db.get_conversation. by rewrite Hnone. }
  repeat split.
  - unfold ChatsRoute.get. by rewrite Hget.
  - unfold ChatsRoute.get_messages. by rewrite Hget.
  - unfold ChatsRoute.rename. destruct (Js.truthy _); [|done]. simpl.
    unfold Db.rename_conversation. rewrite Hnone. simpl.
    rewrite (map_none (λ c, Db.conv_id c = id ∧ Db.conv_user_id c = uid)) by done.
    by rewrite with_conversations_same.
  - unfold ChatsRoute.remove, Db.delete_conversation. rewrite Hnone. simpl.
    rewrite filter_none by done. by rewrite with_conversations_same.
  - unfold ChatsRoute.patch_message. by rewrite Hget.
Qed.

(** X12: deleting a conversation deletes the conversation of the caller
    with that id and the messages of that id, and nothing else. *)
Theorem remove_conversation_cascades uid id d d' :
  ChatsRoute.remove uid id d = (ChatsRoute.json (), d') →
  Db.get_conversation id uid d' = None
  ∧ (∃ c, c ∈ Db.conversations d ∧ Db.conv_id c = id ∧ Db.conv_user_id c = uid)
  ∧ Db.messages d' = filter (λ m, Db.msg_conversation_id m ≠ id) (Db.messages d)
  ∧ Db.conversations d'
    = filter (λ c, ¬ (Db.conv_id c = id ∧ Db.conv_user_id c = uid)) (Db.conversations d)
  ∧ Db.memory d' = Db.memory d
  ∧ Db.settings d' = Db.settings d.
Proof.
  unfold ChatsRoute.remove, Db.delete_conversation.
  destruct (filter _ (Db.conversations d)) as [|c gone] eqn:Hgone; simpl; [done|].
  intros [= <-]. simpl. split; [|split].
  - unfold Db.get_conversation. simpl. rewrite filter_nobody; [done|].
    intros x [Hx _]%list_elem_of_filter. done.
  - exists c. assert (c ∈ filter (λ c, Db.conv_id c = id ∧ Db.conv_user_id c = uid)
                            (Db.conversations d)) as Hc by (rewrite Hgone; left).
    apply list_elem_of_filter in Hc. tauto.
  - done.
Qed.

(** X13: an edit either is refused and writes nothing, or edits a user
    message of the conversation: then the message itself is gone, the
    messages that remain are the other conversations' and the strictly
    older ones of this conversation, and facts and settings are as before. *)
Theorem edit_message_scope now uid cid mid content d :
  match ChatsRoute.patch_message now uid cid mid content d with
  | (ChatsRoute.error _ _, d') => d' = d
  | (ChatsRoute.edited t, d') =>
      (∃ msg, msg ∈ Db.messages d ∧ Db.msg_id msg = mid
              ∧ Db.msg_conversation_id msg = cid ∧ Db.msg_role msg = Db.user
              ∧ Db.msg_created_at msg = t ∧ msg ∉ Db.messages d')
      ∧ Js.truthy (Js.trim (Js.or_empty content)) = true
      ∧ (∀ m, m ∈ Db.messages d' ↔
              m ∈ Db.messages d ∧ (Db.msg_conversation_id m = cid → Db.msg_created_at m < t))
      ∧ Db.memory d' = Db.memory d
      ∧ Db.settings d' = Db.settings d
  end.
Proof.
  unfold ChatsRoute.patch_message.
  destruct (Db.get_conversation cid uid d) as [conv|] eqn:Hconv; [|done].
  assert (Db.conv_id conv = cid) as Hcid.
  { unfold Db.get_conversation in Hconv. apply head_Some_elem_of in Hconv.
    apply list_elem_of_filter in Hconv. tauto. }
  rewrite Hcid.
  destruct (Db.get_message mid cid d) as [msg|] eqn:Hmsg; [|done].
  assert (msg ∈ Db.messages d ∧ Db.msg_id msg = mid ∧ Db.msg_conversation_id msg = cid)
    as (Hin & Hmid & Hmc).
  { unfold Db.get_message in Hmsg. apply head_Some_elem_of in Hmsg.
    apply list_elem_of_filter in Hmsg. tauto. }
  case_bool_decide as Hrole; [done|].
  destruct (negb _) eqn:Ht; [done|]. apply negb_false_iff in Ht.
  simpl. split; [|split; [done|split; [|done]]].
  - exists msg. repeat split; try done.
    rewrite list_elem_of_filter. intros [Hn _]. apply Hn. split; [done|lia].
  - intros m. rewrite list_elem_of_filter. split.
    + intros [Hn Hm]. split; [done|]. intros Hc.
      destruct (decide (Db.msg_created_at m < Db.msg_created_at msg)); [done|].
      exfalso. apply Hn. split; [done|lia].
    + intros [Hm Hlt]. split; [|done]. intros [Hc Hle]. specialize (Hlt Hc). lia.
Qed.

End ChatsRoutes.

Lemma remove_conversation_cascades_witness :
  Db.messages (ChatsRoute.remove 1 1 Demo.thread).2 = []
  ∧ Db.conversations (ChatsRoute.remove 1 1 Demo.thread).2 = [].
Proof.
  assert (H : ChatsRoute.remove 1 1 Demo.thread
              = (ChatsRoute.json (), (ChatsRoute.remove 1 1 Demo.thread).2))
    by (by vm_compute).
  destruct (remove_conversation_cascades 1 1 Demo.thread _ H) as (_ & _ & Hm & Hc & _).
  rewrite Hm, Hc. by vm_compute.
Defined.

Lemma conversations_answer_to_owner_witness :
  ChatsRoute.remove 2 1 Demo.thread = (ChatsRoute.failed 404 "Not found", Demo.thread)
  ∧ ChatsRoute.get_messages 2 1 Demo.thread = ChatsRoute.failed 404 "Not found".
Proof.
  assert (H : ∀ c, c ∈ Db.conversations Demo.thread → Db.conv_id c = 1 →
                   Db.conv_user_id c ≠ 2).
  { intros c Hc _. simpl in Hc. apply list_elem_of_singleton in Hc as ->. simpl. lia. }
  destruct (conversations_answer_to_owner 200 2 1 3 None None Demo.thread H)
    as (_ & Hmsgs & _ & Hremove & _).
  split; [exact Hremove|exact Hmsgs].
Defined.

(** ** The settings handlers *)

Section SettingsRoutes.

Lemma getUserSettings_other uid other k v d :
  other ≠ uid →
  Db.getUserSettings other (Db.setSetting uid k v d) = Db.getUserSettings other d.
Proof.
  intros Hne. unfold Db.getUserSettings, Db.setSetting. simpl.
  by rewrite lookup_insert_ne.
Qed.

Lemma apply_update_tables uid d kv :
  Db.memory (SettingsRoute.apply_update uid d kv) = Db.memory d
  ∧ Db.messages (SettingsRoute.apply_update uid d kv) = Db.messages d
  ∧ Db.conversations (SettingsRoute.apply_update uid d kv) = Db.conversations d.
Proof.
  destruct kv as [k v]. unfold SettingsRoute.apply_update.
  destruct (negb _); [done|]. destruct (SettingsRoute.MAX_LENGTHS !! k); [|done].
  by destruct (_ && _).
Qed.

Lemma max_lengths_positive k max : SettingsRoute.MAX_LENGTHS !! k = Some max → 0 < max.
Proof.
  unfold SettingsRoute.MAX_LENGTHS. simpl.
  repeat (rewrite lookup_insert; case_decide; [intros [= <-]; lia|]).
  by rewrite lookup_empty.
Qed.

Lemma apply_update_within uid d kv :
  Updates.writes_within uid d (SettingsRoute.apply_update uid d kv).
Proof.
  destruct (apply_update_tables uid d kv) as (Hm & Hs & Hc).
  split; [|split; [|split; [|done]]].
  - destruct kv as [k0 v0]. intros k Hk. unfold SettingsRoute.apply_update.
    case_bool_decide as Hk0; simpl; [|done].
    assert (k ≠ k0) by congruence.
    destruct (SettingsRoute.MAX_LENGTHS !! k0); [destruct (_ && _); [done|]|];
      rewrite getUserSettings_setSetting; by rewrite lookup_insert_ne.
  - destruct kv as [k0 v0]. intros other Hne. unfold SettingsRoute.apply_update.
    destruct (negb _); [done|].
    destruct (SettingsRoute.MAX_LENGTHS !! k0); [destruct (_ && _); [done|]|];
      by apply getUserSettings_other.
  - destruct kv as [k0 v0]. intros k max v Hmax. unfold SettingsRoute.apply_update.
    destruct (negb _); [by right|].
    destruct (SettingsRoute.MAX_LENGTHS !! k0) as [max0|] eqn:Hmax0.
    + destruct (Nat.ltb_spec 0 max0) as [Hpos|Hpos]; simpl.
      * destruct (Nat.ltb_spec max0 (Js.length
                    match v0 with SettingsRoute.null => EmptyString
                                | SettingsRoute.value s => s end)); [by right|].
        rewrite getUserSettings_setSetting.
        destruct (decide (k = k0)) as [->|Hk].
        -- rewrite lookup_insert_eq. intros [= <-]. left.
           rewrite Hmax0 in Hmax. injection Hmax as <-. done.
        -- rewrite lookup_insert_ne by done. by right.
      * apply max_lengths_positive in Hmax0. lia.
    + rewrite getUserSettings_setSetting.
      destruct (decide (k = k0)) as [->|Hk]; [congruence|].
      rewrite lookup_insert_ne by done. by right.
Qed.

Lemma writes_within_trans uid d1 d2 d3 :
  Updates.writes_within uid d1 d2 → Updates.writes_within uid d2 d3 →
  Updates.writes_within uid d1 d3.
Proof.
  intros (A1 & B1 & C1 & D1 & E1 & F1) (A2 & B2 & C2 & D2 & E2 & F2).
  split; [|split; [|split; [|repeat split; congruence]]].
  - intros k Hk. rewrite A2, A1; done.
  - intros other Hne. rewrite B2, B1; done.
  - intros k max v Hmax Hv. destruct (C2 k max v Hmax Hv) as [|Hv2]; [by left|].
    by apply (C1 k max v).
Qed.

(** X14: PATCH /api/settings writes allowed keys of the caller only: keys
    outside the list and the settings of other users stay as they are, a
    bounded key never takes a value of more UTF-16 code units than its
    bound, and the other tables are not touched. *)
Theorem settings_patch_writes_allowed_keys uid entries d :
  (∀ k, k ∉ SettingsRoute.ALLOWED_KEYS →
        Db.getUserSettings uid (SettingsRoute.patch uid (Some entries) d).2 !! k
        = Db.getUserSettings uid d !! k)
  ∧ (∀ other, other ≠ uid →
        Db.getUserSettings other (SettingsRoute.patch uid (Some entries) d).2
        = Db.getUserSettings other d)
  ∧ (∀ k max v, SettingsRoute.MAX_LENGTHS !! k = Some max →
        Db.getUserSettings uid (SettingsRoute.patch uid (Some entries) d).2 !! k = Some v →
        Js.length v ≤ max ∨ Db.getUserSettings uid d !! k = Some v)
  ∧ Db.memory (SettingsRoute.patch uid (Some entries) d).2 = Db.memory d
  ∧ Db.messages (SettingsRoute.patch uid (Some entries) d).2 = Db.messages d
  ∧ Db.conversations (SettingsRoute.patch uid (Some entries) d).2 = Db.conversations d.
Proof.
  change (Updates.writes_within uid d (foldl (SettingsRoute.apply_update uid) d entries)).
  revert d. induction entries as [|kv entries IH]; intros d; cbn [foldl].
  - repeat split; auto.
  - eapply writes_within_trans; [apply apply_update_within|apply IH].
Qed.


End SettingsRoutes.

(** A mode of 20 letters of two bytes each is within the bound of 32, and
    is written. *)
Example setting_of_forty_bytes_is_written :
  Db.getUserSettings 1
    (SettingsRoute.patch 1 (Some [("chat_mode", SettingsRoute.value (Samples.copies 20 "é"))])
       Db.empty).2 !! "chat_mode"
  = Some (Samples.copies 20 "é").
Proof. by vm_compute. Qed.


(** ** The adapter: tool calls and rounds *)

Section FragmentFacts.

Import Fragments.

#[local] Abbreviation table acc := (list_to_map acc : gmap nat Ai.tool_call).







End FragmentFacts.

Section TurnFacts.

Context {Σ : Type}.
Variable JSON_parse : string → option (gmap string string).
Variable provider : nat → Ai.params → Ai.completion.
Variable o : Ai.options (Σ := Σ).
Variable msgsCopy : nat.

Import Turns.

Lemma text_of_app evs1 evs2 : text_of (evs1 ++ evs2) = text_of evs1 +:+ text_of evs2.
Proof.
  induction evs1 as [|ev evs1 IH]; [done|]. simpl.
  destruct ev; try done. by rewrite IH, append_assoc.
Qed.

Lemma consume_effect rs ch :
  Ai.heap (Ai.st (Ai.consume o rs ch)) = Ai.heap (Ai.st rs)
  ∧ ∃ evs, Ai.emitted (Ai.st (Ai.consume o rs ch)) = Ai.emitted (Ai.st rs) ++ evs
           ∧ Forall is_chunk evs
           ∧ Ai.fullResponse (Ai.st (Ai.consume o rs ch))
             = Ai.fullResponse (Ai.st rs) +:+ text_of evs
           ∧ Ai.chunkText (Ai.consume o rs ch) = Ai.chunkText rs +:+ text_of evs.
Proof.
  destruct ch as [c|]; simpl.
  - destruct (Js.truthy (Js.or_empty (Ai.delta_content c))) eqn:Ht; simpl.
    + split; [done|]. eexists [_]. split; [done|]. split; [by apply Forall_singleton|].
      simpl. by rewrite !append_empty_r.
    + split; [done|]. exists []. by rewrite app_nil_r, !append_empty_r.
  - split; [done|]. exists []. by rewrite app_nil_r, !append_empty_r.
Qed.

Lemma consume_all_effect chunks rs :
  Ai.heap (Ai.st (foldl (Ai.consume o) rs chunks)) = Ai.heap (Ai.st rs)
  ∧ ∃ evs, Ai.emitted (Ai.st (foldl (Ai.consume o) rs chunks)) = Ai.emitted (Ai.st rs) ++ evs
           ∧ Forall is_chunk evs
           ∧ Ai.fullResponse (Ai.st (foldl (Ai.consume o) rs chunks))
             = Ai.fullResponse (Ai.st rs) +:+ text_of evs
           ∧ Ai.chunkText (foldl (Ai.consume o) rs chunks) = Ai.chunkText rs +:+ text_of evs.
Proof.
  revert rs. induction chunks as [|ch chunks IH]; intros rs; cbn [foldl].
  - split; [done|]. exists []. by rewrite app_nil_r, !append_empty_r.
  - destruct (IH (Ai.consume o rs ch)) as (Hh & evs2 & He2 & Hc2 & Hf2 & Ht2).
    destruct (consume_effect rs ch) as (Hh1 & evs1 & He1 & Hc1 & Hf1 & Ht1).
    split; [congruence|]. exists (evs1 ++ evs2).
    rewrite He2, He1, Hf2, Hf1, Ht2, Ht1, text_of_app, !append_assoc, app_assoc.
    split; [done|]. split; [by apply Forall_app|done].
Qed.

Lemma run_tool_effect exec s tc cur :
  Ai.heap s !! msgsCopy = Some cur →
  ∃ text,
    Ai.heap (Ai.run_tool JSON_parse o msgsCopy exec s tc) !! msgsCopy
    = Some (cur ++ [Ai.tool_result (Ai.tc_id tc) text])
    ∧ Ai.emitted (Ai.run_tool JSON_parse o msgsCopy exec s tc)
      = Ai.emitted s ++ announced JSON_parse o tc text
    ∧ Ai.fullResponse (Ai.run_tool JSON_parse o msgsCopy exec s tc) = Ai.fullResponse s.
Proof.
  intros Hcur. unfold Ai.run_tool, announced.
  destruct (Ai.onToolCall o) as [f|]; simpl;
    (destruct (exec _ _ _) as [r σ]; simpl; eexists;
     destruct (Ai.onToolResult o) as [g|]; simpl;
     (split; [unfold Ai.push; rewrite lookup_alter_eq, Hcur; reflexivity|]);
     (split; [by rewrite <- ?app_assoc, ?app_nil_r|done])).
Qed.

Lemma run_tools_effect exec calls s cur :
  Ai.heap s !! msgsCopy = Some cur →
  ∃ results,
    length results = length calls
    ∧ Ai.heap (foldl (Ai.run_tool JSON_parse o msgsCopy exec) s calls) !! msgsCopy
      = Some (cur ++ zip_with Ai.tool_result (map Ai.tc_id calls) results)
    ∧ Ai.emitted (foldl (Ai.run_tool JSON_parse o msgsCopy exec) s calls)
      = Ai.emitted s ++ concat (zip_with (announced JSON_parse o) calls results)
    ∧ Ai.fullResponse (foldl (Ai.run_tool JSON_parse o msgsCopy exec) s calls)
      = Ai.fullResponse s.
Proof.
  revert s cur. induction calls as [|tc calls IH]; intros s cur Hcur; cbn [foldl].
  - exists []. simpl. by rewrite !app_nil_r.
  - destruct (run_tool_effect exec s tc cur Hcur) as (text & Hh & He & Hf).
    destruct (IH _ _ Hh) as (results & Hl & Hh2 & He2 & Hf2).
    exists (text :: results). simpl. rewrite Hl, Hh2, He2, He, Hf2, Hf.
    by rewrite <- !app_assoc.
Qed.

Lemma round_effect rnd s s' out cur :
  Ai.heap s !! msgsCopy = Some cur →
  Ai.round JSON_parse provider o msgsCopy rnd s = (s', out) →
  Ai.requests s' = Ai.requests s ++ [Ai.make_params o cur]
  ∧ ∃ chunks,
      Forall is_chunk chunks
      ∧ Ai.fullResponse s' = Ai.fullResponse s +:+ text_of chunks
      ∧ match out with
        | Ai.next_round =>
            ∃ calls results,
              length results = length calls
              ∧ Ai.heap s' !! msgsCopy
                = Some (cur ++ tool_turns
                                 (if Js.truthy (text_of chunks)
                                  then Some (text_of chunks) else None)
                                 calls results)
              ∧ Ai.emitted s'
                = Ai.emitted s ++ chunks
                  ++ concat (zip_with (announced JSON_parse o) calls results)
        | Ai.returned =>
            Ai.heap s' !! msgsCopy = Some cur
            ∧ Ai.emitted s' = Ai.emitted s ++ chunks ++ [Ai.Done (Ai.fullResponse s')]
        | Ai.raised _ =>
            Ai.heap s' !! msgsCopy = Some cur
            ∧ Ai.emitted s' = Ai.emitted s ++ chunks
        end.
Proof.
  intros Hcur. unfold Ai.round, Ai.read. rewrite Hcur. simpl.
  destruct (provider rnd _) as [e|chunks fin].
  { intros [= <- <-]. simpl. split; [done|]. exists []. simpl.
    by rewrite append_empty_r, app_nil_r. }
  set (rs0 := {| Ai.st := _; Ai.chunkText := EmptyString |}).
  destruct (consume_all_effect chunks rs0) as (Hh & evs & He & Hc & Hf & Ht).
  assert (Hreq : Ai.requests (Ai.st (foldl (Ai.consume o) rs0 chunks))
                 = Ai.requests s ++ [Ai.make_params o cur])
    by (by rewrite consume_all_requests).
  set (rs := foldl (Ai.consume o) rs0 chunks) in *.
  simpl in Hh, He, Hf, Ht.
  assert (Hdone : Ai.requests (Ai.emit_done o (Ai.st rs)) = Ai.requests s ++ [Ai.make_params o cur]
    ∧ ∃ chunks0, Forall is_chunk chunks0
        ∧ Ai.fullResponse (Ai.emit_done o (Ai.st rs)) = Ai.fullResponse s +:+ text_of chunks0
        ∧ Ai.heap (Ai.emit_done o (Ai.st rs)) !! msgsCopy = Some cur
        ∧ Ai.emitted (Ai.emit_done o (Ai.st rs))
          = Ai.emitted s ++ chunks0 ++ [Ai.Done (Ai.fullResponse (Ai.emit_done o (Ai.st rs)))]).
  { split; [done|]. exists evs. simpl. rewrite Hh, He, Hf.
    by rewrite <- app_assoc. }
  destruct fin as [|e].
  2:{ intros [= <- <-]. split; [done|]. exists evs. by rewrite Hh. }
  destruct (Ai.toolExecutor o) as [exec|]; [|by intros [= <- <-]].
  destruct (_ && _); [|by intros [= <- <-]].
  intros [= <- <-].
  split; [by rewrite run_tools_requests|].
  exists evs. split; [done|].
  set (s1 := Ai.set_heap _ _).
  assert (Hs1 : Ai.heap s1 !! msgsCopy
                = Some (cur ++ [Ai.assistant_calls
                                  (if Js.truthy (Ai.chunkText rs)
                                   then Some (Ai.chunkText rs) else None)
                                  (Ai.Object_values (Ai.toolCallsAcc rs))])).
  { unfold s1, Ai.push. simpl. by rewrite lookup_alter_eq, Hh, Hcur. }
  destruct (run_tools_effect exec (Ai.Object_values (Ai.toolCallsAcc rs)) s1 _ Hs1)
    as (results & Hl & Hh2 & He2 & Hf2).
  split; [by rewrite Hf2|].
  exists (Ai.Object_values (Ai.toolCallsAcc rs)), results.
  split; [done|]. rewrite Hh2, He2. unfold tool_turns. simpl.
  rewrite He, Ht, <- !app_assoc. done.
Qed.








Lemma rounds_effect n rnd s s' out cur :
  Ai.heap s !! msgsCopy = Some cur →
  Ai.rounds JSON_parse provider o msgsCopy n rnd s = (s', out) →
  ∃ turns reqs,
    Forall tool_round turns
    ∧ Ai.heap s' !! msgsCopy = Some (cur ++ concat turns)
    ∧ Ai.requests s' = Ai.requests s ++ reqs
    ∧ (∀ k p, reqs !! k = Some p → p = Ai.make_params o (cur ++ concat (take k turns)))
    ∧ length reqs = match out with
                    | Ai.next_round => length turns
                    | _ => S (length turns)
                    end
    ∧ length turns ≤ n.
Proof.
  revert rnd s cur. induction n as [|n IH]; intros rnd s cur Hcur; simpl.
  - intros [= <- <-]. exists [], []. simpl. rewrite !app_nil_r.
    repeat split; [constructor|done..].
  - destruct (Ai.round _ _ _ _ _ _) as [s1 out1] eqn:Hround.
    pose proof (round_effect _ _ _ _ _ Hcur Hround) as (Hreq & chunks & Hc & Hf & Hout).
    destruct out1 as [| |e].
    + destruct Hout as (calls & results & Hl & Hh & He).
      intros Hrest. destruct (IH _ _ _ Hh Hrest) as (turns & reqs & Ht & Hh' & Hr' & Hk & Hn & Hle).
      exists (tool_turns (if Js.truthy (text_of chunks) then Some (text_of chunks) else None)
                calls results :: turns), (Ai.make_params o cur :: reqs).
      split; [constructor; [by eexists _, _, _|done]|].
      split; [by rewrite Hh'; simpl; rewrite <- app_assoc|].
      split; [by rewrite Hr', Hreq, <- app_assoc|].
      split.
      { intros [|k] p; simpl.
        - intros [= <-]. by rewrite app_nil_r.
        - intros Hp. rewrite (Hk _ _ Hp). by rewrite <- app_assoc. }
      split; [|simpl; lia]. simpl. rewrite Hn. by destruct out.
    + intros [= <- <-]. destruct Hout as [Hh He].
      exists [], [Ai.make_params o cur]. simpl. rewrite app_nil_r.
      repeat split; [constructor|done..| |lia].
      intros [|k] p; simpl; [|done]. intros [= <-]. by rewrite app_nil_r.
    + intros [= <- <-]. destruct Hout as [Hh He].
      exists [], [Ai.make_params o cur]. simpl. rewrite app_nil_r.
      repeat split; [constructor|done..| |lia].
      intros [|k] p; simpl; [|done]. intros [= <-]. by rewrite app_nil_r.
Qed.

Lemma steps_text s s' :
  Trace.steps o msgsCopy s s' →
  ∃ evs, Ai.emitted s' = Ai.emitted s ++ evs
         ∧ Ai.fullResponse s' = Ai.fullResponse s +:+ text_of evs.
Proof.
  induction 1 as [s|s s1 s2 Hstep _ (evs & He & Hf)].
  - exists []. by rewrite app_nil_r, append_empty_r.
  - destruct Hstep; simpl in *;
      try (exists evs; by rewrite He, Hf);
      (eexists (_ :: evs); rewrite He, Hf, <- app_assoc; split; [reflexivity|]);
      simpl; by rewrite ?append_assoc.
Qed.

End TurnFacts.


Example first_round_turns :
  Ai.heap Samples.first_round !! 1
  = Some (Demo.question
          ++ [Ai.assistant_calls (Some "Let me check. ")
                [{| Ai.tc_id := "call_1"; Ai.tc_name := "memory_get"; Ai.tc_args := "{}" |}];
              Ai.tool_result "call_1" "ok"]).
Proof. by vm_compute. Qed.

Section CallFacts.

Context {Σ : Type}.
Variable JSON_parse : string → option (gmap string string).
Variable provider : nat → Ai.params → Ai.completion.
Variable o : Ai.options (Σ := Σ).

Import Turns.

(** X18: in a call of [streamOpenAI], request [k] carries the caller's
    messages followed by the turns of the first [k] tool rounds, of which
    there are ten at most; the conversation at the end is the caller's
    messages and the turns of all tool rounds. *)
Theorem requests_follow_tool_rounds h σ s msgs :
  Ai.streamOpenAI JSON_parse provider o h σ = inr s →
  h !! Ai.messages o = Some msgs →
  ∃ turns,
    Forall tool_round turns
    ∧ length turns ≤ Ai.MAX_ROUNDS
    ∧ Ai.heap s !! fresh (dom h) = Some (msgs ++ concat turns)
    ∧ length turns ≤ length (Ai.requests s) ≤ S (length turns)
    ∧ ∀ k p, Ai.requests s !! k = Some p →
             p = Ai.make_params o (msgs ++ concat (take k turns)).
Proof.
  intros Hrun Hmsgs.
  apply streamOpenAI_resolved in Hrun as (msgs' & s1 & out & Hm & Hrounds & ->).
  rewrite Hmsgs in Hm. injection Hm as <-.
  apply (rounds_effect JSON_parse provider o) with (cur := msgs) in Hrounds
    as (turns & reqs & Ht & Hh & Hr & Hk & Hn & Hle); [|by simpl; rewrite lookup_insert_eq].
  simpl in Hr. exists turns.
  assert (∀ s2 : Ai.state (Σ := Σ), Ai.heap s2 = Ai.heap s1 → Ai.requests s2 = Ai.requests s1 →
            Forall tool_round turns ∧ length turns ≤ Ai.MAX_ROUNDS
            ∧ Ai.heap s2 !! fresh (dom h) = Some (msgs ++ concat turns)
            ∧ length turns ≤ length (Ai.requests s2) ≤ S (length turns)
            ∧ ∀ k p, Ai.requests s2 !! k = Some p →
                     p = Ai.make_params o (msgs ++ concat (take k turns))) as Hall.
  { intros s2 -> ->. rewrite Hr. repeat split; try done.
    - rewrite Hn. destruct out; lia.
    - rewrite Hn. destruct out; lia. }
  destruct out as [| |e]; [by apply Hall..|].
  case_bool_decide; by apply Hall.
Qed.

(** X19: the text collected by [streamOpenAI], which is the text handed to
    the completion callback, is the text of the chunks reported before, in
    their order. *)
Theorem done_text_is_streamed_text h σ s :
  Ai.streamOpenAI JSON_parse provider o h σ = inr s →
  Ai.fullResponse s = text_of (Ai.emitted s)
  ∧ ∀ text, Ai.Done text ∈ Ai.emitted s → text = text_of (Ai.emitted s).
Proof.
  intros Hrun.
  apply streamOpenAI_resolved in Hrun as (msgs & s1 & out & Hm & Hrounds & ->).
  apply (rounds_steps JSON_parse provider o) in Hrounds.
  assert (Hdone : ∀ s0 : Ai.state (Σ := Σ),
            Trace.steps o (fresh (dom h)) (Ai.init (<[fresh (dom h):=msgs]> h) σ) s0 →
            Ai.fullResponse (Ai.emit_done o s0) = text_of (Ai.emitted (Ai.emit_done o s0))
            ∧ ∀ text, Ai.Done text ∈ Ai.emitted (Ai.emit_done o s0) →
                      text = text_of (Ai.emitted (Ai.emit_done o s0))).
  { intros s0 Hs. pose proof (steps_emitted _ _ _ _ Hs) as (evs' & He' & Hnt).
    apply (steps_text o) in Hs as (evs & He & Hf). simpl in *.
    assert (evs' = evs) as -> by congruence.
    rewrite He, text_of_app. simpl. rewrite append_empty_r. split; [done|].
    intros text [Hin| [= ->]%list_elem_of_singleton]%elem_of_app; [|done].
    rewrite Forall_forall in Hnt. by destruct (Hnt _ Hin). }
  destruct out as [| |e].
  - by apply Hdone.
  - destruct Hrounds as (s0 & Hs & ->). by apply Hdone.
  - case_bool_decide; [|by apply Hdone].
    pose proof (steps_emitted _ _ _ _ Hrounds) as (evs' & He' & Hnt).
    apply (steps_text o) in Hrounds as (evs & He & Hf). simpl in *.
    assert (evs' = evs) as -> by congruence.
    rewrite He, text_of_app. simpl. rewrite append_empty_r. split; [done|].
    intros text [Hin| [=]%list_elem_of_singleton]%elem_of_app.
    rewrite Forall_forall in Hnt. by destruct (Hnt _ Hin).
Qed.

End CallFacts.

Lemma done_text_is_streamed_text_witness :
  Ai.fullResponse Samples.answered = Turns.text_of (Ai.emitted Samples.answered).
Proof.
  assert (H : Ai.streamOpenAI Demo.JSON_parse Samples.calls_once Demo.plain_options
                Demo.store () = inr Samples.answered) by (by vm_compute).
  exact (proj1 (done_text_is_streamed_text Demo.JSON_parse Samples.calls_once
                  Demo.plain_options Demo.store () Samples.answered H)).
Defined.

Lemma requests_follow_tool_rounds_witness :
  ∃ turns,
    Forall Turns.tool_round turns
    ∧ length turns ≤ Ai.MAX_ROUNDS
    ∧ Ai.heap Samples.answered !! fresh (dom Demo.store)
      = Some (Demo.question ++ concat turns)
    ∧ length turns ≤ length (Ai.requests Samples.answered) ≤ S (length turns)
    ∧ ∀ k p, Ai.requests Samples.answered !! k = Some p →
             p = Ai.make_params Demo.plain_options (Demo.question ++ concat (take k turns)).
Proof.
  assert (H : Ai.streamOpenAI Demo.JSON_parse Samples.calls_once Demo.plain_options
                Demo.store () = inr Samples.answered) by (by vm_compute).
  exact (requests_follow_tool_rounds Demo.JSON_parse Samples.calls_once Demo.plain_options
           Demo.store () Samples.answered Demo.question H eq_refl).
Defined.

(** ** The gateway *)

Section SseFacts.

Variable JSON_envelope : string → Ai.exn + Mcp.envelope.

Lemma append_cons c a b : String c a +:+ b = String c (a +:+ b).
Proof. reflexivity. Qed.

Lemma append_empty_l a : EmptyString +:+ a = a.
Proof. reflexivity. Qed.

Lemma split_lines_app a b :
  Js.split_lines (a +:+ b)
  = let '(la, ra) := Js.split_lines a in
    let '(lb, rb) := Js.split_lines (ra +:+ b) in
    (la ++ lb, rb).
Proof.
  induction a as [|c a IH].
  - rewrite append_empty_l. simpl. rewrite append_empty_l.
    by destruct (Js.split_lines b).
  - rewrite append_cons. simpl. rewrite IH.
    destruct (Js.split_lines a) as [la ra].
    case_bool_decide.
    + by destruct (Js.split_lines (ra +:+ b)) as [lb rb].
    + destruct la as [|l la].
      * rewrite append_cons. simpl.
        destruct (Js.split_lines (ra +:+ b)) as [lb rb]. simpl.
        rewrite bool_decide_false by done. by destruct lb.
      * by destruct (Js.split_lines (ra +:+ b)) as [lb rb].
Qed.

Lemma split_lines_rest s : Js.split_lines (Js.split_lines s).2 = ([], (Js.split_lines s).2).
Proof.
  induction s as [|c s IH]; [done|]. simpl.
  destruct (Js.split_lines s) as [ls rest]. simpl in IH.
  case_bool_decide; [done|].
  destruct ls; [|done]. simpl. rewrite IH. by rewrite bool_decide_false.
Qed.

Lemma scan_lines_app l1 l2 :
  Mcp.scan_lines JSON_envelope (l1 ++ l2)
  = match Mcp.scan_lines JSON_envelope l1 with
    | Some r => Some r
    | None => Mcp.scan_lines JSON_envelope l2
    end.
Proof.
  induction l1 as [|line l1 IH]; [done|]. simpl.
  destruct (Js.startsWith line "data: "); [|done].
  destruct (JSON_envelope _) as [e|json]; [done|].
  destruct (Mcp.env_error json); [done|]. by destruct (Mcp.env_result json).
Qed.

Lemma readSSEResult_whole chunks buf :
  Js.split_lines buf = ([], buf) →
  Mcp.readSSEResult JSON_envelope chunks buf
  = Mcp.readSSEResult JSON_envelope [buf +:+ Sse.whole chunks] EmptyString.
Proof.
  revert buf. induction chunks as [|value more IH]; intros buf Hbuf.
  { cbn [Mcp.readSSEResult Sse.whole foldr]. by rewrite append_empty_l, append_empty_r, Hbuf. }
  cbn [Mcp.readSSEResult Sse.whole foldr]. rewrite append_empty_l.
  rewrite <- append_assoc. rewrite (split_lines_app (buf +:+ value)).
  pose proof (split_lines_rest (buf +:+ value)) as Hrest.
  destruct (Js.split_lines (buf +:+ value)) as [lines buf'] eqn:Hsplit. simpl in Hrest.
  rewrite (IH buf' Hrest). cbn [Mcp.readSSEResult]. rewrite append_empty_l.
  change (foldr _ _ more) with (Sse.whole more).
  destruct (Js.split_lines (buf' +:+ Sse.whole more)) as [lb rb].
  rewrite scan_lines_app.
  by destruct (Mcp.scan_lines JSON_envelope lines) as [r|].
Qed.

(** X20: the answer that [readSSEResult] reads from an event stream does
    not depend on how the network cuts the stream into pieces. *)
Theorem sse_result_whatever_the_pieces chunks1 chunks2 :
  Sse.whole chunks1 = Sse.whole chunks2 →
  Mcp.readSSEResult JSON_envelope chunks1 EmptyString
  = Mcp.readSSEResult JSON_envelope chunks2 EmptyString.
Proof.
  intros Hw.
  rewrite (readSSEResult_whole chunks1), (readSSEResult_whole chunks2) by done.
  by rewrite Hw.
Qed.

End SseFacts.

Lemma sse_result_whatever_the_pieces_witness :
  Mcp.readSSEResult Demo.echo_envelope ["event: message" +:+ Js.newline +:+ "da";
                                        "ta: tools/list@x"; Js.newline] EmptyString
  = Mcp.readSSEResult Demo.echo_envelope
      ["event: message" +:+ Js.newline +:+ "data: tools/list@x" +:+ Js.newline]
      EmptyString.
Proof.
  apply sse_result_whatever_the_pieces. by vm_compute.
Defined.

Section WireFacts.

Variable URL_parse : string → option Mcp.url.
Variable JSON_envelope : string → Ai.exn + Mcp.envelope.
Variable JSON_parse : string → option (gmap string string).
Variable fetch : Mcp.request → Mcp.fetch_result.

Import Wire.

Lemma sent_nothing n : sent n n [].
Proof. unfold sent. simpl. by rewrite app_nil_r, Nat.add_0_r. Qed.

Lemma sent_app n1 n2 n3 reqs1 reqs2 :
  sent n1 n2 reqs1 → sent n2 n3 reqs2 → sent n1 n3 (reqs1 ++ reqs2).
Proof.
  intros (Hw1 & Hi1 & Hn1) (Hw2 & Hi2 & Hn2). unfold sent. split; [|split].
  - by rewrite Hw2, Hw1, app_assoc.
  - rewrite map_app, Hi1, Hi2, Hn1, length_app, seq_app. done.
  - rewrite Hn2, Hn1, length_app. lia.
Qed.

(** A request takes the id of the counter and goes to the wire in one
    stretch, unless the guard refuses its address. *)
Lemma mcpRequest_sent serverUrl method params a n r n' :
  Mcp.mcpRequest URL_parse JSON_envelope fetch serverUrl method params a n = (r, n') →
  (sent n n' [] ∧ ∃ e, r = inl e ∧ Mcp.validateMcpUrl URL_parse serverUrl = inl e)
  ∨ (sent n n' [rpc serverUrl a (Mcp.reqId n) method params]
     ∧ Mcp.validateMcpUrl URL_parse serverUrl = inr ()).
Proof.
  unfold Mcp.mcpRequest, mbind, Mcp.M_bind, Mcp.lift, Mcp.nextId, Mcp.do_fetch.
  destruct (Mcp.validateMcpUrl URL_parse serverUrl) as [e|[]]; simpl.
  { intros [= <- <-]. left. split; [apply sent_nothing|eauto]. }
  intros H. right. split; [|done].
  assert (sent n {| Mcp.reqId := S (Mcp.reqId n);
                    Mcp.wire := Mcp.wire n ++ [rpc serverUrl a (Mcp.reqId n) method params] |}
            [rpc serverUrl a (Mcp.reqId n) method params]) as Hsent.
  { unfold sent. simpl. repeat split. lia. }
  fold (rpc serverUrl a (Mcp.reqId n) method params) in H.
  destruct (fetch _) as [e|res]; simpl in H.
  { by injection H as <- <-. }
  destruct (negb (Mcp.ok res)); simpl in H; [by injection H as <- <-|].
  destruct (Js.includes _ _); simpl in H.
  { destruct (Mcp.readSSEResult _ _ _); simpl in H; by injection H as <- <-. }
  destruct (JSON_envelope _) as [e|json]; simpl in H; [by injection H as <- <-|].
  destruct (Mcp.env_error json); simpl in H; by injection H as <- <-.
Qed.

Lemma sent_ordered n n' reqs : ordered n → sent n n' reqs → ordered n'.
Proof.
  intros [Hs Hlt] (Hw & Hi & Hn). unfold ordered. rewrite Hw, map_app, Hi, Hn. split.
  - apply StronglySorted_app_2; [|done|].
    + intros i j Hi' Hj%elem_of_seq.
      apply list_elem_of_fmap in Hi' as (q & -> & Hq).
      rewrite Forall_forall in Hlt. specialize (Hlt _ Hq). lia.
    + clear. generalize (Mcp.reqId n). induction (length reqs) as [|k IH]; intros i; simpl.
      * constructor.
      * constructor; [apply IH|]. apply Forall_forall. intros j Hj%elem_of_seq. lia.
  - apply Forall_app. split.
    + eapply Forall_impl; [exact Hlt|]. simpl. intros. lia.
    + apply Forall_forall. intros q Hq.
      assert (Mcp.req_id q ∈ seq (Mcp.reqId n) (length reqs)) as Hin.
      { rewrite <- Hi. apply list_elem_of_fmap. by exists q. }
      apply elem_of_seq in Hin. lia.
Qed.

Lemma session_nothing serverUrl a method params : session serverUrl a method params [].
Proof. exists 0, 1. split; [lia|apply prefix_nil]. Qed.

Lemma session_first serverUrl a method params i :
  session serverUrl a method params [rpc serverUrl a i "initialize" Mcp.initialize_params].
Proof. exists i, (S i). split; [lia|]. by eexists [_]. Qed.

Lemma session_both serverUrl a method params i j :
  i < j →
  session serverUrl a method params
    [rpc serverUrl a i "initialize" Mcp.initialize_params; rpc serverUrl a j method params].
Proof. intros Hij. by exists i, j. Qed.

(** A call that initializes a session and then sends its method. *)
Lemma session_sent serverUrl method params a n r1 n1 r2 n2 :
  Mcp.mcpInitialize URL_parse JSON_envelope fetch serverUrl a n = (r1, n1) →
  Mcp.mcpRequest URL_parse JSON_envelope fetch serverUrl method params a n1 = (r2, n2) →
  ∀ n', n' = match r1 with inr _ => n2 | inl _ => n1 end →
  ∃ reqs,
    Mcp.wire n' = Mcp.wire n ++ reqs
    ∧ session serverUrl a method params reqs
    ∧ (reqs = [] ↔ ∃ e, Mcp.validateMcpUrl URL_parse serverUrl = inl e)
    ∧ (length reqs = 2 ↔ ∃ res, r1 = inr res)
    ∧ (ordered n → ordered n').
Proof.
  unfold Mcp.mcpInitialize. intros E1 E2 n' ->.
  apply mcpRequest_sent in E1 as [[Hs1 (e & -> & Hv)]|[Hs1 Hv]].
  { exists []. split; [by destruct Hs1|]. split; [apply session_nothing|].
    split; [split; eauto|]. split.
    - split; [done|]. by intros [res ?].
    - intros Ho. by eapply sent_ordered. }
  apply mcpRequest_sent in E2 as [[Hs2 (e & -> & Hv2)]|[Hs2 _]]; [congruence|].
  destruct r1 as [e|res1].
  - eexists [_]. split; [by destruct Hs1|]. split; [apply session_first|].
    split; [split; [done|intros [e' ?]; congruence]|]. split.
    + split; [done|]. by intros [res ?].
    + intros Ho. by eapply sent_ordered.
  - pose proof (sent_app _ _ _ _ _ Hs1 Hs2) as Hs. simpl in Hs.
    eexists [_; _]. split; [by destruct Hs|]. split.
    { apply session_both. destruct Hs1 as (_ & _ & ->). simpl. lia. }
    split; [split; [done|intros [e' ?]; congruence]|]. split; [split; eauto|].
    intros Ho. by eapply sent_ordered.
Qed.

Lemma listTools_session serverUrl a n r n' :
  Mcp.listTools URL_parse JSON_envelope fetch serverUrl a n = (r, n') →
  ∃ reqs,
    Mcp.wire n' = Mcp.wire n ++ reqs
    ∧ session serverUrl a "tools/list" Mcp.no_params reqs
    ∧ (reqs = [] ↔ ∃ e, Mcp.validateMcpUrl URL_parse serverUrl = inl e)
    ∧ (length reqs = 2
       ↔ ∃ res n1, Mcp.mcpInitialize URL_parse JSON_envelope fetch serverUrl a n
                   = (inr res, n1))
    ∧ (ordered n → ordered n').
Proof.
  unfold Mcp.listTools, Mcp.try_catch, mbind, Mcp.M_bind.
  destruct (Mcp.mcpInitialize _ _ _ serverUrl a n) as [r1 n1] eqn:E1.
  destruct (Mcp.mcpRequest _ _ _ serverUrl "tools/list" Mcp.no_params a n1)
    as [r2 n2] eqn:E2.
  intros H.
  destruct (session_sent _ _ _ _ _ _ _ _ _ E1 E2 n') as (reqs & Hw & Hs & Hv & Hl & Ho).
  { destruct r1 as [e|res1]; simpl in H; [by injection H as <- <-|].
    destruct r2; simpl in H; by injection H as <- <-. }
  exists reqs. repeat (split; [done|]). split; [|done].
  rewrite Hl. split; [intros [res ->]; eauto|intros (res & n0 & [= -> _]); eauto].
Qed.

Lemma callTool_session serverUrl toolName args a n r n' :
  Mcp.callTool URL_parse JSON_envelope fetch serverUrl toolName args a n = (r, n') →
  ∃ reqs,
    Mcp.wire n' = Mcp.wire n ++ reqs
    ∧ session serverUrl a "tools/call" (Mcp.call_params toolName args) reqs
    ∧ (reqs = [] ↔ ∃ e, Mcp.validateMcpUrl URL_parse serverUrl = inl e)
    ∧ (length reqs = 2
       ↔ ∃ res n1, Mcp.mcpInitialize URL_parse JSON_envelope fetch serverUrl a n
                   = (inr res, n1))
    ∧ (ordered n → ordered n').
Proof.
  unfold Mcp.callTool, Mcp.try_catch, mbind, Mcp.M_bind.
  destruct (Mcp.mcpInitialize _ _ _ serverUrl a n) as [r1 n1] eqn:E1.
  destruct (Mcp.mcpRequest _ _ _ serverUrl "tools/call" (Mcp.call_params toolName args)
              a n1) as [r2 n2] eqn:E2.
  intros H.
  destruct (session_sent _ _ _ _ _ _ _ _ _ E1 E2 n') as (reqs & Hw & Hs & Hv & Hl & Ho).
  { destruct r1 as [e|res1]; simpl in H; [by injection H as <- <-|].
    destruct r2; simpl in H; by injection H as <- <-. }
  exists reqs. repeat (split; [done|]). split; [|done].
  rewrite Hl. split; [intros [res ->]; eauto|intros (res & n0 & [= -> _]); eauto].
Qed.

(** X21: a call of [listTools] or [callTool] sends nothing when the guard
    refuses the address; otherwise it sends [initialize] and, only when
    that was answered with a result, the method itself under a later id:
    two requests at most, to the address given and with the credentials
    given.  It uses no id that is on the wire already. *)
Theorem gateway_sessions serverUrl toolName args a n :
  (∀ r n', Mcp.listTools URL_parse JSON_envelope fetch serverUrl a n = (r, n') →
     ∃ reqs,
       Mcp.wire n' = Mcp.wire n ++ reqs
       ∧ session serverUrl a "tools/list" Mcp.no_params reqs
       ∧ (reqs = [] ↔ ∃ e, Mcp.validateMcpUrl URL_parse serverUrl = inl e)
       ∧ (length reqs = 2
          ↔ ∃ res n1, Mcp.mcpInitialize URL_parse JSON_envelope fetch serverUrl a n
                      = (inr res, n1))
       ∧ (ordered n → ordered n'))
  ∧ (∀ r n', Mcp.callTool URL_parse JSON_envelope fetch serverUrl toolName args a n = (r, n') →
     ∃ reqs,
       Mcp.wire n' = Mcp.wire n ++ reqs
       ∧ session serverUrl a "tools/call" (Mcp.call_params toolName args) reqs
       ∧ (reqs = [] ↔ ∃ e, Mcp.validateMcpUrl URL_parse serverUrl = inl e)
       ∧ (length reqs = 2
          ↔ ∃ res n1, Mcp.mcpInitialize URL_parse JSON_envelope fetch serverUrl a n
                      = (inr res, n1))
       ∧ (ordered n → ordered n')).
Proof.
  split; intros r n'; [apply listTools_session|apply callTool_session].
Qed.

(** *** Discovery *)

Lemma resume_total cb c n :
  ∃ cb' c' n', Mcp.resume URL_parse JSON_envelope fetch cb c n = (inr (cb', c'), n').
Proof.
  destruct cb as [srv a [e|res]|srv a [e|res]|]; simpl; eauto.
  destruct (Mcp.mcpRequest _ _ _ _ _ _ _ n) as [r n']. eauto.
Qed.

(** What every resumed callback keeps, of the callbacks, the catalogue
    and the wire, holds when all answers have arrived. *)
Lemma deliver_all_invariant (P : list Mcp.callback → Mcp.catalog → Mcp.net → Prop)
    arrivals cbs c n :
  (∀ cbs c n i cb cb' c' n',
     cbs !! i = Some cb →
     Mcp.resume URL_parse JSON_envelope fetch cb c n = (inr (cb', c'), n') →
     P cbs c n → P (<[i:=cb']> cbs) c' n') →
  P cbs c n →
  ∃ cbs' c' n',
    Mcp.deliver_all URL_parse JSON_envelope fetch arrivals (cbs, c) n = (inr (cbs', c'), n')
    ∧ P cbs' c' n'.
Proof.
  intros Hstep. revert cbs c n.
  induction arrivals as [|i arrivals IH]; intros cbs c n HP; simpl; [eauto|].
  unfold mbind, Mcp.M_bind, Mcp.deliver. simpl.
  destruct (cbs !! i) as [cb|] eqn:Hcb; simpl; [|by apply IH].
  destruct (resume_total cb c n) as (cb' & c' & n' & E).
  unfold mbind, Mcp.M_bind. rewrite E. simpl.
  apply IH. by eapply Hstep.
Qed.

Lemma start_all_length servers n cbs n' :
  Mcp.start_all URL_parse JSON_envelope JSON_parse fetch servers n = (inr cbs, n') →
  length cbs = length servers.
Proof.
  revert n cbs n'. induction servers as [|srv servers IH]; intros n cbs n'; simpl.
  { by intros [= <- <-]. }
  unfold mbind, Mcp.M_bind, Mcp.start.
  destruct (Mcp.mcpInitialize _ _ _ _ _ n) as [r n1].
  destruct (Mcp.start_all _ _ _ _ servers n1) as [[e|cbs1] n2] eqn:E; [done|].
  intros [= <- <-]. simpl. f_equal. by eapply IH.
Qed.

Lemma resume_advances cb c n cb' c' n' :
  Mcp.resume URL_parse JSON_envelope fetch cb c n = (inr (cb', c'), n') →
  (cb = Mcp.finished → cb' = Mcp.finished)
  ∧ ((∃ srv a r, cb = Mcp.listing srv a r) → cb' = Mcp.finished)
  ∧ ((∃ srv a r, cb = Mcp.initializing srv a r) →
     cb' = Mcp.finished ∨ ∃ srv a r, cb' = Mcp.listing srv a r).
Proof.
  destruct cb as [srv a [e|res]|srv a [e|res]|]; simpl.
  2:{ destruct (Mcp.mcpRequest _ _ _ _ _ _ _ n) as [r n1]. intros [= <- _ _].
      split; [done|]. split; [by intros (? & ? & ? & ?)|]. intros _. right. eauto. }
  all: intros [= <- _ _]; split; [done|]; split; [done|]; intros _; by left.
Qed.

(** Whatever the order of the answers, every callback has run to its end
    when the last answer has arrived. *)
Lemma every_callback_finishes servers arrivals n cbs n1 :
  Mcp.start_all URL_parse JSON_envelope JSON_parse fetch servers n = (inr cbs, n1) →
  ∃ c n',
    Mcp.deliver_all URL_parse JSON_envelope fetch
      (arrivals ++ seq 0 (length servers) ++ seq 0 (length servers))
      (cbs, {| Mcp.openaiTools := []; Mcp.toolServerMap := ∅ |}) n1
    = (inr (replicate (length servers) Mcp.finished, c), n').
Proof.
  intros Hstart. apply start_all_length in Hstart as Hlen.
  set (stage := λ cb, match cb with
                      | Mcp.initializing _ _ _ => 0
                      | Mcp.listing _ _ _ => 1
                      | Mcp.finished => 2
                      end).
  assert (Hrun : ∀ l cbs0 c0 n0,
            ∃ cbs' c' n',
              Mcp.deliver_all URL_parse JSON_envelope fetch l (cbs0, c0) n0
              = (inr (cbs', c'), n')
              ∧ length cbs' = length cbs0
              ∧ ∀ i cb, cbs0 !! i = Some cb →
                  ∃ cb', cbs' !! i = Some cb'
                         ∧ (2 ≤ stage cb' ∨ stage cb + length (filter (λ j, j = i) l) ≤ stage cb')).
  { intros l cbs0 c0 n0.
    revert cbs0 c0 n0. induction l as [|j l IH]; intros cbs0 c0 n0; simpl.
    { eexists _, _, _. split; [done|]. split; [done|]. intros i cb Hi. exists cb.
      split; [done|]. destruct cb; simpl; lia. }
    unfold mbind, Mcp.M_bind, Mcp.deliver. simpl.
    destruct (cbs0 !! j) as [cbj|] eqn:Hj; simpl.
    - destruct (resume_total cbj c0 n0)
        as (cb1 & c1 & n1' & E).
      unfold mbind, Mcp.M_bind. rewrite E. simpl.
      apply resume_advances in E as (Hfin & Hlist & Hinit).
      destruct (IH (<[j:=cb1]> cbs0) c1 n1') as (cbs' & c' & n' & -> & Hl & Hst).
      eexists _, _, _. split; [done|]. split; [by rewrite Hl, length_insert|].
      intros i cb Hi. destruct (decide (j = i)) as [->|Hne].
      + rewrite Hj in Hi. injection Hi as ->.
        destruct (Hst i cb1) as (cb' & Hcb' & Hle).
        { apply list_lookup_insert_eq. by eapply lookup_lt_Some. }
        exists cb'. split; [done|]. rewrite filter_cons_True by done. cbn [length].
        assert (2 ≤ stage cb1 ∨ stage cb + 1 ≤ stage cb1).
        { destruct cb as [srv a r|srv a r|]; simpl.
          - destruct Hinit as [->|(? & ? & ? & ->)]; [by eauto| |]; simpl; lia.
          - rewrite Hlist by eauto. simpl. lia.
          - rewrite Hfin by done. simpl. lia. }
        lia.
      + destruct (Hst i cb) as (cb' & Hcb' & Hle).
        { by rewrite list_lookup_insert_ne. }
        exists cb'. split; [done|]. by rewrite filter_cons_False.
    - destruct (IH cbs0 c0 n0) as (cbs' & c' & n' & -> & Hl & Hst).
      eexists _, _, _. split; [done|]. split; [done|].
      intros i cb Hi. destruct (Hst i cb Hi) as (cb' & Hcb' & Hle).
      exists cb'. split; [done|].
      rewrite filter_cons_False; [done|]. intros ->. congruence. }
  destruct (Hrun (arrivals ++ seq 0 (length servers) ++ seq 0 (length servers)) cbs
              {| Mcp.openaiTools := []; Mcp.toolServerMap := ∅ |} n1)
    as (cbs' & c' & n' & -> & Hl & Hst).
  exists c', n'. do 2 f_equal. f_equal.
  apply list_eq_same_length with (length servers); [by rewrite length_replicate|lia|].
  intros i cb1 cb2 Hi H1 H2.
  apply lookup_replicate in H2 as [-> _].
  destruct (lookup_lt_is_Some_2 cbs i) as [cb Hcb]; [lia|].
  destruct (Hst i cb Hcb) as (cb' & Hcb' & Hle).
  rewrite H1 in Hcb'. injection Hcb' as <-.
  assert (2 ≤ length (filter (λ j, j = i)
                        (arrivals ++ seq 0 (length servers) ++ seq 0 (length servers)))).
  { rewrite !filter_app, !length_app.
    assert (1 ≤ length (filter (λ j, j = i) (seq 0 (length servers)))).
    { assert (i ∈ filter (λ j, j = i) (seq 0 (length servers))) as Hin.
      { apply list_elem_of_filter. split; [done|]. apply elem_of_seq. lia. }
      destruct (filter _ (seq 0 (length servers))); [by apply elem_of_nil in Hin|simpl; lia]. }
    lia. }
  destruct cb1; simpl in Hle; try done; lia.
Qed.

Lemma sent_counter n n' reqs : sent n n' reqs → Mcp.reqId n ≤ Mcp.reqId n'.
Proof. intros (_ & _ & ->). lia. Qed.

Lemma start_all_running servers n :
  ∃ cbs n',
    Mcp.start_all URL_parse JSON_envelope JSON_parse fetch servers n = (inr cbs, n')
    ∧ running JSON_parse n servers cbs n'
    ∧ Mcp.reqId n ≤ Mcp.reqId n'.
Proof.
  revert n. induction servers as [|srv servers IH]; intros n; simpl.
  { exists [], n. split; [done|]. split; [|done]. exists []. simpl.
    split; [done|]. split; [constructor|]. split; [exists []; by rewrite app_nil_r|].
    split; [constructor|done]. }
  unfold mbind, Mcp.M_bind, Mcp.start.
  destruct (Mcp.mcpInitialize _ _ _ _ _ n) as [r n1] eqn:E1.
  destruct (IH n1) as (cbs & n' & -> & (tagged & -> & Hw & (reqs & Hwire & Hperm) & Hids & Ho)
                       & Hle).
  unfold Mcp.mcpInitialize in E1.
  set (a := Mcp.buildAuth JSON_parse srv) in *.
  eexists _, n'. split; [reflexivity|].
  apply mcpRequest_sent in E1 as [[Hs1 (e & -> & Hv)]|[Hs1 Hv]].
  - split; [|apply sent_counter in Hs1; lia].
    exists ((Mcp.initializing srv a (inl e), []) :: tagged). simpl.
    split; [done|]. split.
    { constructor; [|done]. split; [apply session_nothing|]. simpl.
      repeat split; [lia|done]. }
    split.
    { exists reqs. destruct Hs1 as (Hw1 & _). rewrite Hwire, Hw1, app_nil_r. done. }
    split; [done|]. intros Ho1. apply Ho. by eapply sent_ordered.
  - split; [|apply sent_counter in Hs1; lia].
    exists ((Mcp.initializing srv a r,
             [rpc (Db.srv_url srv) a (Mcp.reqId n) "initialize" Mcp.initialize_params])
            :: tagged). simpl.
    split; [done|]. split.
    { constructor; [|done]. split; [apply session_first|]. simpl. repeat split; lia. }
    split.
    { eexists (_ :: reqs). destruct Hs1 as (Hw1 & _).
      rewrite Hwire, Hw1, <- app_assoc. split; [done|]. by constructor. }
    split.
    { constructor; [|done]. simpl. destruct Hs1 as (_ & _ & Hn1). simpl in Hn1. lia. }
    intros Ho1. apply Ho. by eapply sent_ordered.
Qed.

Lemma elem_of_concat {A} (x : A) (l : list A) (ls : list (list A)) :
  x ∈ l → l ∈ ls → x ∈ concat ls.
Proof.
  intros Hx. induction ls as [|l0 ls IH]; [by intros ?%elem_of_nil|].
  simpl. rewrite elem_of_app. intros [->|Hl]%elem_of_cons; auto.
Qed.

Lemma tagged_insert (tagged : list (Mcp.callback * list Mcp.request)) i cb sess cb' extra :
  tagged !! i = Some (cb, sess) →
  concat (<[i := (cb', sess ++ extra)]> tagged).*2 ≡ₚ concat tagged.*2 ++ extra.
Proof.
  revert i. induction tagged as [|t tagged IH]; intros [|i]; simpl; try done.
  - intros [= ->]. simpl. rewrite <- !app_assoc. apply Permutation_app_head.
    apply Permutation_app_comm.
  - intros Hi. rewrite (IH _ Hi). by rewrite app_assoc.
Qed.

Lemma resume_running n0 servers cbs c n i cb cb' c' n' :
  cbs !! i = Some cb →
  Mcp.resume URL_parse JSON_envelope fetch cb c n = (inr (cb', c'), n') →
  running JSON_parse n0 servers cbs n → running JSON_parse n0 servers (<[i:=cb']> cbs) n'.
Proof.
  intros Hcb Hres (tagged & -> & Hw & (reqs & Hwire & Hperm) & Hids & Ho).
  rewrite list_lookup_fmap in Hcb.
  destruct (tagged !! i) as [[cb0 sess]|] eqn:Ht; [|done]. simpl in Hcb.
  injection Hcb as ->.
  destruct (Forall2_lookup_r _ _ _ _ _ Hw Ht) as (srv & Hsrv & Hwait).
  assert (Hkeep : ∀ extra,
            waits JSON_parse srv (cb', sess ++ extra) →
            (∃ reqs', Mcp.wire n' = Mcp.wire n0 ++ reqs' ∧ reqs' ≡ₚ (concat tagged.*2) ++ extra) →
            Forall (λ q, Mcp.req_id q < Mcp.reqId n') (concat tagged.*2 ++ extra) →
            (ordered n → ordered n') →
            running JSON_parse n0 servers (<[i:=cb']> tagged.*1) n').
  { intros extra Hwait' (reqs' & Hwire' & Hperm') Hids' Ho'.
    exists (<[i := (cb', sess ++ extra)]> tagged).
    split; [by rewrite list_fmap_insert|]. split.
    { rewrite <- (list_insert_id servers i srv) by done. by apply Forall2_insert. }
    split.
    { exists reqs'. split; [done|]. by rewrite tagged_insert. }
    split; [by rewrite tagged_insert|]. auto. }
  assert (Hsame : ∀ cb1, cb' = cb1 → n' = n → waits JSON_parse srv (cb1, sess) →
            running JSON_parse n0 servers (<[i:=cb']> tagged.*1) n').
  { intros cb1 -> -> Hwait'. apply (Hkeep []).
    - by rewrite app_nil_r.
    - exists reqs. by rewrite app_nil_r.
    - by rewrite app_nil_r.
    - done. }
  destruct Hwait as [Hsess Hcase]. simpl in Hsess, Hcase.
  destruct cb as [srv' a [e|res]|srv' a [e|res]|]; simpl in Hres.
  - injection Hres as <- _ <-. by apply (Hsame Mcp.finished).
  - destruct Hcase as (-> & -> & Hlen & Hone). specialize (Hone res eq_refl).
    destruct (Mcp.mcpRequest _ _ _ _ _ _ _ n) as [r n1] eqn:E. injection Hres as <- _ <-.
    apply mcpRequest_sent in E as [[Hs (e & -> & Hv)]|[Hs Hv]].
    + apply (Hkeep []).
      * rewrite app_nil_r. by split.
      * exists reqs. destruct Hs as (Hw1 & _). by rewrite Hw1, !app_nil_r.
      * rewrite app_nil_r. eapply Forall_impl; [exact Hids|]. simpl.
        apply sent_counter in Hs. intros. lia.
      * intros Ho1. by eapply sent_ordered.
    + destruct sess as [|q [|q2 sess]]; simpl in Hone; try lia.
      destruct Hsess as (i0 & j0 & Hij & Hpre).
      assert (q = rpc (Db.srv_url srv) (Mcp.buildAuth JSON_parse srv) i0 "initialize"
                    Mcp.initialize_params) as ->.
      { destruct Hpre as [k Hk]. by injection Hk as ->. }
      assert (i0 < Mcp.reqId n) as Hlt.
      { assert (Hq : rpc (Db.srv_url srv) (Mcp.buildAuth JSON_parse srv) i0 "initialize"
                       Mcp.initialize_params ∈ concat tagged.*2).
        { eapply elem_of_concat; [apply list_elem_of_here|].
          apply list_elem_of_fmap. eexists (_, _). split; [done|].
          by eapply list_elem_of_lookup_2. }
        rewrite Forall_forall in Hids. by apply Hids in Hq. }
      apply (Hkeep [rpc (Db.srv_url srv) (Mcp.buildAuth JSON_parse srv) (Mcp.reqId n)
                      "tools/list" Mcp.no_params]).
      * split; [by apply session_both|]. by simpl.
      * eexists. destruct Hs as (Hw1 & _). rewrite Hw1, Hwire, <- app_assoc.
        split; [done|]. by apply Permutation_app_tail.
      * destruct Hs as (_ & _ & Hn1). apply Forall_app. split.
        -- eapply Forall_impl; [exact Hids|]. simpl. intros. lia.
        -- apply Forall_singleton. unfold rpc. simpl in *. lia.
      * intros Ho1. by eapply sent_ordered.
  - injection Hres as <- _ <-. by apply (Hsame Mcp.finished).
  - injection Hres as <- _ <-. by apply (Hsame Mcp.finished).
  - injection Hres as <- _ <-. by apply (Hsame Mcp.finished).
Qed.

(** Over one server, discovery is [listTools] and the merge of its
    tools. *)
Lemma discovery_of_one_server srv n :
  Mcp.collectMCPTools URL_parse JSON_envelope JSON_parse fetch [srv] [] n
  = match Mcp.listTools URL_parse JSON_envelope fetch (Db.srv_url srv)
            (Mcp.buildAuth JSON_parse srv) n with
    | (inr tools, n') =>
        (inr (Mcp.merge_tools srv (Mcp.buildAuth JSON_parse srv) tools
                {| Mcp.openaiTools := []; Mcp.toolServerMap := ∅ |}), n')
    | (inl e, n') => (inl e, n')
    end.
Proof.
  unfold Mcp.collectMCPTools, Mcp.listTools, Mcp.try_catch. simpl.
  unfold mbind, Mcp.M_bind, Mcp.start, Mcp.deliver. simpl.
  destruct (Mcp.mcpInitialize _ _ _ _ _ n) as [[e|res] n1]; simpl; [done|].
  unfold mbind, Mcp.M_bind. simpl.
  destruct (Mcp.mcpRequest _ _ _ _ _ _ _ n1) as [[e|res2] n2]; simpl; done.
Qed.

Lemma collectMCPTools_running servers arrivals n :
  ∃ c cbs n',
    Mcp.collectMCPTools URL_parse JSON_envelope JSON_parse fetch servers arrivals n
    = (inr c, n')
    ∧ running JSON_parse n servers cbs n'.
Proof.
  unfold Mcp.collectMCPTools, mbind, Mcp.M_bind.
  destruct (start_all_running servers n) as (cbs & n1 & -> & Hrun & _).
  destruct (deliver_all_invariant (λ cbs _ n', running JSON_parse n servers cbs n')
              (arrivals ++ seq 0 (length servers) ++ seq 0 (length servers)) cbs
              {| Mcp.openaiTools := []; Mcp.toolServerMap := ∅ |} n1)
    as (cbs' & c' & n' & -> & Hrun'); [|done|by eauto].
  intros. by eapply resume_running.
Qed.

(** X22: the requests that discovery puts on the wire are, in some order,
    those of one session for each configured server, with the credentials of
    that server: [initialize] and, under a later id, [tools/list], or the
    part of them that was sent.  No id is used twice. *)
Theorem discovery_contacts_configured_servers servers arrivals n r n' :
  Mcp.collectMCPTools URL_parse JSON_envelope JSON_parse fetch servers arrivals n = (r, n') →
  ∃ sessions reqs,
    discovery JSON_parse servers sessions
    ∧ Mcp.wire n' = Mcp.wire n ++ reqs
    ∧ reqs ≡ₚ concat sessions
    ∧ (ordered n → ordered n').
Proof.
  destruct (collectMCPTools_running servers arrivals n)
    as (c & cbs & n1 & -> & tagged & _ & Hw & (reqs & Hwire & Hperm) & _ & Ho).
  intros [= <- <-]. exists tagged.*2, reqs. split; [|done].
  unfold discovery. apply Forall2_fmap_r.
  eapply Forall2_impl; [exact Hw|]. by intros srv t [Hs _].
Qed.

End WireFacts.

(** [Demo.alpha] is listed, and a local address is not contacted. *)
Example gateway_sessions_listing :
  Mcp.wire (Mcp.listTools Demo.URL_parse Demo.echo_envelope Demo.echo_fetch
              "https://alpha.example/mcp" None Mcp.boot).2
  = [Wire.rpc "https://alpha.example/mcp" None 1 "initialize" Mcp.initialize_params;
     Wire.rpc "https://alpha.example/mcp" None 2 "tools/list" Mcp.no_params]
  ∧ Mcp.wire (Mcp.listTools Demo.URL_parse Demo.echo_envelope Demo.no_fetch
                "https://alpha.example/mcp" None Mcp.boot).2
    = [Wire.rpc "https://alpha.example/mcp" None 1 "initialize" Mcp.initialize_params]
  ∧ Mcp.wire (Mcp.listTools Demo.URL_parse Demo.echo_envelope Demo.echo_fetch
                "http://192.168.1.5/mcp" None Mcp.boot).2
    = [].
Proof. by vm_compute. Qed.

Lemma discovery_contacts_configured_servers_witness :
  ∃ sessions reqs,
    Wire.discovery Demo.JSON_parse [Demo.alpha; Demo.beta] sessions
    ∧ Mcp.wire Samples.collected.2 = Mcp.wire Mcp.boot ++ reqs
    ∧ reqs ≡ₚ concat sessions
    ∧ (Wire.ordered Mcp.boot → Wire.ordered Samples.collected.2).
Proof.
  apply (discovery_contacts_configured_servers Demo.URL_parse Demo.echo_envelope
           Demo.JSON_parse Demo.echo_fetch [Demo.alpha; Demo.beta] [1; 0; 0; 1] Mcp.boot
           Samples.collected.1).
  by vm_compute.
Defined.

Section GatewayFacts.

Variable URL_parse : string → option Mcp.url.
Variable JSON_envelope : string → Ai.exn + Mcp.envelope.
Variable JSON_parse : string → option (gmap string string).
Variable fetch : Mcp.request → Mcp.fetch_result.

Lemma callTool_total serverUrl toolName args a n :
  ∃ blocks n',
    Mcp.callTool URL_parse JSON_envelope fetch serverUrl toolName args a n = (inr blocks, n').
Proof.
  unfold Mcp.callTool, Mcp.try_catch.
  match goal with
  | |- context [match ?m n with _ => _ end] => destruct (m n) as [[e|blocks] n']
  end; simpl; eauto.
Qed.

Lemma collectMCPTools_total servers arrivals n :
  ∃ c n',
    Mcp.collectMCPTools URL_parse JSON_envelope JSON_parse fetch servers arrivals n
    = (inr c, n').
Proof.
  destruct (collectMCPTools_running URL_parse JSON_envelope JSON_parse fetch servers
              arrivals n) as (c & cbs & n' & H & _).
  eauto.
Qed.

Lemma connection_test uid id d n :
  ∃ n',
    McpRoute.tools URL_parse JSON_envelope fetch uid id d n
    = (inr match Db.get_server id uid d with
           | None => McpRoute.failed 404 "Not found"
           | Some server =>
               let tools :=
                 match Mcp.listTools URL_parse JSON_envelope fetch (Db.srv_url server)
                         None n with
                 | (inr tools, _) => tools
                 | _ => []
                 end in
               McpRoute.json (length tools, tools)
           end, n').
Proof.
  unfold McpRoute.tools.
  destruct (Db.get_server id uid d) as [server|]; [|by exists n].
  unfold Mcp.try_catch, mbind, Mcp.M_bind.
  destruct (listTools_total URL_parse JSON_envelope fetch (Db.srv_url server) None n)
    as (tools & n' & E).
  rewrite E. by exists n'.
Qed.

(** X23: no call of the gateway throws: a server that cannot be listed has
    no tools, a tool call that fails answers with the text of the failure,
    and discovery always yields a catalogue.  So the connection test of
    GET /api/mcp/:id/tools answers 404 or [ok: true] with the tools it
    found: its branch for 502 is never taken. *)
Theorem gateway_never_throws serverUrl toolName args a servers arrivals uid id d n :
  (∃ tools n', Mcp.listTools URL_parse JSON_envelope fetch serverUrl a n = (inr tools, n'))
  ∧ (∃ blocks n',
       Mcp.callTool URL_parse JSON_envelope fetch serverUrl toolName args a n
       = (inr blocks, n'))
  ∧ (∃ c n',
       Mcp.collectMCPTools URL_parse JSON_envelope JSON_parse fetch servers arrivals n
       = (inr c, n'))
  ∧ (∃ n',
       McpRoute.tools URL_parse JSON_envelope fetch uid id d n
       = (inr match Db.get_server id uid d with
              | None => McpRoute.failed 404 "Not found"
              | Some server =>
                  let tools :=
                    match Mcp.listTools URL_parse JSON_envelope fetch (Db.srv_url server)
                            None n with
                    | (inr tools, _) => tools
                    | _ => []
                    end in
                  McpRoute.json (length tools, tools)
              end, n')).
Proof.
  split; [apply listTools_total|]. split; [apply callTool_total|].
  split; [apply collectMCPTools_total|apply connection_test].
Qed.

Lemma merge_tools_coherent servers srv tools c :
  srv ∈ servers →
  Catalogue.coherent JSON_parse servers c →
  Catalogue.coherent JSON_parse servers (Mcp.merge_tools srv (Mcp.buildAuth JSON_parse srv) tools c).
Proof.
  intros Hsrv. unfold Mcp.merge_tools. revert c.
  induction tools as [|t tools IH]; intros c Hc; [done|]. cbn [foldl]. apply IH.
  destruct (Mcp.toolServerMap c !! Mcp.tool_name t) as [taken|] eqn:Ht; [done|].
  destruct Hc as (Hnd & Htools & Hmap).
  assert (Hfresh : Mcp.tool_name t ∉ map Tools.tool_name (Mcp.openaiTools c)).
  { intros (t0 & Hn & Hin)%list_elem_of_fmap.
    destruct (Htools _ Hin) as (_ & info & Hinfo & _). congruence. }
  split; [|split]; simpl.
  - rewrite map_app. simpl. apply NoDup_app. split; [done|]. split.
    + by intros name Hin ->%list_elem_of_singleton.
    + apply NoDup_singleton.
  - intros t0 [Hin|Hnew]%elem_of_app; [|apply list_elem_of_singleton in Hnew as ->].
    + destruct (Htools _ Hin) as (Hty & info & Hinfo & Hurl). split; [done|].
      exists info. split; [|done]. rewrite lookup_insert_ne; [done|].
      intros Heq. apply Hfresh. rewrite Heq. apply list_elem_of_fmap. by exists t0.
    + simpl. split; [done|]. eexists. by rewrite lookup_insert_eq.
  - intros name info. rewrite map_app, elem_of_app. simpl.
    destruct (decide (Mcp.tool_name t = name)) as [<-|Hne].
    + rewrite lookup_insert_eq. intros [= <-]. split; [right; left|]. by exists srv.
    + rewrite lookup_insert_ne by done. intros Hinfo.
      destruct (Hmap _ _ Hinfo) as [Hin Hs]. auto.
Qed.

Lemma start_all_owned servers n cbs n' :
  Mcp.start_all URL_parse JSON_envelope JSON_parse fetch servers n = (inr cbs, n') →
  Forall (Catalogue.owned JSON_parse servers) cbs.
Proof.
  revert n cbs n'. induction servers as [|srv servers IH]; intros n cbs n'; simpl.
  { intros [= <- <-]. constructor. }
  unfold mbind, Mcp.M_bind, Mcp.start.
  destruct (Mcp.mcpInitialize _ _ _ _ _ n) as [r n1].
  destruct (Mcp.start_all _ _ _ _ servers n1) as [[e|cbs1] n2] eqn:E; [done|].
  intros [= <- <-]. constructor.
  - simpl. split; [left|done].
  - eapply Forall_impl; [by eapply IH|].
    intros [srv0 a0 r0|srv0 a0 r0|]; simpl; [| |done]; intros [? ?]; split; [by right|done
                                                                              |by right|done].
Qed.

Lemma resume_coherent servers cbs c n i cb cb' c' n' :
  cbs !! i = Some cb →
  Mcp.resume URL_parse JSON_envelope fetch cb c n = (inr (cb', c'), n') →
  Forall (Catalogue.owned JSON_parse servers) cbs ∧ Catalogue.coherent JSON_parse servers c →
  Forall (Catalogue.owned JSON_parse servers) (<[i:=cb']> cbs) ∧ Catalogue.coherent JSON_parse servers c'.
Proof.
  intros Hcb Hres [Hown Hc].
  assert (Hcb' : Catalogue.owned JSON_parse servers cb) by (rewrite Forall_forall in Hown; eapply Hown;
                                        by eapply list_elem_of_lookup_2).
  destruct cb as [srv a [e|res]|srv a [e|res]|]; simpl in Hres, Hcb'.
  - injection Hres as <- <- <-. destruct Hcb' as [Hsrv ->].
    split; [by apply Forall_insert|first [done|by apply merge_tools_coherent]].
  - destruct (Mcp.mcpRequest _ _ _ _ _ _ _ n) as [r n1]. injection Hres as <- <- <-.
    split; [by apply Forall_insert|done].
  - injection Hres as <- <- <-. destruct Hcb' as [Hsrv ->].
    split; [by apply Forall_insert|first [done|by apply merge_tools_coherent]].
  - injection Hres as <- <- <-. destruct Hcb' as [Hsrv ->].
    split; [by apply Forall_insert|first [done|by apply merge_tools_coherent]].
  - injection Hres as <- <- <-. split; [by apply Forall_insert|done].
Qed.

(** X24: the catalogue of remote tools and the routing table that
    [collectMCPTools] returns agree: the catalogue has one entry for each
    name, the table routes exactly the names of the catalogue, each to the
    address the entry names, which is a configured server's, with the
    credentials of that server. *)
Theorem catalogue_agrees_with_routes servers arrivals n c n' :
  Mcp.collectMCPTools URL_parse JSON_envelope JSON_parse fetch servers arrivals n
  = (inr c, n') →
  NoDup (map Tools.tool_name (Mcp.openaiTools c))
  ∧ (∀ t, t ∈ Mcp.openaiTools c →
       Tools.tool_type t = "function"
       ∧ ∃ info, Mcp.toolServerMap c !! Tools.tool_name t = Some info
                 ∧ Tools.mcpServer t = Some (Mcp.info_url info))
  ∧ (∀ name info, Mcp.toolServerMap c !! name = Some info →
       name ∈ map Tools.tool_name (Mcp.openaiTools c)
       ∧ ∃ srv, srv ∈ servers ∧ Mcp.info_url info = Db.srv_url srv
                ∧ Mcp.info_auth info = Mcp.buildAuth JSON_parse srv).
Proof.
  unfold Mcp.collectMCPTools, mbind, Mcp.M_bind.
  destruct (Mcp.start_all _ _ _ _ servers n) as [[e|cbs] n1] eqn:Hstart; [done|].
  apply start_all_owned in Hstart.
  destruct (deliver_all_invariant URL_parse JSON_envelope fetch
              (λ cbs c _, Forall (Catalogue.owned JSON_parse servers) cbs ∧ Catalogue.coherent JSON_parse servers c)
              (arrivals ++ seq 0 (length servers) ++ seq 0 (length servers)) cbs
              {| Mcp.openaiTools := []; Mcp.toolServerMap := ∅ |} n1)
    as (cbs' & c' & n2 & -> & _ & Hc).
  - intros. by eapply resume_coherent.
  - split; [done|]. split; [constructor|]. split; [by intros t Ht%elem_of_nil|].
    intros name info. simpl. by rewrite lookup_empty.
  - by intros [= <- <-].
Qed.

(** X25: a request carries a bearer header only for a server of type
    [token] or [oauth] whose stored credentials parse, and the header
    carries the stored token: [token] if it is set, [access_token]
    otherwise. *)
Theorem bearer_header_carries_stored_token srv hdr :
  Mcp.authorization (Mcp.buildAuth JSON_parse srv) = Some hdr →
  ∃ ty text data tok,
    Db.srv_auth_type srv = Some ty ∧ (ty = "token" ∨ ty = "oauth")
    ∧ Db.srv_auth_data srv = Some text ∧ JSON_parse text = Some data
    ∧ (data !! "token" = Some tok
       ∨ ((data !! "token" = None ∨ data !! "token" = Some EmptyString)
          ∧ data !! "access_token" = Some tok))
    ∧ Js.truthy tok = true
    ∧ hdr = "Bearer " +:+ tok.
Proof.
  unfold Mcp.buildAuth, Mcp.authorization.
  destruct (Db.srv_auth_type srv) as [ty|]; [|done].
  destruct (negb (Js.truthy ty) || bool_decide (ty = "none")); [done|]. simpl.
  set (data := match Db.srv_auth_data srv with Some _ => _ | None => _ end).
  set (tok := match data !! "token" with Some _ => _ | None => _ end).
  destruct tok as [t|] eqn:Htok; [|done].
  destruct (Js.truthy t) eqn:Ht; [|done]. simpl. rewrite Ht. simpl.
  destruct (bool_decide (ty = "token") || bool_decide (ty = "oauth")) eqn:Hty; [|done].
  intros [= <-].
  assert (data ≠ ∅) as Hdata.
  { intros Hd. subst tok. rewrite Hd, !lookup_empty in Htok. done. }
  destruct (Db.srv_auth_data srv) as [text|] eqn:Htext; [|done].
  unfold data in Hdata.
  destruct (Js.truthy text); [|done].
  destruct (JSON_parse text) as [parsed|] eqn:Hparsed; [|done].
  exists ty, text, parsed, t. split; [done|]. split.
  { apply orb_true_iff in Hty as [H|H]; apply bool_decide_eq_true in H; auto. }
  split; [done|]. split; [done|]. split; [|done].
  subst tok. simpl in data. subst data. simpl in Htok.
  destruct (parsed !! "token") as [t0|] eqn:Ht0.
  - destruct t0; simpl in Htok; [right; auto|left; congruence].
  - right. auto.
Qed.

End GatewayFacts.

Lemma bearer_header_carries_stored_token_witness :
  ∃ ty text data tok,
    Db.srv_auth_type Samples.gamma = Some ty ∧ (ty = "token" ∨ ty = "oauth")
    ∧ Db.srv_auth_data Samples.gamma = Some text ∧ Samples.JSON_parse text = Some data
    ∧ (data !! "token" = Some tok
       ∨ ((data !! "token" = None ∨ data !! "token" = Some EmptyString)
          ∧ data !! "access_token" = Some tok))
    ∧ Js.truthy tok = true
    ∧ "Bearer s3cret" = "Bearer " +:+ tok.
Proof.
  apply (bearer_header_carries_stored_token Samples.JSON_parse Samples.gamma "Bearer s3cret").
  by vm_compute.
Defined.

Lemma catalogue_agrees_with_routes_witness :
  NoDup (map Tools.tool_name (Mcp.openaiTools Samples.catalogue)).
Proof.
  assert (H : Mcp.collectMCPTools Demo.URL_parse Demo.echo_envelope Demo.JSON_parse
                Demo.echo_fetch [Demo.alpha; Demo.beta] [1; 0; 0; 1] Mcp.boot
              = (inr Samples.catalogue, Samples.collected.2)) by (by vm_compute).
  exact (proj1 (catalogue_agrees_with_routes Demo.URL_parse Demo.echo_envelope
                  Demo.JSON_parse Demo.echo_fetch _ _ _ _ _ H)).
Defined.

(** ** The chat handler *)

Section TranscriptFacts.

Variable JSON_parse : string → option (gmap string string).
Variable URL_parse : string → option Mcp.url.
Variable JSON_envelope : string → Ai.exn + Mcp.envelope.
Variable fetch : Mcp.request → Mcp.fetch_result.
Variable tavily_search : string → string → gmap string string → string.
Variable image_generate : string → string → gmap string string → string.
Variable provider : nat → Ai.params → Ai.completion.
Variable extraction : string → string → option (list string).
Variable now : nat.

Variable cfg : gmap string string.
Variable userId convId : nat.
Variable mode : string.
Variable userApiKey : option string.
Variable toolContext : Tools.context.
Variable memory : list Db.memory_row.
Variable allTools : list Tools.tool_def.
Variable mcpToolServerMap : gmap string Mcp.server_info.
Variable apiMessages : nat.

Import Transcript.

#[local] Abbreviation options :=
  (AiRoute.chat_options URL_parse JSON_envelope fetch tavily_search image_generate
     extraction now cfg userId convId mode userApiKey toolContext memory allTools
     mcpToolServerMap apiMessages).

#[local] Abbreviation executor :=
  (AiRoute.toolExecutor URL_parse JSON_envelope fetch tavily_search image_generate now
     toolContext mcpToolServerMap).











End TranscriptFacts.

Section ChatFacts.

Variable JSON_parse : string → option (gmap string string).
Variable URL_parse : string → option Mcp.url.
Variable JSON_envelope : string → Ai.exn + Mcp.envelope.
Variable fetch : Mcp.request → Mcp.fetch_result.
Variable tavily_search : string → string → gmap string string → string.
Variable image_generate : string → string → gmap string string → string.
Variable provider : nat → Ai.params → Ai.completion.
Variable extraction : string → string → option (list string).
Variable research : string → string → list AiRoute.sse_event * string.
Variable now : nat.
Variable arrivals : list nat.

Import Transcript.

#[local] Abbreviation chat :=
  (AiRoute.chat JSON_parse URL_parse JSON_envelope fetch tavily_search image_generate
     provider extraction research now arrivals).






End ChatFacts.

(** [memory_get] is a built-in name: with a routing table that gives it to
    [Demo.beta], the call is still answered from the memory of the caller
    and nothing is sent. *)
Example builtin_name_is_not_routed :
  (λ r, (r.1, Mcp.wire (AiRoute.net r.2)))
    (AiRoute.toolExecutor Demo.URL_parse Demo.echo_envelope Demo.echo_fetch Demo.no_search
       Demo.no_image 200 Demo.ctx1
       {[ "memory_get" := {| Mcp.info_url := Db.srv_url Demo.beta; Mcp.info_auth := None |} ]}
       "memory_get" ∅ Demo.asked)
  = (inr "- Lives in Berlin", []).
Proof. by vm_compute. Qed.



Section AutoMemory.

Variable extraction : string → string → option (list string).
Variable now : nat.

Lemma extractMemories_nonblank provider_id apiKey messages existingFacts :
  Forall (λ f, Js.truthy (Js.trim f) = true)
    (AiRoute.extractMemories extraction provider_id apiKey messages existingFacts)
  ∧ (provider_id ≠ "openai" →
     AiRoute.extractMemories extraction provider_id apiKey messages existingFacts = [])
  ∧ (∀ e, Ai.makeOpenAIClient apiKey = inl e →
     AiRoute.extractMemories extraction provider_id apiKey messages existingFacts = []).
Proof.
  unfold AiRoute.extractMemories. split; [|split].
  - case_bool_decide; [constructor|].
    destruct (Ai.makeOpenAIClient apiKey); [constructor|].
    destruct (negb _); [constructor|].
    destruct (extraction _ _) as [facts|]; [|constructor].
    apply Forall_forall. by intros f [Hf _]%list_elem_of_filter.
  - intros Hp. by rewrite bool_decide_true.
  - intros e ->. by case_bool_decide.
Qed.

Lemma insert_facts uid facts d :
  Forall (λ f, Js.truthy (Js.trim f) = true) facts →
  ∃ rows,
    Db.memory (foldl (λ d f, Db.insert_memory now uid f d) d facts) = Db.memory d ++ rows
    ∧ map Db.mem_content rows = facts
    ∧ Forall (λ r, Db.mem_user_id r = uid ∧ Js.truthy (Js.trim (Db.mem_content r)) = true
                   ∧ Db.mem_created_at r = now) rows.
Proof.
  revert d. induction facts as [|f facts IH]; intros d Hf; cbn [foldl].
  - exists []. by rewrite app_nil_r.
  - apply Forall_cons in Hf as [Hf Hfacts].
    destruct (IH (Db.insert_memory now uid f d) Hfacts) as (rows & Hm & Hc & Hr).
    eexists (_ :: rows). rewrite Hm. simpl. rewrite <- app_assoc. split; [done|].
    split; [by rewrite Hc|]. by constructor.
Qed.

(** X29: what the background extraction stores after a completed answer:
    the facts that [extractMemories] returns, none of them blank, as facts
    of the caller; nothing when it is switched off, when the answer is
    blank, or without an API key. *)
Theorem auto_memory_stores_own_facts cfg userId convId apiMessages userApiKey memory
    text h σ :
  ∃ rows,
    Db.memory (AiRoute.db (AiRoute.onDone extraction now cfg userId convId apiMessages
                             userApiKey memory text h σ))
    = Db.memory (AiRoute.db σ) ++ rows
    ∧ Forall (λ r, Db.mem_user_id r = userId
                   ∧ Js.truthy (Js.trim (Db.mem_content r)) = true
                   ∧ Db.mem_created_at r = now) rows
    ∧ map Db.mem_content rows
      = (if bool_decide (cfg !! "auto_memory" ≠ Some "0")
            && Js.truthy (Js.trim (AiRoute.fullResponse σ))
         then AiRoute.extractMemories extraction (AiRoute.setting cfg "provider") userApiKey
                (Ai.read apiMessages h
                 ++ [Ai.plain Db.assistant (AiRoute.fullResponse σ)]) memory
         else [])
    ∧ (cfg !! "auto_memory" = Some "0" → rows = [])
    ∧ (Js.trim (AiRoute.fullResponse σ) = EmptyString → rows = [])
    ∧ (userApiKey = None → rows = []).
Proof.
  unfold AiRoute.onDone.
  destruct (bool_decide (cfg !! "auto_memory" ≠ Some "0")) eqn:Hauto; simpl.
  2:{ exists []. rewrite app_nil_r. repeat split; auto. }
  destruct (Js.truthy (Js.trim (AiRoute.fullResponse σ))) eqn:Hfull; simpl.
  2:{ exists []. rewrite app_nil_r. repeat split; auto. }
  destruct (extractMemories_nonblank (AiRoute.setting cfg "provider") userApiKey
              (Ai.read apiMessages h ++ [Ai.plain Db.assistant (AiRoute.fullResponse σ)])
              memory) as (Hnb & _ & Hkey).
  destruct (insert_facts userId _
              (Db.touch_conversation now convId
                 (Db.insert_message now convId Db.assistant (AiRoute.fullResponse σ)
                    (AiRoute.db σ))) Hnb) as (rows & Hm & Hc & Hr).
  exists rows. rewrite Hm. simpl. split; [done|]. split; [done|]. split; [done|].
  split; [|split].
  - intros Hoff. apply bool_decide_eq_true in Hauto. done.
  - intros Hblank. by rewrite Hblank in Hfull.
  - intros ->. rewrite (Hkey _ eq_refl) in Hc. by destruct rows.
Qed.

End AutoMemory.

Section ResearchFacts.

Variable completion : string → string → Ai.exn + option string.
Variable JSON_queries : string → Ai.exn + option (list string).
Variable tavily : string → string → Tools.search_answer.

Lemma queries_written (qs : list string) :
  Forall Research.is_query (map AiRoute.research_query qs).
Proof. apply Forall_fmap, Forall_true. done. Qed.

(** X30: the research stage announces six queries at most.  When it runs
    to its end it reports the number of queries it has announced; when it
    fails, at whatever step, it has announced queries only, reports nothing
    and hands over no context. *)
Theorem research_reports_its_queries message tavilyKey :
  (∃ queries,
     Forall Research.is_query queries
     ∧ length queries ≤ 6
     ∧ (AiRoute.deep_research completion JSON_queries tavily message tavilyKey).1
       = queries ++ [AiRoute.research_done (length queries)])
  ∨ (Forall Research.is_query
       (AiRoute.deep_research completion JSON_queries tavily message tavilyKey).1
     ∧ length (AiRoute.deep_research completion JSON_queries tavily message tavilyKey).1 ≤ 6
     ∧ (AiRoute.deep_research completion JSON_queries tavily message tavilyKey).2
       = EmptyString).
Proof.
  unfold AiRoute.deep_research.
  destruct (completion AiRoute.QUERIES_PROMPT _) as [e|q1Resp];
    [right; repeat split; [constructor|simpl; lia]|].
  destruct (AiRoute.queries_of JSON_queries q1Resp) as [e|q1Parsed];
    [right; repeat split; [constructor|simpl; lia]|].
  set (initialQueries := match q1Parsed with Some qs => take 4 qs | None => [message] end).
  assert (Hinit : length initialQueries ≤ 4).
  { unfold initialQueries. destruct q1Parsed as [qs|]; [rewrite length_take|simpl]; lia. }
  destruct (Tools.runDeepResearch tavily initialQueries _) as [round1|];
    [|right; simpl; rewrite length_map; repeat split; [apply queries_written|lia]].
  destruct (completion AiRoute.GAPS_PROMPT _) as [e|gapResp];
    [right; simpl; rewrite length_map; repeat split; [apply queries_written|lia]|].
  destruct (AiRoute.queries_of JSON_queries gapResp) as [e|gapParsed];
    [right; simpl; rewrite length_map; repeat split; [apply queries_written|lia]|].
  assert (Hfollow : length (match gapParsed with Some qs => take 2 qs | None => [] end) ≤ 2).
  { destruct gapParsed as [qs|]; [rewrite length_take|simpl]; lia. }
  generalize dependent (match gapParsed with Some qs => take 2 qs | None => [] end).
  intros followUpQueries Hfollow. cbv zeta.
  assert (Hdone : ∃ queries,
            Forall Research.is_query queries ∧ length queries ≤ 6
            ∧ map AiRoute.research_query initialQueries
              ++ map AiRoute.research_query followUpQueries
              ++ [AiRoute.research_done (length initialQueries + length followUpQueries)]
              = queries ++ [AiRoute.research_done (length queries)]).
  { exists (map AiRoute.research_query (initialQueries ++ followUpQueries)).
    split; [apply queries_written|]. rewrite length_map, length_app. split; [lia|].
    by rewrite map_app, <- app_assoc. }
  destruct followUpQueries as [|q rest]; [by left|].
  destruct (Tools.runDeepResearch tavily (q :: rest) _) as [round2|]; [by left|].
  right. cbn [fst snd]. rewrite <- map_app. split; [apply queries_written|].
  rewrite length_map, length_app. split; [lia|done].
Qed.

(** The follow-up search of this stage meets a body that cannot be read:
    six queries were announced, and the stage ends without [research_done]
    and without context. *)
Example research_fails_after_six_queries :
  AiRoute.deep_research Samples.asks_for_queries Samples.JSON_queries
    Samples.unreadable_follow_up "What is new in Rocq?" "tvly-test"
  = (map AiRoute.research_query ["q1"; "q2"; "q3"; "q4"; "f1"; "f2"], EmptyString).
Proof. by vm_compute. Qed.

End ResearchFacts.
